(** * FoodGame: the round simulation of the falling-food arcade game

    A shallow embedding of [game.py], [gamedata.py], [analytics.py],
    [pausemanager.py] and [resourcemanager.py].
    Python [int] is [Z]; Python [float] is IEEE binary64, taken from the
    standard library's [spec_float] at precision 53 and maximal exponent
    1024; a raised exception is [None] in the [option] monad; the outcome
    of every call into [random], of every image load and of every clock
    reading, and every key state, is an explicit input.
    Drawing calls only write to the screen and are left out; what the
    drawing functions do to the game state is kept. *)

From Stdlib Require Import ZArith Lia.
From Stdlib Require Import Floats.SpecFloat.
From stdpp Require Import base option list gmap strings pretty.

Open Scope Z_scope.

(** ** Python numbers *)

Module Py.

Abbreviation float := spec_float.

Definition fadd : float → float → float := SFadd 53 1024.
Definition fsub : float → float → float := SFsub 53 1024.
Definition fmul : float → float → float := SFmul 53 1024.
Definition fdiv : float → float → float := SFdiv 53 1024.

(** The double nearest to an integer (round half to even). *)
Definition float_of_Z (z : Z) : float := binary_normalize 53 1024 z 0 false.

(** A decimal literal [n/d] of the source, e.g. [0.15] is [dec 15 100]:
    the correctly rounded quotient of two exactly represented integers. *)
Definition dec (n d : Z) : float := fdiv (float_of_Z n) (float_of_Z d).

(** Conversion of an [int] operand in mixed arithmetic; CPython raises
    [OverflowError] when the integer is too large for a double. *)
Definition int_to_float (z : Z) : option float :=
  match float_of_Z z with
  | S754_infinity _ => None
  | f => Some f
  end.

Inductive num := Int (z : Z) | Float (f : float).

Definition to_float (a : num) : option float :=
  match a with
  | Int z => int_to_float z
  | Float f => Some f
  end.

Definition arith (fi : Z → Z → Z) (ff : float → float → float)
    (a b : num) : option num :=
  match a, b with
  | Int x, Int y => Some (Int (fi x y))
  | _, _ => x ← to_float a; y ← to_float b; Some (Float (ff x y))
  end.

Definition add : num → num → option num := arith Z.add fadd.
Definition sub : num → num → option num := arith Z.sub fsub.
Definition mul : num → num → option num := arith Z.mul fmul.

(** CPython compares a float with an int by value, without rounding
    the int. *)
Definition float_compare_Z (f : float) (z : Z) : option comparison :=
  match f with
  | S754_nan => None
  | S754_infinity s => Some (if s then Lt else Gt)
  | S754_zero _ => Some (0 ?= z)
  | S754_finite s m e =>
      let v := cond_Zopp s (Zpos m) in
      Some (if 0 <=? e then (v * 2 ^ e ?= z) else (v ?= z * 2 ^ (- e)))
  end.

Definition compare (a b : num) : option comparison :=
  match a, b with
  | Int x, Int y => Some (x ?= y)
  | Float x, Float y => SFcompare x y
  | Float x, Int y => float_compare_Z x y
  | Int x, Float y => CompOpp <$> float_compare_Z y x
  end.

Definition lt (a b : num) : bool :=
  match compare a b with
  | Some Lt => true
  | _ => false
  end.

(** [min(a, b)] keeps [a] unless [b < a].  On two ints, [min] and [max]
    are [Z.min] and [Z.max]. *)
Definition min (a b : num) : num := if lt b a then b else a.

(** [int(x)] truncates toward zero and raises on NaN and infinities. *)
Definition trunc (f : float) : option Z :=
  match f with
  | S754_zero _ => Some 0
  | S754_finite s m e =>
      Some (cond_Zopp s (if 0 <=? e then Zpos m * 2 ^ e else Zpos m / 2 ^ (- e)))
  | _ => None
  end.

Definition int (a : num) : option Z :=
  match a with
  | Int z => Some z
  | Float f => trunc f
  end.

(** The integer nearest to a float.  A float half-way between [n] and
    [n + 1] goes to [n + 1] when [up n] and to [n] otherwise; NaN and
    the infinities have no nearest integer. *)
Definition nearest (up : Z → bool) (f : float) : option Z :=
  match f with
  | S754_zero _ => Some 0
  | S754_finite s m e =>
      if 0 <=? e then Some (cond_Zopp s (Zpos m * 2 ^ e))
      else
        let d := 2 ^ (- e) in
        let q := Zpos m / d in
        let r := Zpos m mod d in
        if 2 * r <? d then Some (cond_Zopp s q)
        else if 2 * r >? d then Some (cond_Zopp s (q + 1))
        else
          let n := if s then - (q + 1) else q in
          Some (if up n then n + 1 else n)
  | _ => None
  end.

(** [math.floor], used only to state the specification. *)
Definition floor (f : float) : option Z :=
  match f with
  | S754_zero _ => Some 0
  | S754_finite s m e =>
      Some (if 0 <=? e then cond_Zopp s (Zpos m) * 2 ^ e
            else cond_Zopp s (Zpos m) / 2 ^ (- e))
  | _ => None
  end.

End Py.

(** ** Python objects held in lists

    The lists of a round hold references to dictionaries that are
    mutated in place while a copy of the list is being iterated.  An
    element is therefore an identity [oid] together with its current
    value; [list.remove] compares values and deletes the first equal
    element, raising [ValueError] when there is none.  A loop over a copy
    holds each element with the value it had when copied, which is still
    its value when its turn comes: an object is written only during its
    own iteration, and identities are distinct in every reachable round
    ([round_ok] below). *)

Record obj (A : Type) := Obj { oid : nat; oval : A }.
Arguments Obj {A} oid oval.
Arguments oid {A} o.
Arguments oval {A} o.

Definition obj_write {A} (o : obj A) (l : list (obj A)) : list (obj A) :=
  (λ o', if decide (oid o' = oid o) then o else o') <$> l.

Fixpoint py_remove {A} `{EqDecision A} (v : A) (l : list (obj A))
    : option (list (obj A)) :=
  match l with
  | [] => None
  | o :: l' => if decide (oval o = v) then Some l' else (o ::.) <$> py_remove v l'
  end.

(** Monadic left fold: a [for] loop whose body may raise. *)
Fixpoint for_each {S A} (body : S → A → option S) (s : S) (l : list A) : option S :=
  match l with
  | [] => Some s
  | a :: l' => s' ← body s a; for_each body s' l'
  end.

(** ** pygame rectangles

    Coordinates are integers (the range of a C int is not modelled);
    assigning a float to a coordinate stores the nearest integer. *)

Record Rect := mkRect { rect_x : Z; rect_y : Z; rect_w : Z; rect_h : Z }.

Definition left (r : Rect) : Z := rect_x r.
Definition top (r : Rect) : Z := rect_y r.
Definition right (r : Rect) : Z := rect_x r + rect_w r.
Definition bottom (r : Rect) : Z := rect_y r + rect_h r.
Definition centerx (r : Rect) : Z := rect_x r + rect_w r `quot` 2.
Definition centery (r : Rect) : Z := rect_y r + rect_h r `quot` 2.

Definition set_rect_x (r : Rect) (v : Z) : Rect :=
  {| rect_x := v; rect_y := rect_y r; rect_w := rect_w r; rect_h := rect_h r |}.
Definition set_rect_y (r : Rect) (v : Z) : Rect :=
  {| rect_x := rect_x r; rect_y := v; rect_w := rect_w r; rect_h := rect_h r |}.

Definition colliderect (a b : Rect) : bool :=
  if (rect_w a =? 0) || (rect_h a =? 0) || (rect_w b =? 0) || (rect_h b =? 0)
  then false
  else (Z.min (rect_x a) (right a) <? Z.max (rect_x b) (right b))
    && (Z.min (rect_y a) (bottom a) <? Z.max (rect_y b) (bottom b))
    && (Z.max (rect_x a) (right a) >? Z.min (rect_x b) (right b))
    && (Z.max (rect_y a) (bottom a) >? Z.min (rect_y b) (bottom b)).

(** Which of its two neighbours a float exactly half-way between two
    integers is stored as is the choice of the rounding function behind
    the assignment: [tie_up n] says whether [n + 1/2] becomes [n + 1].
    The development holds for every such rule. *)
Class TieRule := { tie_up : Z → bool }.

(** To the even neighbour, as Python's [round]. *)
Definition half_even : TieRule := {| tie_up n := Z.odd n |}.

(** Away from zero, as C's [round]. *)
Definition half_away : TieRule := {| tie_up n := 0 <=? n |}.

(** The integer a coordinate holds after the assignment of [a]. *)
Definition to_coord `{TieRule} (a : Py.num) : option Z :=
  match a with
  | Py.Int z => Some z
  | Py.Float f => Py.nearest tie_up f
  end.

Definition collidepoint (r : Rect) (p : Z * Z) : bool :=
  (rect_x r <=? p.1) && (p.1 <? right r) && (rect_y r <=? p.2) && (p.2 <? bottom r).

(** ** Food catalog *)

Inductive FoodType := APPLE | BANANA | SPECIAL.

Definition color := (Z * Z * Z)%type.

Definition points (t : FoodType) : Z :=
  match t with APPLE => 1 | BANANA => 2 | SPECIAL => 5 end.

Definition speed (t : FoodType) : Py.float :=
  match t with
  | APPLE => Py.dec 12 10
  | BANANA => Py.dec 14 10
  | SPECIAL => Py.dec 18 10
  end.

Definition weight (t : FoodType) : Py.float :=
  match t with
  | APPLE => Py.dec 5 10
  | BANANA => Py.dec 3 10
  | SPECIAL => Py.dec 2 10
  end.

Definition size (t : FoodType) : Z * Z :=
  match t with APPLE => (60, 60) | BANANA => (70, 70) | SPECIAL => (80, 80) end.

Definition food_color (t : FoodType) : color :=
  match t with
  | APPLE => (255, 0, 0)
  | BANANA => (255, 255, 0)
  | SPECIAL => (255, 215, 0)
  end.

(** ** Round state *)

(** A falling item.  [food_img] is the identity of the Surface created
    for it: Surfaces compare by identity, so two item dictionaries are
    equal only when they hold the same Surface. *)
Record Food := mkFood {
  food_img : nat;
  food_rect : Rect;
  food_type : FoodType;
  food_speed : Py.num
}.

Record Popup := mkPopup {
  popup_text : string;
  popup_pos : Z * Z;
  popup_timer : Z;
  popup_color : color
}.

Record Message := mkMessage {
  msg_text : string;
  msg_timer : Z;
  msg_color : color
}.

Record GameData := mkGameData {
  score : Z;
  missed_food : Z;
  max_missed_food : Z;
  level : Z;
  combo : Z;
  max_combo : Z;
  food_objects : list (obj Food);
  game_over : bool;
  character_speed : Py.num;
  base_spawn_rate : Z;
  current_spawn_rate : Z;
  difficulty_multiplier : Py.num;
  score_multiplier : Py.num;
  spawn_timer : Z;
  level_timer : Z;
  special_spawn_chance : Py.num;
  powerup_active : bool;
  powerup_timer : Z;
  score_popups : list (obj Popup);
  achievement_messages : list (obj Message);
  total_catches : Z;
  perfect_catches : Z;
  start_time : Z;
  (** model only: how many dictionaries this round has created *)
  allocated : nat
}.

(** [GameData()]; [now] is [pygame.time.get_ticks()]. *)
Definition GameData_init (now : Z) : GameData := {|
  score := 0;
  missed_food := 0;
  max_missed_food := 3;
  level := 1;
  combo := 0;
  max_combo := 0;
  food_objects := [];
  game_over := false;
  character_speed := Py.Int 10;
  base_spawn_rate := 45;
  current_spawn_rate := 45;
  difficulty_multiplier := Py.Float (Py.dec 10 10);
  score_multiplier := Py.Float (Py.dec 10 10);
  spawn_timer := 0;
  level_timer := 0;
  special_spawn_chance := Py.Float (Py.dec 15 100);
  powerup_active := false;
  powerup_timer := 0;
  score_popups := [];
  achievement_messages := [];
  total_catches := 0;
  perfect_catches := 0;
  start_time := now;
  allocated := 0
|}.
(** Attribute assignment [game_data.f = v], one setter per assigned field. *)

Definition set_score (v : Z) (d : GameData) : GameData :=
  mkGameData
    v (missed_food d) (max_missed_food d) (level d) (combo d) (max_combo d)
    (food_objects d) (game_over d) (character_speed d) (base_spawn_rate d)
    (current_spawn_rate d) (difficulty_multiplier d) (score_multiplier d)
    (spawn_timer d) (level_timer d) (special_spawn_chance d)
    (powerup_active d) (powerup_timer d) (score_popups d)
    (achievement_messages d) (total_catches d) (perfect_catches d)
    (start_time d) (allocated d).

Definition set_missed_food (v : Z) (d : GameData) : GameData :=
  mkGameData
    (score d) v (max_missed_food d) (level d) (combo d) (max_combo d)
    (food_objects d) (game_over d) (character_speed d) (base_spawn_rate d)
    (current_spawn_rate d) (difficulty_multiplier d) (score_multiplier d)
    (spawn_timer d) (level_timer d) (special_spawn_chance d)
    (powerup_active d) (powerup_timer d) (score_popups d)
    (achievement_messages d) (total_catches d) (perfect_catches d)
    (start_time d) (allocated d).

Definition set_level (v : Z) (d : GameData) : GameData :=
  mkGameData
    (score d) (missed_food d) (max_missed_food d) v (combo d) (max_combo d)
    (food_objects d) (game_over d) (character_speed d) (base_spawn_rate d)
    (current_spawn_rate d) (difficulty_multiplier d) (score_multiplier d)
    (spawn_timer d) (level_timer d) (special_spawn_chance d)
    (powerup_active d) (powerup_timer d) (score_popups d)
    (achievement_messages d) (total_catches d) (perfect_catches d)
    (start_time d) (allocated d).

Definition set_combo (v : Z) (d : GameData) : GameData :=
  mkGameData
    (score d) (missed_food d) (max_missed_food d) (level d) v (max_combo d)
    (food_objects d) (game_over d) (character_speed d) (base_spawn_rate d)
    (current_spawn_rate d) (difficulty_multiplier d) (score_multiplier d)
    (spawn_timer d) (level_timer d) (special_spawn_chance d)
    (powerup_active d) (powerup_timer d) (score_popups d)
    (achievement_messages d) (total_catches d) (perfect_catches d)
    (start_time d) (allocated d).

Definition set_max_combo (v : Z) (d : GameData) : GameData :=
  mkGameData
    (score d) (missed_food d) (max_missed_food d) (level d) (combo d) v
    (food_objects d) (game_over d) (character_speed d) (base_spawn_rate d)
    (current_spawn_rate d) (difficulty_multiplier d) (score_multiplier d)
    (spawn_timer d) (level_timer d) (special_spawn_chance d)
    (powerup_active d) (powerup_timer d) (score_popups d)
    (achievement_messages d) (total_catches d) (perfect_catches d)
    (start_time d) (allocated d).

Definition set_food_objects (v : list (obj Food)) (d : GameData) : GameData :=
  mkGameData
    (score d) (missed_food d) (max_missed_food d) (level d) (combo d)
    (max_combo d) v (game_over d) (character_speed d) (base_spawn_rate d)
    (current_spawn_rate d) (difficulty_multiplier d) (score_multiplier d)
    (spawn_timer d) (level_timer d) (special_spawn_chance d)
    (powerup_active d) (powerup_timer d) (score_popups d)
    (achievement_messages d) (total_catches d) (perfect_catches d)
    (start_time d) (allocated d).

Definition set_game_over (v : bool) (d : GameData) : GameData :=
  mkGameData
    (score d) (missed_food d) (max_missed_food d) (level d) (combo d)
    (max_combo d) (food_objects d) v (character_speed d) (base_spawn_rate d)
    (current_spawn_rate d) (difficulty_multiplier d) (score_multiplier d)
    (spawn_timer d) (level_timer d) (special_spawn_chance d)
    (powerup_active d) (powerup_timer d) (score_popups d)
    (achievement_messages d) (total_catches d) (perfect_catches d)
    (start_time d) (allocated d).

Definition set_character_speed (v : Py.num) (d : GameData) : GameData :=
  mkGameData
    (score d) (missed_food d) (max_missed_food d) (level d) (combo d)
    (max_combo d) (food_objects d) (game_over d) v (base_spawn_rate d)
    (current_spawn_rate d) (difficulty_multiplier d) (score_multiplier d)
    (spawn_timer d) (level_timer d) (special_spawn_chance d)
    (powerup_active d) (powerup_timer d) (score_popups d)
    (achievement_messages d) (total_catches d) (perfect_catches d)
    (start_time d) (allocated d).

Definition set_current_spawn_rate (v : Z) (d : GameData) : GameData :=
  mkGameData
    (score d) (missed_food d) (max_missed_food d) (level d) (combo d)
    (max_combo d) (food_objects d) (game_over d) (character_speed d)
    (base_spawn_rate d) v (difficulty_multiplier d) (score_multiplier d)
    (spawn_timer d) (level_timer d) (special_spawn_chance d)
    (powerup_active d) (powerup_timer d) (score_popups d)
    (achievement_messages d) (total_catches d) (perfect_catches d)
    (start_time d) (allocated d).

Definition set_difficulty_multiplier (v : Py.num) (d : GameData) : GameData :=
  mkGameData
    (score d) (missed_food d) (max_missed_food d) (level d) (combo d)
    (max_combo d) (food_objects d) (game_over d) (character_speed d)
    (base_spawn_rate d) (current_spawn_rate d) v (score_multiplier d)
    (spawn_timer d) (level_timer d) (special_spawn_chance d)
    (powerup_active d) (powerup_timer d) (score_popups d)
    (achievement_messages d) (total_catches d) (perfect_catches d)
    (start_time d) (allocated d).

Definition set_spawn_timer (v : Z) (d : GameData) : GameData :=
  mkGameData
    (score d) (missed_food d) (max_missed_food d) (level d) (combo d)
    (max_combo d) (food_objects d) (game_over d) (character_speed d)
    (base_spawn_rate d) (current_spawn_rate d) (difficulty_multiplier d)
    (score_multiplier d) v (level_timer d) (special_spawn_chance d)
    (powerup_active d) (powerup_timer d) (score_popups d)
    (achievement_messages d) (total_catches d) (perfect_catches d)
    (start_time d) (allocated d).

Definition set_level_timer (v : Z) (d : GameData) : GameData :=
  mkGameData
    (score d) (missed_food d) (max_missed_food d) (level d) (combo d)
    (max_combo d) (food_objects d) (game_over d) (character_speed d)
    (base_spawn_rate d) (current_spawn_rate d) (difficulty_multiplier d)
    (score_multiplier d) (spawn_timer d) v (special_spawn_chance d)
    (powerup_active d) (powerup_timer d) (score_popups d)
    (achievement_messages d) (total_catches d) (perfect_catches d)
    (start_time d) (allocated d).

Definition set_special_spawn_chance (v : Py.num) (d : GameData) : GameData :=
  mkGameData
    (score d) (missed_food d) (max_missed_food d) (level d) (combo d)
    (max_combo d) (food_objects d) (game_over d) (character_speed d)
    (base_spawn_rate d) (current_spawn_rate d) (difficulty_multiplier d)
    (score_multiplier d) (spawn_timer d) (level_timer d) v (powerup_active d)
    (powerup_timer d) (score_popups d) (achievement_messages d)
    (total_catches d) (perfect_catches d) (start_time d) (allocated d).

Definition set_score_popups (v : list (obj Popup)) (d : GameData) : GameData :=
  mkGameData
    (score d) (missed_food d) (max_missed_food d) (level d) (combo d)
    (max_combo d) (food_objects d) (game_over d) (character_speed d)
    (base_spawn_rate d) (current_spawn_rate d) (difficulty_multiplier d)
    (score_multiplier d) (spawn_timer d) (level_timer d)
    (special_spawn_chance d) (powerup_active d) (powerup_timer d) v
    (achievement_messages d) (total_catches d) (perfect_catches d)
    (start_time d) (allocated d).

Definition set_achievement_messages (v : list (obj Message)) (d : GameData) : GameData :=
  mkGameData
    (score d) (missed_food d) (max_missed_food d) (level d) (combo d)
    (max_combo d) (food_objects d) (game_over d) (character_speed d)
    (base_spawn_rate d) (current_spawn_rate d) (difficulty_multiplier d)
    (score_multiplier d) (spawn_timer d) (level_timer d)
    (special_spawn_chance d) (powerup_active d) (powerup_timer d)
    (score_popups d) v (total_catches d) (perfect_catches d) (start_time d)
    (allocated d).

Definition set_total_catches (v : Z) (d : GameData) : GameData :=
  mkGameData
    (score d) (missed_food d) (max_missed_food d) (level d) (combo d)
    (max_combo d) (food_objects d) (game_over d) (character_speed d)
    (base_spawn_rate d) (current_spawn_rate d) (difficulty_multiplier d)
    (score_multiplier d) (spawn_timer d) (level_timer d)
    (special_spawn_chance d) (powerup_active d) (powerup_timer d)
    (score_popups d) (achievement_messages d) v (perfect_catches d)
    (start_time d) (allocated d).

Definition set_allocated (v : nat) (d : GameData) : GameData :=
  mkGameData
    (score d) (missed_food d) (max_missed_food d) (level d) (combo d)
    (max_combo d) (food_objects d) (game_over d) (character_speed d)
    (base_spawn_rate d) (current_spawn_rate d) (difficulty_multiplier d)
    (score_multiplier d) (spawn_timer d) (level_timer d)
    (special_spawn_chance d) (powerup_active d) (powerup_timer d)
    (score_popups d) (achievement_messages d) (total_catches d)
    (perfect_catches d) (start_time d) v.

Global Instance FoodType_eq_dec : EqDecision FoodType.
Proof. solve_decision. Defined.
Global Instance float_eq_dec : EqDecision Py.float.
Proof. solve_decision. Defined.
Global Instance num_eq_dec : EqDecision Py.num.
Proof. solve_decision. Defined.
Global Instance Rect_eq_dec : EqDecision Rect.
Proof. solve_decision. Defined.
Global Instance Food_eq_dec : EqDecision Food.
Proof. solve_decision. Defined.
Global Instance Popup_eq_dec : EqDecision Popup.
Proof. solve_decision. Defined.
Global Instance Message_eq_dec : EqDecision Message.
Proof. solve_decision. Defined.

(** ** The pause clock ([pausemanager.py]) *)

Module PauseManager.

Record t := mk {
  paused : bool;
  pause_start : option Z;
  total_pause_time : Z
}.

(** [PauseManager()] *)
Definition init : t := mk false None 0.

(** [toggle_pause]; [now] is [pygame.time.get_ticks()].  Resuming
    subtracts [pause_start], which raises [TypeError] while it is still
    [None]. *)
Definition toggle_pause (now : Z) (self : t) : option t :=
  let self := mk (negb (paused self)) (pause_start self) (total_pause_time self) in
  if paused self
  then Some (mk (paused self) (Some now) (total_pause_time self))
  else
    start ← pause_start self;
    Some (mk (paused self) (pause_start self)
            (total_pause_time self + (now - start))).

(** [handle_crash] clears the flag and leaves the clock alone. *)
Definition crash_reset (self : t) : t :=
  mk false (pause_start self) (total_pause_time self).

(** What happens to a pause manager: Escape at a clock reading, or the
    recovery from a crash. *)
Inductive event := Toggle (now : Z) | CrashReset.

Definition handle (self : t) (e : event) : option t :=
  match e with
  | Toggle now => toggle_pause now self
  | CrashReset => Some (crash_reset self)
  end.

(** The time paused over the clock readings of successive toggles that
    start from a running game: the readings pair up as pause and
    resume. *)
Fixpoint paused_time (ts : list Z) : Z :=
  match ts with
  | t1 :: t2 :: rest => (t2 - t1) + paused_time rest
  | _ => 0
  end.

(** A paused manager has a start time. *)
Definition clock_ok (self : t) : Prop :=
  paused self = true → is_Some (pause_start self).

(** The clock readings do not run backwards. *)
Fixpoint clock_ordered (ts : list Z) : Prop :=
  match ts with
  | t1 :: ts' =>
      match ts' with
      | t2 :: _ => t1 ≤ t2 ∧ clock_ordered ts'
      | [] => True
      end
  | [] => True
  end.

End PauseManager.

(** ** The game object *)

Inductive GameState :=
  LOBBY | PLAYING | PAUSED | GAME_OVER | HOW_TO_PLAY | CREDITS | SETTINGS.

Global Instance GameState_eq_dec : EqDecision GameState.
Proof. solve_decision. Defined.

(** [Analytics]: the in-memory aggregate and the contents of
    [analytics.json] ([None] while the file does not exist). *)
Record Analytics := mkAnalytics {
  data : gmap string Z;
  analytics_file : option (gmap string Z)
}.

(** The part of [Game] the simulation reads or writes.  The screen,
    fonts, images and sounds are write-only sinks. *)
Record Game := mkGame {
  width : Z;
  height : Z;
  high_score : Z;
  current_state : GameState;
  game_data : option GameData;
  character_rect : Rect;
  pause_manager : PauseManager.t;
  analytics : Analytics;
  (** contents of [high_score.txt] *)
  high_score_file : option Z
}.

(** [pause_manager.paused] *)
Abbreviation paused g := (PauseManager.paused (pause_manager g)).

Definition set_high_score (v : Z) (g : Game) : Game :=
  mkGame (width g) (height g) v (current_state g) (game_data g)
    (character_rect g) (pause_manager g) (analytics g) (high_score_file g).
Definition set_current_state (v : GameState) (g : Game) : Game :=
  mkGame (width g) (height g) (high_score g) v (game_data g)
    (character_rect g) (pause_manager g) (analytics g) (high_score_file g).
Definition set_game_data (v : option GameData) (g : Game) : Game :=
  mkGame (width g) (height g) (high_score g) (current_state g) v
    (character_rect g) (pause_manager g) (analytics g) (high_score_file g).
Definition set_character_rect (v : Rect) (g : Game) : Game :=
  mkGame (width g) (height g) (high_score g) (current_state g) (game_data g)
    v (pause_manager g) (analytics g) (high_score_file g).
Definition set_pause_manager (v : PauseManager.t) (g : Game) : Game :=
  mkGame (width g) (height g) (high_score g) (current_state g) (game_data g)
    (character_rect g) v (analytics g) (high_score_file g).
Definition set_analytics (v : Analytics) (g : Game) : Game :=
  mkGame (width g) (height g) (high_score g) (current_state g) (game_data g)
    (character_rect g) (pause_manager g) v (high_score_file g).
Definition set_high_score_file (v : option Z) (g : Game) : Game :=
  mkGame (width g) (height g) (high_score g) (current_state g) (game_data g)
    (character_rect g) (pause_manager g) (analytics g) v.

(** [save_high_score]: an [IOError] is logged and swallowed, leaving the
    file as it was; [write_ok] says whether the write goes through. *)
Definition save_high_score (write_ok : bool) (self : Game) : Game :=
  if write_ok then set_high_score_file (Some (high_score self)) self else self.

(** ** Spawn engine *)

(** Lines 286-291: what loading and scaling the item's image does.  A
    [pygame.error] is caught and a filled surface of the same size
    stands in; any other exception (a [FileNotFoundError] for a missing
    file) is not caught by [except pygame.error] and leaves
    [spawn_food]. *)
Inductive ImageLoad := Loaded | PygameError | OtherError.

#[global] Instance ImageLoad_eq_dec : EqDecision ImageLoad.
Proof. solve_decision. Defined.

(** Outcomes of the calls into [random] and into the image loader made
    by one [spawn_food]. *)
Record SpawnDraws := mkSpawnDraws {
  (** [random.random()] compared with [special_spawn_chance] *)
  special_roll : Py.float;
  (** [random.choices(list(FoodType), weights=weights)[0]] *)
  type_pick : FoodType;
  (** [pygame.image.load] and [pygame.transform.scale] *)
  image_load : ImageLoad;
  (** [random.randint] of the placement branch taken *)
  x_draw : Z;
  (** [random.random()] compared with [0.2] *)
  offset_roll : Py.float;
  (** [random.choice([-200, 200])] *)
  offset_pick : Z;
  (** [random.randint(-70, -40)] *)
  y_draw : Z;
  (** the [k]-th [random.choice([-50, 50])] of the overlap loop *)
  nudge_pick : nat → Z
}.

Definition spawn_weights (game_data : GameData) (d : SpawnDraws) : list Py.num :=
  [ Py.Float (weight APPLE);
    Py.Float (weight BANANA);
    if Py.lt (Py.Float (special_roll d)) (special_spawn_chance game_data)
    then Py.Float (weight SPECIAL) else Py.Int 0 ].

(** The bounds handed to [random.randint] for the x position. *)
Definition spawn_range (width player_x : Z) : Z * Z :=
  if player_x <? 300 then (200, 600)
  else if player_x >? width - 300 then (width - 600, width - 200)
  else (Z.max 100 (player_x - 400 / 2), Z.min (width - 100) (player_x + 400 / 2)).

Definition clamp_x (width v : Z) : Z := Z.max 100 (Z.min (width - 100) v).

(** Lines 293-307: the x position before the overlap loop. *)
Definition choose_spawn_x (width player_x : Z) (d : SpawnDraws) : Z :=
  if player_x <? 300 then x_draw d
  else if player_x >? width - 300 then x_draw d
  else
    let spawn_x := x_draw d in
    if Py.lt (Py.Float (offset_roll d)) (Py.Float (Py.dec 2 10))
    then clamp_x width (spawn_x + offset_pick d)
    else spawn_x.

(** Lines 312-316: one pass over the existing items; the state is the
    current [spawn_x] and the number of nudges drawn so far. *)
Definition nudge_step (width : Z) (d : SpawnDraws)
    (st : Z * nat) (existing_food : obj Food) : Z * nat :=
  if Z.abs (centerx (food_rect (oval existing_food)) - st.1) <? 60
  then (clamp_x width (st.1 + nudge_pick d st.2), S st.2)
  else st.

Definition avoid_overlap (width : Z) (d : SpawnDraws) (spawn_x : Z)
    (food_objects : list (obj Food)) : Z :=
  (foldl (nudge_step width d) (spawn_x, 0%nat) food_objects).1.

Definition spawn_food (self : Game) (game_data : GameData) (d : SpawnDraws)
    : option GameData :=
  let food_type := type_pick d in
  match image_load d with
  | OtherError => None
  | Loaded | PygameError =>
      (* either way [food_img] has the size of [food_type] *)
      let player_x := centerx (character_rect self) in
      let spawn_x := choose_spawn_x (width self) player_x d in
      let spawn_y := y_draw d in
      let spawn_x := avoid_overlap (width self) d spawn_x (food_objects game_data) in
      let food_rect := mkRect spawn_x spawn_y (size food_type).1 (size food_type).2 in
      food_speed ← Py.mul (Py.Float (speed food_type)) (difficulty_multiplier game_data);
      let id := allocated game_data in
      let food := Obj id (mkFood id food_rect food_type food_speed) in
      Some (set_allocated (S id)
             (set_food_objects (food_objects game_data ++ [food]) game_data))
  end.

(** What the [random] module guarantees about the draws: [choices]
    returns an element of positive weight, [randint a b] a value in
    [a..b], [choice] a member of its list. *)
Definition choices_ok {A} (population : list A) (weights : list Py.num)
    (pick : A) : Prop :=
  ∃ i w, population !! i = Some pick ∧ weights !! i = Some w
         ∧ Py.lt (Py.Int 0) w = true.

Definition draws_valid (self : Game) (game_data : GameData) (d : SpawnDraws) : Prop :=
  choices_ok [APPLE; BANANA; SPECIAL] (spawn_weights game_data d) (type_pick d)
  ∧ (let r := spawn_range (width self) (centerx (character_rect self)) in
     r.1 ≤ x_draw d ≤ r.2)
  ∧ (offset_pick d = -200 ∨ offset_pick d = 200)
  ∧ -70 ≤ y_draw d ≤ -40
  ∧ ∀ k, nudge_pick d k = -50 ∨ nudge_pick d k = 50.

(** ** Difficulty progressor *)

Definition update_difficulty (game_data : GameData) : option GameData :=
  let gd := set_level_timer (level_timer game_data + 1) game_data in
  if level_timer gd >=? 500 then
    let gd := set_level (level gd + 1) gd in
    let gd := set_level_timer 0 gd in
    dm ← Py.mul (Py.Int (level gd - 1)) (Py.Float (Py.dec 12 100))
          ≫= Py.add (Py.Float (Py.dec 10 10));
    let gd := set_difficulty_multiplier dm gd in
    let gd := set_current_spawn_rate
                (Z.max 15 (base_spawn_rate gd - (level gd - 1) * 4)) gd in
    sc ← Py.mul (Py.Int (level gd - 1)) (Py.Float (Py.dec 25 1000))
          ≫= Py.add (Py.Float (Py.dec 15 100));
    let gd := set_special_spawn_chance (Py.min (Py.Float (Py.dec 35 100)) sc) gd in
    cs ← Py.mul (Py.Int (level gd - 1)) (Py.Float (Py.dec 6 10))
          ≫= Py.add (Py.Int 10);
    let gd := set_character_speed (Py.min (Py.Int 16) cs) gd in
    let msg := Obj (allocated gd)
                 (mkMessage ("Level Up! " +:+ pretty (level gd)) 120 (255, 215, 0)) in
    Some (set_allocated (S (allocated gd))
           (set_achievement_messages (achievement_messages gd ++ [msg]) gd))
  else Some gd.

(** ** Collision and scoring *)

Definition handle_collision (game_data : GameData) (food : obj Food)
    : option (GameData * Z) :=
  let food_type := food_type (oval food) in
  let base_points := points food_type in
  let gd := set_combo (combo game_data + 1) game_data in
  let gd := set_max_combo (Z.max (max_combo gd) (combo gd)) gd in
  x ← Py.mul (Py.Int (combo gd)) (Py.Float (Py.dec 15 100)) ≫= Py.add (Py.Int 1);
  let combo_multiplier := Py.min (Py.Int 4) x in
  q ← Py.mul (Py.Int base_points) combo_multiplier;
  r ← Py.mul q (score_multiplier gd);
  p ← Py.int r;
  let gd := set_score (score gd + p) gd in
  let gd := set_total_catches (total_catches gd + 1) gd in
  let popup := Obj (allocated gd)
                 (mkPopup ("+" +:+ pretty p)
                    (centerx (food_rect (oval food)), centery (food_rect (oval food)))
                    60 (food_color food_type)) in
  let gd := set_allocated (S (allocated gd))
              (set_score_popups (score_popups gd ++ [popup]) gd) in
  let gd :=
    if combo gd =? 10 then
      let msg := Obj (allocated gd) (mkMessage "Super Combo!" 120 (255, 165, 0)) in
      set_allocated (S (allocated gd))
        (set_achievement_messages (achievement_messages gd ++ [msg]) gd)
    else gd in
  objs ← py_remove (oval food) (food_objects gd);
  Some (set_food_objects objs gd, p).

(** ** One simulation tick *)

Section Simulation.

Context `{TieRule}.

(** What one frame reads from outside the game object. *)
Record Input := mkInput {
  (** [keys[pygame.K_a]] and [keys[pygame.K_d]] *)
  key_a : bool;
  key_d : bool;
  draws : SpawnDraws;
  write_ok : bool
}.

(** [rect.x -= v] and [rect.x += v]: Python arithmetic, then the
    conversion pygame applies when it stores the coordinate. *)
Definition move_x (op : Py.num → Py.num → option Py.num) (r : Rect) (v : Py.num)
    : option Rect :=
  set_rect_x r <$> (op (Py.Int (rect_x r)) v ≫= to_coord).

Definition move_y (r : Rect) (v : Py.num) : option Rect :=
  set_rect_y r <$> (Py.add (Py.Int (rect_y r)) v ≫= to_coord).

(** The body of the loop over [food_objects[:]]. *)
Definition food_step (self : Game) (food : obj Food) : option Game :=
  gd ← game_data self;
  rect ← move_y (food_rect (oval food)) (food_speed (oval food));
  let food :=
    Obj (oid food)
      (mkFood (food_img (oval food)) rect (food_type (oval food))
         (food_speed (oval food))) in
  let gd := set_food_objects (obj_write food (food_objects gd)) gd in
  if colliderect (food_rect (oval food)) (character_rect self) then
    r ← handle_collision gd food;
    Some (set_game_data (Some r.1) self)
  else if top (food_rect (oval food)) >? height self then
    objs ← py_remove (oval food) (food_objects gd);
    let gd := set_food_objects objs gd in
    let gd := set_missed_food (missed_food gd + 1) gd in
    let gd := set_combo 0 gd in
    if missed_food gd >=? max_missed_food gd then
      Some (set_current_state GAME_OVER
              (set_game_data (Some (set_game_over true gd)) self))
    else Some (set_game_data (Some gd) self)
  else Some (set_game_data (Some gd) self).

Definition update_game_state (self : Game) (i : Input) : option Game :=
  gd ← game_data self;
  rect ← (if key_a i && (left (character_rect self) >? 0)
          then move_x Py.sub (character_rect self) (character_speed gd)
          else Some (character_rect self));
  rect ← (if key_d i && (right rect <? width self)
          then move_x Py.add rect (character_speed gd)
          else Some rect);
  let self := set_character_rect rect self in
  gd ← update_difficulty gd;
  let gd := set_spawn_timer (spawn_timer gd + 1) gd in
  gd ← (if spawn_timer gd >=? current_spawn_rate gd
        then set_spawn_timer 0 <$> spawn_food self gd (draws i)
        else Some gd);
  for_each food_step (set_game_data (Some gd) self) (food_objects gd).

Definition update (self : Game) (i : Input) : option Game :=
  match current_state self, game_data self with
  | PLAYING, Some _ =>
      if negb (paused self) then
        self ← update_game_state self i;
        gd ← game_data self;
        if score gd >? high_score self
        then Some (save_high_score (write_ok i) (set_high_score (score gd) self))
        else Some self
      else Some self
  | _, _ => Some self
  end.

(** ** Rendering *)

(** The bodies of the two loops of [draw_enhanced_hud]. *)
Definition popup_step (game_data : GameData) (popup : obj Popup)
    : option GameData :=
  let popup :=
    Obj (oid popup)
      (mkPopup (popup_text (oval popup)) (popup_pos (oval popup))
         (popup_timer (oval popup) - 1) (popup_color (oval popup))) in
  let gd := set_score_popups (obj_write popup (score_popups game_data)) game_data in
  if popup_timer (oval popup) <=? 0
  then (λ l, set_score_popups l gd) <$> py_remove (oval popup) (score_popups gd)
  else Some gd.

Definition message_step (game_data : GameData) (msg : obj Message)
    : option GameData :=
  let msg :=
    Obj (oid msg)
      (mkMessage (msg_text (oval msg)) (msg_timer (oval msg) - 1)
         (msg_color (oval msg))) in
  let gd :=
    set_achievement_messages (obj_write msg (achievement_messages game_data))
      game_data in
  if msg_timer (oval msg) >? 0
  then Some gd
  else (λ l, set_achievement_messages l gd)
         <$> py_remove (oval msg) (achievement_messages gd).

Definition draw_enhanced_hud (game_data : GameData) : option GameData :=
  gd ← for_each popup_step game_data (score_popups game_data);
  for_each message_step gd (achievement_messages gd).

Definition show_game_over (self : Game) (game_data : GameData) (write_ok : bool)
    : Game :=
  if score game_data >? high_score self
  then save_high_score write_ok (set_high_score (score game_data) self)
  else self.

Definition render_game (self : Game) : option Game :=
  match game_data self with
  | Some gd => (λ gd', set_game_data (Some gd') self) <$> draw_enhanced_hud gd
  | None => Some self
  end.

Definition render_game_over (self : Game) (write_ok : bool) : Game :=
  match game_data self with
  | Some gd => show_game_over self gd write_ok
  | None => self
  end.

Definition render (self : Game) (write_ok : bool) : option Game :=
  match current_state self with
  | PLAYING | PAUSED => render_game self
  | GAME_OVER => Some (render_game_over self write_ok)
  | _ => Some self
  end.

(** ** Events and crash recovery *)

Inductive Key := K_ESCAPE | K_other.

(** [now] is the reading of [pygame.time.get_ticks()] that
    [pause_manager.toggle_pause()] takes; the state is assigned after
    the toggle has returned, so a toggle that raises leaves it as it
    was. *)
Definition handle_keydown (self : Game) (key : Key) (now : Z) : option Game :=
  match key, current_state self with
  | K_ESCAPE, PLAYING =>
      pm ← PauseManager.toggle_pause now (pause_manager self);
      Some (set_current_state PAUSED (set_pause_manager pm self))
  | K_ESCAPE, PAUSED =>
      pm ← PauseManager.toggle_pause now (pause_manager self);
      Some (set_current_state PLAYING (set_pause_manager pm self))
  | K_ESCAPE, (HOW_TO_PLAY | CREDITS) => Some (set_current_state LOBBY self)
  | _, _ => Some self
  end.

Definition get_lobby_buttons (self : Game) : Rect * Rect * Rect :=
  let button_width := 300 in
  let button_height := 60 in
  let button_x := width self / 2 - button_width / 2 in
  (mkRect button_x (height self / 2) button_width button_height,
   mkRect button_x (height self / 2 + 100) button_width button_height,
   mkRect button_x (height self / 2 + 200) button_width button_height).

Definition handle_mouse_click (self : Game) (mouse_pos : Z * Z) (now : Z) : Game :=
  match current_state self with
  | LOBBY =>
      let '(play_rect, how_to_play_rect, credits_rect) := get_lobby_buttons self in
      if collidepoint play_rect mouse_pos
      then set_game_data (Some (GameData_init now)) (set_current_state PLAYING self)
      else if collidepoint how_to_play_rect mouse_pos
      then set_current_state HOW_TO_PLAY self
      else if collidepoint credits_rect mouse_pos
      then set_current_state CREDITS self
      else self
  | HOW_TO_PLAY | CREDITS =>
      let back_rect := mkRect (width self / 2 - 100) (height self - 80) 200 50 in
      if collidepoint back_rect mouse_pos then set_current_state LOBBY self else self
  | GAME_OVER =>
      match game_data self with
      | Some _ =>
          let button_rect :=
            mkRect (width self / 2 - 100) (height self / 2 + 100) 200 60 in
          if collidepoint button_rect mouse_pos
          then set_current_state LOBBY self else self
      | None => self
      end
  | _ => self
  end.

(** When restarting the music raises, [handle_crash] goes on to
    [quit_game], a step of its own below. *)
Definition handle_crash (self : Game) : Game :=
  set_pause_manager (PauseManager.crash_reset (pause_manager self))
    (set_game_data None (set_current_state LOBBY self)).

(** ** Analytics *)

(** [d[k] += v]; a missing key raises [KeyError]. *)
Definition dict_add (k : string) (v : Z) (d : gmap string Z) : option (gmap string Z) :=
  x ← d !! k; Some (<[k := x + v]> d).

Definition save_analytics (write_ok : bool) (a : Analytics) : Analytics :=
  if write_ok then mkAnalytics (data a) (Some (data a)) else a.

Definition update_session (a : Analytics) (game_data : GameData) (write_ok : bool)
    : option Analytics :=
  d ← dict_add "games_played" 1 (data a);
  d ← dict_add "total_score" (score game_data) d;
  m ← d !! "max_score";
  let d := <["max_score" := Z.max m (score game_data)]> d in
  d ← dict_add "items_caught" (total_catches game_data) d;
  Some (save_analytics write_ok (mkAnalytics d (analytics_file a))).

Definition Analytics_data_init : gmap string Z :=
  {[ "games_played" := 0; "total_score" := 0; "max_score" := 0;
     "total_time" := 0; "items_caught" := 0 ]}.

(** [quit_game] (lines 229-235): the high score and the analytics are
    written whatever the state, each write swallowing its own
    [IOError]; [config.json] is rewritten too, with the configuration as
    it was loaded, and the process ends.  The state returned is the one
    the files were left in. *)
Definition quit_game (hs_write_ok an_write_ok : bool) (self : Game) : Game :=
  let self := save_high_score hs_write_ok self in
  set_analytics (save_analytics an_write_ok (analytics self)) self.

(** ** Configuration *)

#[local] Unset Elimination Schemes.
Inductive json :=
  | JNull
  | JBool (b : bool)
  | JInt (z : Z)
  | JFloat (f : Py.float)
  | JStr (s : string)
  | JList (l : list json)
  | JDict (kvs : list (string * json)).
#[local] Set Elimination Schemes.

(** What [config.json] is when [load_config] runs: absent, failing to
    open or to parse, or holding a JSON document. *)
Inductive ConfigFile := Missing | Unreadable | Contents (j : json).

(** A parsed JSON object as a Python dict: the last of several equal
    keys wins. *)
Definition dict_of (kvs : list (string * json)) : gmap string json :=
  list_to_map (reverse kvs).

Definition DEFAULT_CONFIG : gmap string json :=
  {[ "sound_volume" := JFloat (Py.dec 7 10);
     "music_volume" := JFloat (Py.dec 5 10);
     "screen_width" := JInt 1200;
     "screen_height" := JInt 800;
     "fps" := JInt 60;
     "analytics_enabled" := JBool true ]}.

(** [{**DEFAULT_CONFIG, **json.load(f)}] raises [TypeError] unless the
    document is an object; every exception ends in [DEFAULT_CONFIG]. *)
Definition load_config (f : ConfigFile) : gmap string json :=
  match f with
  | Contents (JDict kvs) => dict_of kvs ∪ DEFAULT_CONFIG
  | Contents _ => DEFAULT_CONFIG
  | Missing => DEFAULT_CONFIG
  | Unreadable => DEFAULT_CONFIG
  end.

(** ** The frame loop as a transition system *)

(** Steps that stay inside the current round. *)
Inductive round_step : Game → Game → Prop :=
  | rs_update g i g' : update g i = Some g' → round_step g g'
  | rs_render g w g' : render g w = Some g' → round_step g g'
  | rs_keydown g key now g' :
      handle_keydown g key now = Some g' → round_step g g'
  | rs_click g pos now :
      current_state g ≠ LOBBY → round_step g (handle_mouse_click g pos now).

(** All steps of [run]: round steps, a click in the lobby (which may
    start a new round), the recovery from an exception and the [QUIT]
    event.  When [update] raises, the player may already have been
    moved. *)
Inductive step : Game → Game → Prop :=
  | step_round g g' : round_step g g' → step g g'
  | step_lobby_click g pos now :
      current_state g = LOBBY → step g (handle_mouse_click g pos now)
  | step_update_crash g i r :
      update g i = None → step g (handle_crash (set_character_rect r g))
  | step_render_crash g w :
      render g w = None → step g (handle_crash g)
  | step_keydown_crash g key now :
      handle_keydown g key now = None → step g (handle_crash g)
  | step_quit g hs_write_ok an_write_ok :
      step g (quit_game hs_write_ok an_write_ok g).

Definition initial (g : Game) : Prop :=
  current_state g = LOBBY ∧ game_data g = None ∧ paused g = false.

Definition reachable (g : Game) : Prop := ∃ g0, initial g0 ∧ rtc step g0 g.

(** ** Definitions that follow the specification's wording *)

(** The level-derived parameters of a round. *)
Definition derived (gd : GameData) : Py.num * Z * Py.num * Py.num :=
  (difficulty_multiplier gd, current_spawn_rate gd,
   special_spawn_chance gd, character_speed gd).

(** Section 4.2: the parameters as functions of [level], with
    [baseSpawnRate = 45]. *)
Definition spec_level_params (level : Z) : option (Py.num * Z * Py.num * Py.num) :=
  dm ← Py.mul (Py.Int (level - 1)) (Py.Float (Py.dec 12 100))
        ≫= Py.add (Py.Float (Py.dec 10 10));
  sc ← Py.mul (Py.Int (level - 1)) (Py.Float (Py.dec 25 1000))
        ≫= Py.add (Py.Float (Py.dec 15 100));
  cs ← Py.mul (Py.Int (level - 1)) (Py.Float (Py.dec 6 10))
        ≫= Py.add (Py.Int 10);
  Some (dm, Z.max 15 (45 - (level - 1) * 4),
        Py.min (Py.Float (Py.dec 35 100)) sc, Py.min (Py.Int 16) cs).

(** Section 4.3: [comboMultiplier = min(4.0, 1 + comboCount*0.15)] and
    [points = floor(variant.points * comboMultiplier * scoreMultiplier)]. *)
Definition spec_combo_multiplier (comboCount : Z) : option Py.num :=
  x ← Py.mul (Py.Int comboCount) (Py.Float (Py.dec 15 100)) ≫= Py.add (Py.Int 1);
  Some (Py.min (Py.Float (Py.dec 40 10)) x).

Definition spec_points (t : FoodType) (comboCount : Z) (scoreMultiplier : Py.num)
    : option Z :=
  m ← spec_combo_multiplier comboCount;
  q ← Py.mul (Py.Int (points t)) m;
  r ← Py.mul q scoreMultiplier;
  f ← Py.to_float r;
  Py.floor f.

(** Section 3: a popup or banner is dropped when its countdown reaches
    zero; the queue after one countdown step. *)
Definition age_popup (p : obj Popup) : obj Popup :=
  Obj (oid p)
    (mkPopup (popup_text (oval p)) (popup_pos (oval p))
       (popup_timer (oval p) - 1) (popup_color (oval p))).

Definition age_message (m : obj Message) : obj Message :=
  Obj (oid m)
    (mkMessage (msg_text (oval m)) (msg_timer (oval m) - 1) (msg_color (oval m))).

Definition aged_popups (l : list (obj Popup)) : list (obj Popup) :=
  filter (λ p, 0 < popup_timer (oval p)) (age_popup <$> l).

Definition aged_messages (l : list (obj Message)) : list (obj Message) :=
  filter (λ m, 0 < msg_timer (oval m)) (age_message <$> l).

Definition aged (gd : GameData) : GameData :=
  set_achievement_messages (aged_messages (achievement_messages gd))
    (set_score_popups (aged_popups (score_popups gd)) gd).

(** ** Invariants of reachable states *)

(** Identities in a list are distinct and were handed out by the
    round's allocation counter. *)
Definition ids_ok {A} (n : nat) (l : list (obj A)) : Prop :=
  NoDup (oid <$> l) ∧ Forall (λ o, (oid o < n)%nat) l.

(** The derived parameters are those of [GameData()] at level 1 and those
    of the level formulas above it. *)
Definition level_ok (gd : GameData) : Prop :=
  (level gd = 1 ∧ derived gd = derived (GameData_init 0))
  ∨ (1 < level gd ∧ spec_level_params (level gd) = Some (derived gd)).

(** Every item dictionary holds the Surface that was created with it. *)
Definition imgs_ok (l : list (obj Food)) : Prop :=
  Forall (λ o, food_img (oval o) = oid o) l.

Record round_ok (gd : GameData) : Prop := mk_round_ok {
  ok_combo : 0 ≤ combo gd;
  ok_score_multiplier : score_multiplier gd = Py.Float (Py.dec 10 10);
  ok_base_spawn_rate : base_spawn_rate gd = 45;
  ok_max_missed : max_missed_food gd = 3;
  ok_level : level_ok gd;
  ok_food : ids_ok (allocated gd) (food_objects gd);
  ok_food_img : imgs_ok (food_objects gd);
  ok_popups : ids_ok (allocated gd) (score_popups gd);
  ok_messages : ids_ok (allocated gd) (achievement_messages gd)
}.

Definition active (g : Game) : Prop :=
  current_state g = PLAYING ∨ current_state g = PAUSED.

Definition game_ok (g : Game) : Prop :=
  match game_data g with
  | Some gd => round_ok gd ∧ (active g → missed_food gd < max_missed_food gd)
  | None => ¬ active g
  end.

(** The state of the miss counter against the round's terminal flag,
    kept by every iteration of the item loop. *)
Definition miss_state_ok (g : Game) : Prop :=
  match game_data g with
  | Some gd =>
      (current_state g = PLAYING ∧ missed_food gd < max_missed_food gd)
      ∨ (current_state g = GAME_OVER ∧ max_missed_food gd ≤ missed_food gd)
  | None => False
  end.

(** ** Floating-point magnitudes *)

(** The result of rounding: finite when the exponent fits, else an
    infinity. *)
Definition rounded (s : bool) (m : positive) (e : Z) : Py.float :=
  if e <=? 971 then S754_finite s m e else S754_infinity s.

(** [above_pow2 k f]: [f] is [+inf] or a normalised positive double
    whose value is at least [2 ^ k]. *)
Definition above_pow2 (k : Z) (f : Py.float) : Prop :=
  f = S754_infinity false
  ∨ ∃ m e, f = S754_finite false m e ∧ Zpos (digits2_pos m) = 53 ∧ k < 53 + e.

(** Lines 389-391 of [handle_collision]: the points of a catch that
    brings the combo to [c]. *)
Definition catch_points (t : FoodType) (c : Z) (sm : Py.num) : option Z :=
  x ← Py.mul (Py.Int c) (Py.Float (Py.dec 15 100)) ≫= Py.add (Py.Int 1);
  q ← Py.mul (Py.Int (points t)) (Py.min (Py.Int 4) x);
  r ← Py.mul q sm;
  Py.int r.

(** Agreement of the code's points with the specification's, checked by
    evaluation for the combos below the saturation of the multiplier. *)
Definition points_agree (c : Z) (t : FoodType) : bool :=
  match catch_points t c (Py.Float (Py.dec 10 10)),
        spec_points t c (Py.Float (Py.dec 10 10)) with
  | Some p, Some q => (p =? q) && (0 <=? p)
  | _, _ => false
  end.

Definition small_combos_agree : bool :=
  forallb (λ c, forallb (points_agree c) [APPLE; BANANA; SPECIAL]) (seqZ 1 63).

(** ** Result states, named for the proofs *)

(** The state [handle_collision] leaves when the catch is worth [p]
    points and [objs] is the item list without the caught item. *)
Definition caught (game_data : GameData) (food : obj Food) (p : Z)
    (objs : list (obj Food)) : GameData :=
  let gd := set_combo (combo game_data + 1) game_data in
  let gd := set_max_combo (Z.max (max_combo gd) (combo gd)) gd in
  let gd := set_score (score gd + p) gd in
  let gd := set_total_catches (total_catches gd + 1) gd in
  let popup := Obj (allocated gd)
                 (mkPopup ("+" +:+ pretty p)
                    (centerx (food_rect (oval food)), centery (food_rect (oval food)))
                    60 (food_color (food_type (oval food)))) in
  let gd := set_allocated (S (allocated gd))
              (set_score_popups (score_popups gd ++ [popup]) gd) in
  let gd :=
    if combo gd =? 10 then
      let msg := Obj (allocated gd) (mkMessage "Super Combo!" 120 (255, 165, 0)) in
      set_allocated (S (allocated gd))
        (set_achievement_messages (achievement_messages gd ++ [msg]) gd)
    else gd in
  set_food_objects objs gd.

(** The state [update_difficulty] leaves after a level-up that computed
    the parameters [dm], [sc] and [cs]. *)
Definition leveled_up (game_data : GameData) (dm sc cs : Py.num) : GameData :=
  let gd := set_level_timer 0 (set_level (level game_data + 1) game_data) in
  let gd := set_difficulty_multiplier dm gd in
  let gd := set_current_spawn_rate
              (Z.max 15 (base_spawn_rate gd - (level gd - 1) * 4)) gd in
  let gd := set_special_spawn_chance (Py.min (Py.Float (Py.dec 35 100)) sc) gd in
  let gd := set_character_speed (Py.min (Py.Int 16) cs) gd in
  let msg := Obj (allocated gd)
               (mkMessage ("Level Up! " +:+ pretty (level gd)) 120 (255, 215, 0)) in
  set_allocated (S (allocated gd))
    (set_achievement_messages (achievement_messages gd ++ [msg]) gd).

(** The item as it is after [food['rect'].y += food['speed']]. *)
Definition moved (food : obj Food) (rect : Rect) : obj Food :=
  Obj (oid food)
    (mkFood (food_img (oval food)) rect (food_type (oval food))
       (food_speed (oval food))).

(** The state the miss branch leaves, before the end-of-round test. *)
Definition missed (game_data : GameData) (objs : list (obj Food)) : GameData :=
  set_combo 0
    (set_missed_food (missed_food game_data + 1) (set_food_objects objs game_data)).

(** The round after the in-place move of [food] was written. *)
Definition with_moved (game_data : GameData) (food : obj Food) : GameData :=
  set_food_objects (obj_write food (food_objects game_data)) game_data.

(** ** Relations between the states of one round *)

(** What never decreases during a round: the score and the catch
    statistics grow, the feedback queues are only appended to. *)
Definition round_le (a b : GameData) : Prop :=
  score a ≤ score b
  ∧ max_combo a ≤ max_combo b
  ∧ total_catches a ≤ total_catches b
  ∧ score_popups a `prefix_of` score_popups b
  ∧ achievement_messages a `prefix_of` achievement_messages b.

(** The part of the game object outside the round and the player. *)
Definition same_frame (g g' : Game) : Prop :=
  width g' = width g ∧ height g' = height g ∧ high_score g' = high_score g
  ∧ pause_manager g' = pause_manager g ∧ analytics g' = analytics g
  ∧ high_score_file g' = high_score_file g.

(** One iteration of the item loop, seen from outside. *)
Definition loop_rel (g g' : Game) : Prop :=
  same_frame g g'
  ∧ character_rect g' = character_rect g
  ∧ ∀ gd, game_data g = Some gd → round_ok gd →
      ∃ gd', game_data g' = Some gd' ∧ round_ok gd' ∧ round_le gd gd'
             ∧ level gd' = level gd ∧ derived gd' = derived gd
             ∧ max_missed_food gd' = max_missed_food gd.

(** ** Example states *)

Definition example_draws : SpawnDraws :=
  mkSpawnDraws (Py.dec 5 10) APPLE Loaded 500 (Py.dec 5 10) 200 (-50) (λ _, 50).

Definition example_input : Input := mkInput false false example_draws true.

Definition example_item (i : nat) (x y : Z) (t : FoodType) : obj Food :=
  Obj i (mkFood i (mkRect x y (size t).1 (size t).2) t (Py.Float (speed t))).

(** The game as [Game()] leaves it with the default configuration: the
    lobby, no round, the player centred at [(600, 630)]. *)
Definition lobby_game : Game :=
  mkGame 1200 800 0 LOBBY None (mkRect 555 555 90 150) PauseManager.init
    (mkAnalytics Analytics_data_init None) None.

(** A click on "Play Game" at time [0]. *)
Definition started_game : Game := handle_mouse_click lobby_game (600, 420) 0.

(** A game in the middle of the round [gd]. *)
Definition playing_game (gd : GameData) : Game :=
  mkGame 1200 800 0 PLAYING (Some gd) (mkRect 555 555 90 150) PauseManager.init
    (mkAnalytics Analytics_data_init None) None.

(** A round with a combo of nine and a Rare item on the player. *)
Definition combo_nine_round : GameData :=
  set_combo 9
    (set_food_objects [example_item 0 560 600 SPECIAL]
       (set_allocated 1 (GameData_init 0))).

(** A fresh round with a Common item on the player. *)
Definition first_catch_round : GameData :=
  set_food_objects [example_item 0 560 600 APPLE]
    (set_allocated 1 (GameData_init 0)).

(** A round one tick before its first level-up. *)
Definition level_up_round : GameData := set_level_timer 499 (GameData_init 0).

(** Agreement of two rounds on every field but the two feedback
    queues. *)
Definition same_but_queues (a b : GameData) : Prop :=
  score b = score a ∧ missed_food b = missed_food a
  ∧ max_missed_food b = max_missed_food a ∧ level b = level a
  ∧ combo b = combo a ∧ max_combo b = max_combo a
  ∧ food_objects b = food_objects a ∧ game_over b = game_over a
  ∧ character_speed b = character_speed a
  ∧ base_spawn_rate b = base_spawn_rate a
  ∧ current_spawn_rate b = current_spawn_rate a
  ∧ difficulty_multiplier b = difficulty_multiplier a
  ∧ score_multiplier b = score_multiplier a
  ∧ spawn_timer b = spawn_timer a ∧ level_timer b = level_timer a
  ∧ special_spawn_chance b = special_spawn_chance a
  ∧ powerup_active b = powerup_active a ∧ powerup_timer b = powerup_timer a
  ∧ total_catches b = total_catches a ∧ perfect_catches b = perfect_catches a
  ∧ start_time b = start_time a ∧ allocated b = allocated a.

(** A round showing one fresh score popup and one banner in its last
    frame. *)
Definition feedback_round : GameData :=
  set_score_popups [Obj 0 (mkPopup "+1" (590, 630) 60 (255, 0, 0))]
    (set_achievement_messages [Obj 1 (mkMessage "Level Up! 2" 1 (255, 215, 0))]
       (set_allocated 2 (GameData_init 0))).

(** A round with two misses and two items below the bottom of the
    field. *)
Definition fallen_item (i : nat) : obj Food := example_item i 100 900 APPLE.

Definition last_miss_round : GameData :=
  set_missed_food 2
    (set_food_objects [fallen_item 0; fallen_item 1]
       (set_allocated 2 (GameData_init 0))).

Definition last_miss_game : Game := playing_game last_miss_round.

(** Two finished rounds, with scores 10 and 25 and catches 5 and 8. *)
Definition finished_round (score catches : Z) : GameData :=
  set_game_over true
    (set_total_catches catches (set_score score (GameData_init 0))).

(** A game over screen with a final score above the stored high score. *)
Definition record_game : Game :=
  set_current_state GAME_OVER (playing_game (finished_round 25 8)).

(** ** The item loop as a whole *)

(** What the loop body does with an item whose rectangle, after the
    move, is [rect]: the two tests of lines 352 and 354, in their order. *)
Inductive Fate := Caught | Missed | Falling.

Global Instance Fate_eq_dec : EqDecision Fate.
Proof. solve_decision. Defined.

Definition fate (player : Rect) (height : Z) (rect : Rect) : Fate :=
  if colliderect rect player then Caught
  else if top rect >? height then Missed
  else Falling.

Definition item_fate (player : Rect) (height : Z) (food : obj Food) : option Fate :=
  fate player height <$> move_y (food_rect (oval food)) (food_speed (oval food)).

(** The item as the loop leaves it in the list, if it does. *)
Definition survivor (player : Rect) (height : Z) (food : obj Food)
    : option (obj Food) :=
  rect ← move_y (food_rect (oval food)) (food_speed (oval food));
  if decide (fate player height rect = Falling) then Some (moved food rect) else None.

Definition survivors (player : Rect) (height : Z) (l : list (obj Food))
    : list (obj Food) :=
  omap (survivor player height) l.

Definition count_fate (k : Fate) (player : Rect) (height : Z) (l : list (obj Food))
    : Z :=
  Z.of_nat (length (filter (λ f, item_fate player height f = Some k) l)).

(** ** Bounds on the points of a catch and on the level parameters *)

(** The points of a catch that brings the combo to [c] against the
    item's base points, checked by evaluation below the saturation of
    the multiplier: between one and four times the base points, and four
    times from combo 20 on. *)
Definition points_bounded (c : Z) (t : FoodType) : bool :=
  match catch_points t c (Py.Float (Py.dec 10 10)) with
  | Some p =>
      (points t <=? p) && (p <=? 4 * points t)
      && ((c <? 20) || (p =? 4 * points t))
  | None => false
  end.

(** One more catch in the combo never pays less. *)
Definition points_rising (c : Z) (t : FoodType) : bool :=
  match catch_points t c (Py.Float (Py.dec 10 10)),
        catch_points t (c + 1) (Py.Float (Py.dec 10 10)) with
  | Some p, Some q => p <=? q
  | _, _ => false
  end.

(** Lines 369-375 of [update_difficulty] for [level - 1 = n]: the
    multiplier, the chance of a Rare item and the player speed. *)
Definition level_floats (n : Z) : option (Py.num * Py.num * Py.num) :=
  dm ← Py.mul (Py.Int n) (Py.Float (Py.dec 12 100))
        ≫= Py.add (Py.Float (Py.dec 10 10));
  sc ← Py.mul (Py.Int n) (Py.Float (Py.dec 25 1000))
        ≫= Py.add (Py.Float (Py.dec 15 100));
  cs ← Py.mul (Py.Int n) (Py.Float (Py.dec 6 10)) ≫= Py.add (Py.Int 10);
  Some (dm, Py.min (Py.Float (Py.dec 35 100)) sc, Py.min (Py.Int 16) cs).

(** Python's [a <= b] and [a >= b] on numbers; both are false when an
    operand is NaN. *)
Definition py_le (a b : Py.num) : bool :=
  match Py.compare a b with
  | Some Lt | Some Eq => true
  | _ => false
  end.

Definition py_ge (a b : Py.num) : bool :=
  match Py.compare a b with
  | Some Gt | Some Eq => true
  | _ => false
  end.

(** The bounds of the three parameters, and where the two caps are
    reached: the chance at [n = 8], the speed at [n = 10]. *)
Definition level_floats_bounded (n : Z) : bool :=
  match level_floats n with
  | Some (dm, sc, cs) =>
      py_ge dm (Py.Float (Py.dec 10 10))
      && py_ge sc (Py.Float (Py.dec 15 100))
      && py_le sc (Py.Float (Py.dec 35 100))
      && py_ge cs (Py.Int 10)
      && py_le cs (Py.Int 16)
      && ((n <? 8) || bool_decide (sc = Py.Float (Py.dec 35 100)))
      && ((n <? 10) || bool_decide (cs = Py.Int 16))
  | None => false
  end.

(** ** Counters, timers and flags of reachable states *)

(** How the counters of a round stand to each other, where its two
    timers are between ticks, and what the terminal flag records. *)
Record counters_ok (gd : GameData) : Prop := mk_counters_ok {
  ok_combo_max : combo gd ≤ max_combo gd;
  ok_max_catches : max_combo gd ≤ total_catches gd;
  ok_catches_score : total_catches gd ≤ score gd;
  ok_missed : 0 ≤ missed_food gd;
  ok_level_timer : 0 ≤ level_timer gd < 500;
  ok_spawn_timer : 0 ≤ spawn_timer gd < current_spawn_rate gd;
  ok_game_over : game_over gd = true ↔ max_missed_food gd ≤ missed_food gd
}.

(** The pause flag follows the state, and the game over screen always
    has a finished round to show. *)
Definition session_ok (g : Game) : Prop :=
  (paused g = true ↔ current_state g = PAUSED)
  ∧ match game_data g with
    | Some gd =>
        counters_ok gd
        ∧ (current_state g = GAME_OVER → max_missed_food gd ≤ missed_food gd)
    | None => current_state g ≠ GAME_OVER
    end.

(** What the item loop keeps from one iteration to the next. *)
Definition loop_inv (g : Game) : Prop :=
  ∃ gd, game_data g = Some gd ∧ round_ok gd ∧ counters_ok gd.

(** A round with one item a pixel above the player, one at the bottom
    edge of the field and one still falling. *)
Definition mixed_round : GameData :=
  set_food_objects
    [example_item 0 560 495 APPLE; example_item 1 100 800 APPLE;
     example_item 2 300 100 BANANA]
    (set_allocated 3 (GameData_init 0)).

(** ** The feedback queues over several frames *)

(** [k] drawing passes in a row, as [k] frames of a paused round make
    them. *)
Fixpoint draw_times (k : nat) (game_data : GameData) : option GameData :=
  match k with
  | O => Some game_data
  | S k => gd ← draw_enhanced_hud game_data; draw_times k gd
  end.

(** A popup and a banner with [k] taken off their countdown. *)
Definition popup_after (k : Z) (p : obj Popup) : obj Popup :=
  Obj (oid p)
    (mkPopup (popup_text (oval p)) (popup_pos (oval p))
       (popup_timer (oval p) - k) (popup_color (oval p))).

Definition message_after (k : Z) (m : obj Message) : obj Message :=
  Obj (oid m)
    (mkMessage (msg_text (oval m)) (msg_timer (oval m) - k) (msg_color (oval m))).

Definition popups_after (k : Z) (l : list (obj Popup)) : list (obj Popup) :=
  popup_after k <$> filter (λ p, k < popup_timer (oval p)) l.

Definition messages_after (k : Z) (l : list (obj Message)) : list (obj Message) :=
  message_after k <$> filter (λ m, k < msg_timer (oval m)) l.

(** ** Analytics across sessions *)

(** [load_analytics]: the stored aggregate replaces the initial one as
    it is, without a merge with the initial keys; a file that cannot be
    read or parsed ([read_ok = false]) leaves the initial aggregate.  Of
    the possible contents of [analytics.json] only objects of integers,
    as [save_analytics] writes them, are modelled. *)
Definition load_analytics (read_ok : bool) (a : Analytics) : Analytics :=
  match analytics_file a with
  | Some d => if read_ok then mkAnalytics d (analytics_file a) else a
  | None => a
  end.

(** [Analytics()] *)
Definition Analytics_init (file : option (gmap string Z)) (read_ok : bool)
    : Analytics :=
  load_analytics read_ok (mkAnalytics Analytics_data_init file).

(** The keys [update_session] reads. *)
Definition session_keys : list string :=
  ["games_played"; "total_score"; "max_score"; "items_caught"].

(** ** Runs of several ticks *)

(** [n] ticks in a row, numbered from [k]; tick [j] reads [inputs j]. *)
Fixpoint run_ticks (inputs : nat → Input) (k n : nat) (g : Game) : option Game :=
  match n with
  | O => Some g
  | S n => g' ← update g (inputs k); run_ticks inputs (S k) n g'
  end.

End Simulation.

(** The closed examples are evaluated with [half_even]. *)
#[global] Existing Instance half_even.

(** ** A round in which two items pass the bottom in one tick

    The player stands still in the middle of the 1200-wide field.  Every
    spawn draws x = 700 from [randint(400, 800)], takes no offset and is
    nudged to the right past the items above it.  The spawns of ticks 45,
    90 and 577 roll a Rare item at y = -40, the spawn of tick 135 a
    Common item at y = -62, every other spawn a Common item at
    y = -40. *)
Definition miss_run_draws (k : nat) : SpawnDraws :=
  if bool_decide (k = 45 ∨ k = 90 ∨ k = 577)%nat
  then mkSpawnDraws (Py.dec 1 10) SPECIAL Loaded 700 (Py.dec 5 10) 200 (-40)
         (λ _, 50)
  else mkSpawnDraws (Py.dec 5 10) APPLE Loaded 700 (Py.dec 5 10) 200
         (if bool_decide (k = 135)%nat then -62 else -40) (λ _, 50).

Definition miss_run_input (k : nat) : Input :=
  mkInput false false (miss_run_draws k) true.

(** The game after 996 ticks of that round: the Rare items of ticks 45
    and 90 were missed in ticks 465 and 510, and the Common item of tick
    135 and the Rare item of tick 577 both stand at y = 800. *)
Definition double_miss_game : Game :=
  Eval vm_compute in
    default lobby_game (run_ticks miss_run_input 1 996 started_game).

Definition double_miss_round : GameData :=
  default (GameData_init 0) (game_data double_miss_game).

(** Tick 997 after its timers, before the loop over the items. *)
Definition double_miss_round_0 : GameData :=
  set_spawn_timer (spawn_timer double_miss_round + 1)
    (set_level_timer (level_timer double_miss_round + 1) double_miss_round).

Definition double_miss_game_0 : Game :=
  set_game_data (Some double_miss_round_0) double_miss_game.

(** The first item of the loop and the items after it. *)
Definition double_miss_first : obj Food :=
  default (example_item 0 0 0 APPLE) (head (food_objects double_miss_round_0)).

Definition double_miss_rest : list (obj Food) :=
  tail (food_objects double_miss_round_0).

(** Tick 997 after the first item, and after the whole loop. *)
Definition double_miss_game_1 : Game :=
  Eval vm_compute in
    default lobby_game (food_step double_miss_game_0 double_miss_first).

Definition double_miss_game_2 : Game :=
  Eval vm_compute in
    default lobby_game (update double_miss_game (miss_run_input 997)).

(** The counters of a game's round, and the positions of its items. *)
Definition miss_counters (g : Game) : option (Z * Z * nat) :=
  (λ gd, (missed_food gd, max_missed_food gd, length (food_objects gd)))
    <$> game_data g.

Definition item_places (g : Game) : option (list (FoodType * Z * Z)) :=
  (λ gd,
     (λ f, (food_type (oval f), rect_x (food_rect (oval f)),
            rect_y (food_rect (oval f)))) <$> food_objects gd)
    <$> game_data g.

(** ** A spawn with its image file missing

    The round of [started_game] after 44 ticks, one tick before its
    first spawn, and a frame in which the image of the item picked is
    not found. *)
Definition spawn_due_game : Game :=
  Eval vm_compute in
    default lobby_game (run_ticks (λ _, example_input) 1 44 started_game).

Definition missing_image_draws : SpawnDraws :=
  mkSpawnDraws (Py.dec 5 10) APPLE OtherError 500 (Py.dec 5 10) 200 (-50)
    (λ _, 50).

Definition missing_image_input : Input :=
  mkInput false false missing_image_draws true.

(** ** The resource cache ([resourcemanager.py]) *)

Module ResourceManager.

(** A Surface: an image file scaled to a size, or a filled rectangle. *)
Inductive Surface :=
  | ImageSurface (name : string) (size : Z * Z)
  | FilledSurface (size : Z * Z) (fill : color).

(** A Sound object, by the name of its file. *)
Inductive Sound := SoundOf (name : string).

(** What is on disk: the native size of each readable image, and the
    set of readable sounds. *)
Record Disk := mkDisk {
  image_size : string → option (Z * Z);
  sound_ok : string → bool
}.

Record t := mk {
  images : gmap string Surface;
  sounds : gmap string Sound
}.

(** [ResourceManager()] *)
Definition init : t := mk ∅ ∅.

(** [pygame.transform.scale] and [pygame.Surface] raise on a negative
    width or height. *)
Definition size_ok (size : Z * Z) : bool := (0 <=? size.1) && (0 <=? size.2).

(** The [try] block of [load_image], run on a cache miss: [None] when
    [pygame.image.load] or [pygame.transform.scale] raises. *)
Definition read_image (disk : Disk) (name : string) (size : option (Z * Z))
    : option Surface :=
  native ← image_size disk name;
  match size with
  | Some s => if size_ok s then Some (ImageSurface name s) else None
  | None => Some (ImageSurface name native)
  end.

(** [load_image]: the surface returned and the manager after the call;
    [None] when the [except] block itself raises. *)
Definition load_image (disk : Disk) (name : string) (size : option (Z * Z))
    (self : t) : option (Surface * t) :=
  match images self !! name with
  | Some image => Some (image, self)
  | None =>
      match read_image disk name size with
      | Some image => Some (image, mk (<[name := image]> (images self)) (sounds self))
      | None =>
          let s := default (50, 50) size in
          if size_ok s then Some (FilledSurface s (200, 200, 200), self) else None
      end
  end.

(** [load_sound]: the sound returned ([None] on failure) and the
    manager after the call. *)
Definition load_sound (disk : Disk) (name : string) (self : t)
    : option Sound * t :=
  match sounds self !! name with
  | Some sound => (Some sound, self)
  | None =>
      if sound_ok disk name
      then (Some (SoundOf name),
            mk (images self) (<[name := SoundOf name]> (sounds self)))
      else (None, self)
  end.

(** A disk with one image, 64 pixels square, and no sound. *)
Definition example_disk : Disk :=
  mkDisk (λ name, if decide (name = "apple") then Some (64, 64) else None)
    (λ _, false).

End ResourceManager.

(** * Verification *)

#[global] Arguments Py.int_to_float : simpl never.
#[global] Arguments Py.float_of_Z : simpl never.
#[global] Arguments Py.dec : simpl never.
#[global] Arguments Py.fadd : simpl never.
#[global] Arguments Py.fsub : simpl never.
#[global] Arguments Py.fmul : simpl never.
#[global] Arguments Py.trunc : simpl never.
#[global] Arguments Py.nearest : simpl never.
#[global] Arguments Py.min : simpl never.

(** ** Rounding to binary64

    Lower bounds on the results of the operations of [SpecFloat], enough
    to show that [1 + combo * 0.15] is at least [4] from some combo on. *)

Section Rounding.

Lemma digits2_pos_size p : digits2_pos p = Pos.size p.
Proof. induction p; simpl; congruence. Qed.

Lemma digits2_bounds p :
  2 ^ (Zpos (digits2_pos p) - 1) ≤ Zpos p < 2 ^ Zpos (digits2_pos p).
Proof.
  rewrite digits2_pos_size. split.
  - pose proof (Pos.size_le p) as H.
    assert (Hz : Zpos (2 ^ Pos.size p) ≤ Zpos p~0) by exact H.
    rewrite Pos2Z.inj_pow in Hz.
    replace (Zpos (Pos.size p)) with (Zpos (Pos.size p) - 1 + 1) in Hz by lia.
    rewrite Z.pow_add_r in Hz by lia. lia.
  - pose proof (Pos.size_gt p) as H.
    assert (Hz : Zpos p < Zpos (2 ^ Pos.size p)) by exact H.
    by rewrite Pos2Z.inj_pow in Hz.
Qed.

Lemma digits2_unique p k :
  2 ^ (k - 1) ≤ Zpos p < 2 ^ k → Zpos (digits2_pos p) = k.
Proof.
  intros [Hlo Hhi]. pose proof (digits2_bounds p) as [Hl Hh].
  assert (0 < k).
  { destruct (decide (0 < k)); [done|].
    assert (2 ^ k ≤ 1); [|lia].
    destruct (decide (k = 0)) as [->|]; [done|].
    rewrite Z.pow_neg_r; lia. }
  assert (k - 1 < Zpos (digits2_pos p)).
  { apply (Z.pow_lt_mono_r_iff 2); lia. }
  assert (Zpos (digits2_pos p) - 1 < k).
  { apply (Z.pow_lt_mono_r_iff 2); lia. }
  lia.
Qed.

Lemma digits2_lower p k : 2 ^ (k - 1) ≤ Zpos p → k ≤ Zpos (digits2_pos p).
Proof.
  intros Hlo. pose proof (digits2_bounds p) as [_ Hh].
  destruct (decide (k ≤ 0)); [lia|].
  assert (k - 1 < Zpos (digits2_pos p)); [|lia].
  apply (Z.pow_lt_mono_r_iff 2); lia.
Qed.

Lemma digits2_mul m1 m2 :
  Zpos (digits2_pos m1) + Zpos (digits2_pos m2) - 1 ≤ Zpos (digits2_pos (m1 * m2)).
Proof.
  apply digits2_lower.
  pose proof (digits2_bounds m1) as [H1 _]. pose proof (digits2_bounds m2) as [H2 _].
  replace (Zpos (digits2_pos m1) + Zpos (digits2_pos m2) - 1 - 1)
    with ((Zpos (digits2_pos m1) - 1) + (Zpos (digits2_pos m2) - 1)) by lia.
  rewrite Z.pow_add_r, Pos2Z.inj_mul by lia.
  apply Z.mul_le_mono_nonneg; try done; apply Z.pow_nonneg; lia.
Qed.

Lemma iter_xO_value m k : Zpos (Pos.iter xO m k) = Zpos m * 2 ^ Zpos k.
Proof.
  induction k as [|k IH] using Pos.peano_ind.
  - cbn. lia.
  - rewrite Pos.iter_succ, Pos2Z.inj_xO, IH, Pos2Z.inj_succ, Z.pow_succ_r by lia.
    lia.
Qed.

Lemma digits2_iter_xO m k :
  Zpos (digits2_pos (Pos.iter xO m k)) = Zpos (digits2_pos m) + Zpos k.
Proof.
  apply digits2_unique. rewrite iter_xO_value.
  pose proof (digits2_bounds m) as [Hlo Hhi].
  replace (Zpos (digits2_pos m) + Zpos k - 1)
    with (Zpos (digits2_pos m) - 1 + Zpos k) by lia.
  rewrite !Z.pow_add_r by lia. nia.
Qed.

Lemma shr_1_m mrs : 0 ≤ shr_m mrs → shr_m (shr_1 mrs) = shr_m mrs / 2.
Proof.
  destruct mrs as [m r s]; cbn [shr_m]. intros Hm.
  destruct m as [|[p|p|]|]; cbn [shr_1 shr_m]; try lia; try done.
  - apply Z.div_unique with 1; lia.
  - apply Z.div_unique with 0; lia.
Qed.

Lemma pow2_xI p : 2 ^ Zpos p~1 = 2 * (2 ^ Zpos p * 2 ^ Zpos p).
Proof.
  replace (Zpos p~1) with (1 + Zpos p + Zpos p) by lia.
  rewrite !Z.pow_add_r by lia. lia.
Qed.

Lemma pow2_xO p : 2 ^ Zpos p~0 = 2 ^ Zpos p * 2 ^ Zpos p.
Proof.
  replace (Zpos p~0) with (Zpos p + Zpos p) by lia.
  by rewrite Z.pow_add_r by lia.
Qed.

(** Shifting right by [p] bits divides the mantissa by [2 ^ p]. *)
Lemma shr_iter_m p : ∀ mrs,
  0 ≤ shr_m mrs → shr_m (SpecFloat.iter_pos shr_1 p mrs) = shr_m mrs / 2 ^ Zpos p.
Proof.
  induction p as [p IH|p IH|]; intros mrs Hm.
  - assert (H1 : 0 ≤ shr_m (shr_1 mrs)).
    { rewrite shr_1_m by done. apply Z.div_pos; lia. }
    assert (H2 : 0 ≤ shr_m (SpecFloat.iter_pos shr_1 p (shr_1 mrs))).
    { rewrite IH by done. apply Z.div_pos; lia. }
    cbn [SpecFloat.iter_pos]. rewrite IH, IH, shr_1_m by done.
    rewrite !Z.div_div by lia. by rewrite pow2_xI.
  - assert (H2 : 0 ≤ shr_m (SpecFloat.iter_pos shr_1 p mrs)).
    { rewrite IH by done. apply Z.div_pos; lia. }
    cbn [SpecFloat.iter_pos]. rewrite IH, IH by done.
    rewrite !Z.div_div by lia. by rewrite pow2_xO.
  - cbn [SpecFloat.iter_pos]. by rewrite shr_1_m.
Qed.

Lemma fexp_normal k : -1074 ≤ k - 53 → fexp 53 1024 k = k - 53.
Proof. unfold fexp, emin. lia. Qed.

Lemma shr_fexp_canonical m e :
  Zpos (digits2_pos m) = 53 → -1074 ≤ e →
  shr_fexp 53 1024 (Zpos m) e loc_Exact
  = ({| shr_m := Zpos m; shr_r := false; shr_s := false |}, e).
Proof.
  intros Hd He. unfold shr_fexp. cbn [Zdigits2]. rewrite Hd.
  rewrite fexp_normal by lia.
  by replace (53 + e - 53 - e) with 0 by lia.
Qed.

(** Rounding a mantissa of at least 53 bits in the normal range: the
    result is normalised and its binary magnitude does not decrease. *)
Lemma binary_round_aux_normal s m e :
  let d := Zpos (digits2_pos m) in
  53 ≤ d → -1074 ≤ d + e - 53 →
  ∃ m' e', binary_round_aux 53 1024 s (Zpos m) e loc_Exact = rounded s m' e'
    ∧ Zpos (digits2_pos m') = 53 ∧ d + e ≤ 53 + e' ≤ d + e + 1.
Proof.
  intros d Hd Hmag. pose proof (digits2_bounds m) as [Hlo Hhi].
  fold d in Hlo, Hhi. unfold binary_round_aux.
  destruct (decide (d = 53)) as [Heq|Hne].
  - rewrite shr_fexp_canonical by lia.
    cbn [shr_m loc_of_shr_record round_nearest_even].
    rewrite shr_fexp_canonical by lia. cbn [shr_m].
    exists m, e. unfold rounded. split; [done|]. fold d. lia.
  - unfold shr_fexp at 1. cbn [Zdigits2]. fold d. rewrite fexp_normal by done.
    destruct (d + e - 53 - e) as [|p|p] eqn:Hn; try lia.
    cbn [shr shr_record_of_loc].
    set (mrs := SpecFloat.iter_pos shr_1 p _).
    assert (Hm1 : shr_m mrs = Zpos m / 2 ^ Zpos p).
    { unfold mrs. by rewrite shr_iter_m. }
    assert (Hb : 2 ^ 52 ≤ shr_m mrs < 2 ^ 53).
    { rewrite Hm1. replace d with (Zpos p + 53) in Hlo, Hhi by lia.
      replace (Z.pos p + 53 - 1) with (52 + Zpos p) in Hlo by lia.
      rewrite Z.pow_add_r in Hlo, Hhi by lia. split.
      - apply Z.div_le_lower_bound; lia.
      - apply Z.div_lt_upper_bound; lia. }
    set (r := round_nearest_even _ _).
    assert (Hr : r = shr_m mrs ∨ r = shr_m mrs + 1).
    { unfold r, round_nearest_even.
      destruct (loc_of_shr_record mrs) as [|[]]; auto.
      destruct (Z.even _); auto. }
    destruct (decide (r < 2 ^ 53)) as [Hlt|Hge].
    + destruct r as [|q|q] eqn:Er; try lia.
      assert (Hq : Zpos (digits2_pos q) = 53) by (apply digits2_unique; lia).
      rewrite shr_fexp_canonical by lia. cbn [shr_m].
      exists q, (e + Zpos p). unfold rounded. split; [done|]. lia.
    + assert (Er : r = 2 ^ 53) by lia. rewrite Er.
      exists (2 ^ 52)%positive, (e + Zpos p + 1). split; [|split; [done|lia]].
      unfold shr_fexp. replace (Zdigits2 (2 ^ 53)) with 54 by done.
      rewrite fexp_normal by lia.
      by replace (54 + (e + Z.pos p) - 53 - (e + Z.pos p)) with 1 by lia.
Qed.

Lemma binary_round_normal s m e :
  let d := Zpos (digits2_pos m) in
  -1074 ≤ d + e - 53 →
  ∃ m' e', binary_round 53 1024 s m e = rounded s m' e'
    ∧ Zpos (digits2_pos m') = 53 ∧ d + e ≤ 53 + e' ≤ d + e + 1.
Proof.
  intros d Hmag. unfold binary_round. fold d. rewrite fexp_normal by done.
  unfold shl_align. destruct (d + e - 53 - e) as [|p|p] eqn:Hn.
  - apply binary_round_aux_normal; fold d; lia.
  - apply binary_round_aux_normal; fold d; lia.
  - pose proof (digits2_iter_xO m p) as Hd. fold d in Hd.
    destruct (binary_round_aux_normal s (Pos.iter xO m p) (d + e - 53))
      as (m' & e' & Heq & Hd' & He'); [lia..|].
    exists m', e'. rewrite Heq. split; [done|]. split; [done|]. lia.
Qed.

Lemma rounded_above k m e :
  Zpos (digits2_pos m) = 53 → k < 53 + e → above_pow2 k (rounded false m e).
Proof.
  intros Hd Hk. unfold rounded. destruct (e <=? 971); [right|left]; eauto.
Qed.

Lemma float_of_Z_above k c : 0 ≤ k → 2 ^ k ≤ c → above_pow2 k (Py.float_of_Z c).
Proof.
  intros Hk Hc. assert (0 < 2 ^ k) by (apply Z.pow_pos_nonneg; lia).
  destruct c as [|p|p]; try lia. unfold Py.float_of_Z, binary_normalize.
  assert (Hd : k + 1 ≤ Zpos (digits2_pos p)).
  { apply digits2_lower. by replace (k + 1 - 1) with k by lia. }
  destruct (binary_round_normal false p 0) as (m' & e' & -> & Hd' & He'); [lia|].
  apply rounded_above; [done|lia].
Qed.

Lemma fmul_above k x my ey :
  above_pow2 k x → 53 ≤ Zpos (digits2_pos my) →
  -1021 ≤ k + (Zpos (digits2_pos my) + ey) →
  above_pow2 (k + (Zpos (digits2_pos my) + ey) - 1)
    (Py.fmul x (S754_finite false my ey)).
Proof.
  intros [->|(mx & ex & -> & Hdx & Hx)] Hy Hk; [by left|].
  unfold Py.fmul, SFmul. cbn [xorb].
  pose proof (digits2_mul mx my) as Hd.
  destruct (binary_round_aux_normal false (mx * my) (ex + ey))
    as (m' & e' & -> & Hd' & He'); [lia..|].
  apply rounded_above; [done|lia].
Qed.

Lemma shl_align_fst m e ez :
  ez ≤ e →
  Zpos (digits2_pos (shl_align m e ez).1) + ez = Zpos (digits2_pos m) + e.
Proof.
  intros Hle. unfold shl_align.
  destruct (ez - e) as [|p|p] eqn:Hn; cbn [fst]; try lia.
  rewrite digits2_iter_xO. lia.
Qed.

Lemma fadd_above k mx ex y :
  above_pow2 k y → -1021 ≤ k → above_pow2 k (Py.fadd (S754_finite false mx ex) y).
Proof.
  intros [->|(my & ey & -> & Hdy & Hy)] Hk; [by left|].
  unfold Py.fadd, SFadd. cbn [cond_Zopp].
  set (a := (shl_align mx ex _).1). set (b := (shl_align my ey _).1).
  change (Zpos a + Zpos b) with (Zpos (a + b)). cbn [binary_normalize].
  assert (Hb : Zpos (digits2_pos b) + Z.min ex ey = Zpos (digits2_pos my) + ey).
  { apply shl_align_fst. lia. }
  assert (Hab : Zpos (digits2_pos b) ≤ Zpos (digits2_pos (a + b))).
  { apply digits2_lower. pose proof (digits2_bounds b). lia. }
  destruct (binary_round_normal false (a + b) (Z.min ex ey))
    as (m' & e' & -> & Hd' & He'); [lia|].
  apply rounded_above; [done|lia].
Qed.

Lemma above_compare_Z k f z :
  above_pow2 k f → 0 ≤ k → z < 2 ^ k → Py.float_compare_Z f z = Some Gt.
Proof.
  intros [->|(m & e & -> & Hd & Hm)] Hk Hz; [done|].
  unfold Py.float_compare_Z. cbn [cond_Zopp]. f_equal.
  pose proof (digits2_bounds m) as [Hlo _]. rewrite Hd in Hlo.
  destruct (0 <=? e) eqn:He.
  - apply Z.leb_le in He. apply Z.compare_gt_iff.
    assert (2 ^ k ≤ 2 ^ (53 - 1) * 2 ^ e).
    { rewrite <- Z.pow_add_r by lia. apply Z.pow_le_mono_r; lia. }
    assert (0 < 2 ^ e) by (apply Z.pow_pos_nonneg; lia). nia.
  - apply Z.leb_gt in He. apply Z.compare_gt_iff.
    assert (2 ^ k * 2 ^ (- e) ≤ 2 ^ (53 - 1)).
    { rewrite <- Z.pow_add_r by lia. apply Z.pow_le_mono_r; lia. }
    assert (0 < 2 ^ (- e)) by (apply Z.pow_pos_nonneg; lia). nia.
Qed.

(** Against a normalised double of exponent [e0], the comparison of
    [SpecFloat] is decided by the exponents. *)
Lemma above_compare k f m0 e0 :
  above_pow2 k f → 53 + e0 ≤ k →
  SFcompare f (S754_finite false m0 e0) = Some Gt.
Proof.
  intros [->|(m & e & -> & Hd & Hm)] Hk; [done|].
  unfold SFcompare. f_equal.
  destruct (Z.compare_spec e e0); try lia. done.
Qed.

(** An integer below [2 ^ 1023] converts without [OverflowError]. *)
Lemma int_to_float_total z : 0 ≤ z < 2 ^ 1023 → is_Some (Py.int_to_float z).
Proof.
  intros [Hz Hlt]. unfold Py.int_to_float, Py.float_of_Z.
  destruct z as [|p|p]; try lia; [by eexists|]. cbn [binary_normalize].
  assert (Hd : Zpos (digits2_pos p) ≤ 1023).
  { destruct (decide (Zpos (digits2_pos p) ≤ 1023)); [done|].
    pose proof (digits2_bounds p) as [Hlo _].
    assert (2 ^ 1023 ≤ 2 ^ (Zpos (digits2_pos p) - 1)); [|lia].
    apply Z.pow_le_mono_r; lia. }
  destruct (binary_round_normal false p 0) as (m' & e' & -> & Hd' & He'); [lia|].
  unfold rounded. replace (e' <=? 971) with true; [by eexists|].
  symmetry. apply Z.leb_le. lia.
Qed.

End Rounding.

(** ** The combo multiplier and the points of a catch *)

Section Points.

(** The literals of the scoring code as binary64 values:
    [0.15 = 0x1.3333333333333p-3], [1.0], [4.0] and [2.5]. *)
Lemma dec_15_100 : Py.dec 15 100 = S754_finite false 5404319552844595 (-55).
Proof. by vm_compute. Qed.

Lemma dec_10_10 : Py.dec 10 10 = S754_finite false 4503599627370496 (-52).
Proof. by vm_compute. Qed.

Lemma dec_40_10 : Py.dec 40 10 = S754_finite false 4503599627370496 (-50).
Proof. by vm_compute. Qed.

Lemma dec_25_10 : Py.dec 25 10 = S754_finite false 5629499534213120 (-51).
Proof. by vm_compute. Qed.

Lemma int_to_float_1 :
  Py.int_to_float 1 = Some (S754_finite false 4503599627370496 (-52)).
Proof. by vm_compute. Qed.

Lemma int_to_float_Some z f : Py.int_to_float z = Some f → f = Py.float_of_Z z.
Proof.
  unfold Py.int_to_float. destruct (Py.float_of_Z z); naive_solver.
Qed.

(** From combo 64 on, [1 + combo * 0.15] is at least [8]. *)
Lemma combo_sum_above c x :
  64 ≤ c →
  Py.mul (Py.Int c) (Py.Float (Py.dec 15 100)) ≫= Py.add (Py.Int 1) = Some x →
  ∃ f, x = Py.Float f ∧ above_pow2 3 f.
Proof.
  intros Hc. unfold Py.mul, Py.add, Py.arith. cbn [Py.to_float].
  destruct (Py.int_to_float c) as [fc|] eqn:Hfc; [|done].
  cbn [mbind option_bind Py.to_float]. rewrite int_to_float_1.
  cbn [mbind option_bind]. intros [= <-]. eexists; split; [done|].
  apply int_to_float_Some in Hfc as ->. rewrite dec_15_100.
  apply fadd_above; [|lia].
  apply (fmul_above 6 _ 5404319552844595 (-55)); [|done|done].
  apply float_of_Z_above; lia.
Qed.

Lemma min_4_saturates f : above_pow2 3 f → Py.min (Py.Int 4) (Py.Float f) = Py.Int 4.
Proof.
  intros Hf. unfold Py.min, Py.lt, Py.compare.
  by rewrite (above_compare_Z 3 f 4).
Qed.

Lemma min_4_0_saturates f :
  above_pow2 3 f →
  Py.min (Py.Float (Py.dec 40 10)) (Py.Float f) = Py.Float (Py.dec 40 10).
Proof.
  intros Hf. unfold Py.min, Py.lt, Py.compare.
  rewrite dec_40_10.
  by rewrite (above_compare 3 f).
Qed.

Lemma small_combos_agree_true : small_combos_agree = true.
Proof. by vm_compute. Qed.

Lemma points_agree_small c t : 1 ≤ c < 64 → points_agree c t = true.
Proof.
  intros Hc. pose proof small_combos_agree_true as H.
  unfold small_combos_agree in H. rewrite forallb_forall in H.
  specialize (H c). rewrite forallb_forall in H. apply H.
  - apply list_elem_of_In. apply elem_of_seqZ. lia.
  - destruct t; simpl; tauto.
Qed.

Lemma points_agree_large c t :
  64 ≤ c → is_Some (Py.int_to_float c) → points_agree c t = true.
Proof.
  intros Hc [fc Hfc]. unfold points_agree, catch_points, spec_points.
  unfold spec_combo_multiplier.
  destruct (Py.mul (Py.Int c) (Py.Float (Py.dec 15 100)) ≫= Py.add (Py.Int 1))
    as [x|] eqn:Hx.
  - destruct (combo_sum_above c x Hc Hx) as (f & -> & Hf). simpl.
    rewrite min_4_saturates, min_4_0_saturates by done.
    by destruct t; vm_compute.
  - exfalso. revert Hx. unfold Py.mul, Py.add, Py.arith. cbn [Py.to_float].
    rewrite Hfc. cbn [mbind option_bind Py.to_float]. by rewrite int_to_float_1.
Qed.

(** The points that [handle_collision] awards are those of the
    specification, and they are not negative. *)
Lemma catch_points_spec c t :
  1 ≤ c → is_Some (Py.int_to_float c) →
  ∃ p, catch_points t c (Py.Float (Py.dec 10 10)) = Some p
       ∧ spec_points t c (Py.Float (Py.dec 10 10)) = Some p ∧ 0 ≤ p.
Proof.
  intros Hc Hfc.
  assert (Hagree : points_agree c t = true).
  { destruct (decide (c < 64)).
    - apply points_agree_small; lia.
    - apply points_agree_large; [lia|done]. }
  unfold points_agree in Hagree.
  destruct (catch_points _ _ _) as [p|]; [|done].
  destruct (spec_points _ _ _) as [q|]; [|done].
  apply andb_prop in Hagree as [Heq Hpos].
  apply Z.eqb_eq in Heq as ->. apply Z.leb_le in Hpos. eauto.
Qed.

(** Whenever the points are computed at all, they are not negative. *)
Lemma catch_points_nonneg c t p :
  1 ≤ c → catch_points t c (Py.Float (Py.dec 10 10)) = Some p → 0 ≤ p.
Proof.
  intros Hc Hp.
  assert (Hfc : is_Some (Py.int_to_float c)).
  { revert Hp. unfold catch_points.
    destruct (Py.mul (Py.Int c) _) eqn:Hmul; [|done]. intros _.
    revert Hmul. unfold Py.mul, Py.arith. cbn [Py.to_float].
    destruct (Py.int_to_float c); [by eauto|done]. }
  destruct (catch_points_spec c t Hc Hfc) as (p' & Hp' & _ & Hpos).
  congruence.
Qed.

End Points.

(** ** Configuration *)

(** C9. [load_config] returns the stored value of every key the file
    holds (known or not), the default of every key the file lacks, and
    exactly [DEFAULT_CONFIG] when the file is missing, cannot be read or
    parsed, or does not hold a JSON object.  It has no failing case. *)
Theorem C9_load_config :
  (∀ kvs k, dict_of kvs !! k = None →
     load_config (Contents (JDict kvs)) !! k = DEFAULT_CONFIG !! k)
  ∧ (∀ kvs k v, dict_of kvs !! k = Some v →
     load_config (Contents (JDict kvs)) !! k = Some v)
  ∧ load_config Missing = DEFAULT_CONFIG
  ∧ load_config Unreadable = DEFAULT_CONFIG
  ∧ (∀ j, (∀ kvs, j ≠ JDict kvs) → load_config (Contents j) = DEFAULT_CONFIG).
Proof.
  split; [|split; [|split; [|split]]]; try done.
  - intros kvs k Hk. cbn [load_config]. rewrite lookup_union, Hk.
    by destruct (DEFAULT_CONFIG !! k).
  - intros kvs k v Hk. cbn [load_config]. rewrite lookup_union, Hk.
    by destruct (DEFAULT_CONFIG !! k).
  - intros j Hj. destruct j; try done. by destruct (Hj kvs).
Qed.

Lemma C9_load_config_witness :
  let stored := [("fps", JInt 30); ("theme", JStr "dark")] in
  load_config (Contents (JDict stored)) !! "screen_width" = Some (JInt 1200)
  ∧ load_config (Contents (JDict stored)) !! "fps" = Some (JInt 30)
  ∧ load_config (Contents (JDict stored)) !! "theme" = Some (JStr "dark")
  ∧ load_config (Contents (JList [])) = DEFAULT_CONFIG.
Proof.
  destruct C9_load_config as (Hmissing & Hstored & _ & _ & Hother).
  intros stored. split; [|split; [|split]].
  - rewrite (Hmissing stored "screen_width"); [|vm_compute]; reflexivity.
  - apply Hstored. vm_compute. reflexivity.
  - apply Hstored. vm_compute. reflexivity.
  - apply Hother. intros kvs. discriminate.
Defined.

(** ** Lists of objects and loops *)

Section Objects.

Context {A : Type} `{EqDecision A}.

Implicit Types (o : obj A) (l : list (obj A)).

Lemma obj_write_oids o l : oid <$> obj_write o l = oid <$> l.
Proof.
  unfold obj_write. rewrite <- list_fmap_compose. apply list_fmap_ext.
  intros i x _. simpl. by case_decide.
Qed.

Lemma obj_write_length o l : length (obj_write o l) = length l.
Proof. unfold obj_write. by rewrite length_fmap. Qed.

Lemma obj_write_absent o l : oid o ∉ oid <$> l → obj_write o l = l.
Proof.
  intros Hnot. unfold obj_write. rewrite <- (list_fmap_id l) at 2.
  apply list_fmap_ext. intros i x Hx. simpl. case_decide as Heq; [|done].
  destruct Hnot. rewrite <- Heq. apply list_elem_of_fmap.
  exists x. split; [done|]. by apply list_elem_of_lookup_2 in Hx.
Qed.

(** Writing through a reference changes exactly the object it denotes. *)
Lemma obj_write_at o x l1 l2 :
  oid x = oid o → NoDup (oid <$> (l1 ++ x :: l2)) →
  obj_write o (l1 ++ x :: l2) = l1 ++ o :: l2.
Proof.
  intros Hid Hnd. rewrite fmap_app, fmap_cons in Hnd.
  apply NoDup_app in Hnd as (_ & Hdisj & Hnd2).
  apply NoDup_cons in Hnd2 as [Hx2 _].
  unfold obj_write. rewrite fmap_app, fmap_cons.
  fold (obj_write o l1). fold (obj_write o l2).
  rewrite decide_True by done.
  rewrite !obj_write_absent; [done| |].
  - by rewrite <- Hid.
  - intros Hin. apply (Hdisj _ Hin). rewrite Hid. left.
Qed.

Lemma py_remove_at v o l1 l2 :
  oval o = v → Forall (λ x, oval x ≠ v) l1 →
  py_remove v (l1 ++ o :: l2) = Some (l1 ++ l2).
Proof.
  intros Ho Hl1. induction Hl1 as [|x l1 Hx _ IH]; simpl.
  - by rewrite decide_True.
  - rewrite decide_False by done. by rewrite IH.
Qed.

Lemma py_remove_sublist v l l' : py_remove v l = Some l' → sublist l' l.
Proof.
  revert l'. induction l as [|x l IH]; intros l'; simpl; [done|].
  case_decide.
  - intros [= <-]. by apply sublist_cons.
  - destruct (py_remove v l) as [l0|]; [|done]. intros [= <-].
    apply sublist_skip. by apply IH.
Qed.

Lemma py_remove_is_Some v l : v ∈ oval <$> l → is_Some (py_remove v l).
Proof.
  induction l as [|x l IH]; simpl.
  - by intros ?%elem_of_nil.
  - intros Hin. case_decide as Hx; [by eexists|].
    apply elem_of_cons in Hin as [Heq|Hin]; [by destruct Hx|].
    destruct (IH Hin) as [l' ->]. by eexists.
Qed.

Lemma py_remove_length v l l' :
  py_remove v l = Some l' → length l = S (length l').
Proof.
  revert l'. induction l as [|x l IH]; intros l'; simpl; [done|].
  case_decide.
  - by intros [= <-].
  - destruct (py_remove v l) as [l0|]; [|done]. intros [= <-].
    simpl. f_equal. by apply IH.
Qed.

Lemma ids_ok_sublist n l l' : sublist l' l → ids_ok n l → ids_ok n l'.
Proof.
  intros Hsub [Hnd Hlt]. split.
  - eapply sublist_NoDup; [done|]. by apply fmap_sublist.
  - clear Hnd. induction Hsub as [|x l1 l2 _ IH|x l1 l2 _ IH]; [done|..].
    + apply Forall_cons in Hlt as [Hx Hlt]. apply Forall_cons. auto.
    + apply Forall_cons in Hlt as [_ Hlt]. auto.
Qed.

Lemma ids_ok_write n o l : ids_ok n l → ids_ok n (obj_write o l).
Proof.
  intros [Hnd Hlt]. split; [by rewrite obj_write_oids|].
  unfold obj_write. apply Forall_fmap. eapply Forall_impl; [done|].
  intros x Hx. simpl. case_decide as Heq; [|done]. by rewrite <- Heq.
Qed.

Lemma ids_ok_mono n m l : (n ≤ m)%nat → ids_ok n l → ids_ok m l.
Proof.
  intros Hle [Hnd Hlt]. split; [done|].
  eapply Forall_impl; [done|]. intros x Hx. simpl in *. lia.
Qed.

(** A freshly allocated object may be appended. *)
Lemma ids_ok_snoc n l (a : A) : ids_ok n l → ids_ok (S n) (l ++ [Obj n a]).
Proof.
  intros [Hnd Hlt]. split.
  - rewrite fmap_app. apply NoDup_app. split; [done|]. split.
    + intros i Hi ->%list_elem_of_singleton.
      apply list_elem_of_fmap in Hi as (x & Hx & Hin).
      rewrite Forall_forall in Hlt. specialize (Hlt x Hin). simpl in *. lia.
    + apply NoDup_singleton.
  - apply Forall_app. split.
    + eapply Forall_impl; [done|]. intros x Hx. simpl in *. lia.
    + apply Forall_singleton. simpl. lia.
Qed.

End Objects.

Section Loops.

Context {S A : Type}.

Implicit Types (body : S → A → option S).

(** A property kept by the body is kept by the loop. *)
Lemma for_each_invariant (P : S → Prop) body s l s' :
  (∀ s a s', a ∈ l → P s → body s a = Some s' → P s') →
  P s → for_each body s l = Some s' → P s'.
Proof.
  revert s. induction l as [|a l IH]; intros s Hbody Hs; simpl.
  - by intros [= <-].
  - destruct (body s a) as [s1|] eqn:Hs1; [|done]. simpl.
    apply IH.
    + intros s2 b s3 Hb. apply Hbody. by right.
    + eapply Hbody; [by left|done..].
Qed.

(** A preorder respected by the body is respected by the loop. *)
Lemma for_each_preorder (R : S → S → Prop) `{!PreOrder R} body s l s' :
  (∀ s a s', a ∈ l → body s a = Some s' → R s s') →
  for_each body s l = Some s' → R s s'.
Proof.
  revert s. induction l as [|a l IH]; intros s Hbody; simpl.
  - by intros [= <-].
  - destruct (body s a) as [s1|] eqn:Hs1; [|done]. simpl.
    intros Hrest. transitivity s1; [eapply Hbody; [by left|done]|].
    apply IH; [|done]. intros s2 b s3 Hb. apply Hbody. by right.
Qed.

End Loops.

(** ** The operations on a round, case by case *)

(** Reduce projections of updated records, and nothing else. *)
Ltac gd_simpl :=
  cbn [score missed_food max_missed_food level combo max_combo food_objects
       game_over character_speed base_spawn_rate current_spawn_rate
       difficulty_multiplier score_multiplier spawn_timer level_timer
       special_spawn_chance powerup_active powerup_timer score_popups
       achievement_messages total_catches perfect_catches start_time allocated
       set_score set_missed_food set_level set_combo set_max_combo
       set_food_objects set_game_over set_character_speed
       set_current_spawn_rate set_difficulty_multiplier set_spawn_timer
       set_level_timer set_special_spawn_chance set_score_popups
       set_achievement_messages set_total_catches set_allocated
       width height high_score current_state game_data character_rect
       pause_manager PauseManager.paused PauseManager.pause_start
       PauseManager.total_pause_time analytics high_score_file
       set_high_score set_current_state set_game_data set_character_rect
       set_pause_manager set_analytics set_high_score_file
       oid oval mbind option_bind fmap option_fmap option_map] in *.

(** Two round states with the same fields are equal. *)
Lemma GameData_ext (a b : GameData) :
  score a = score b →
  missed_food a = missed_food b →
  max_missed_food a = max_missed_food b →
  level a = level b →
  combo a = combo b →
  max_combo a = max_combo b →
  food_objects a = food_objects b →
  game_over a = game_over b →
  character_speed a = character_speed b →
  base_spawn_rate a = base_spawn_rate b →
  current_spawn_rate a = current_spawn_rate b →
  difficulty_multiplier a = difficulty_multiplier b →
  score_multiplier a = score_multiplier b →
  spawn_timer a = spawn_timer b →
  level_timer a = level_timer b →
  special_spawn_chance a = special_spawn_chance b →
  powerup_active a = powerup_active b →
  powerup_timer a = powerup_timer b →
  score_popups a = score_popups b →
  achievement_messages a = achievement_messages b →
  total_catches a = total_catches b →
  perfect_catches a = perfect_catches b →
  start_time a = start_time b →
  allocated a = allocated b →
  a = b.
Proof. destruct a, b; simpl; intros; by subst. Qed.

Lemma Game_ext (a b : Game) :
  width a = width b → height a = height b → high_score a = high_score b →
  current_state a = current_state b → game_data a = game_data b →
  character_rect a = character_rect b →
  pause_manager a = pause_manager b →
  analytics a = analytics b → high_score_file a = high_score_file b →
  a = b.
Proof. destruct a, b; simpl; intros; by subst. Qed.

(** Equality of two states built from the same state by assignments. *)
Ltac gd_eq := apply GameData_ext; gd_simpl; reflexivity.
Ltac game_eq := apply Game_ext; gd_simpl; reflexivity.

Section Operations.

Lemma update_difficulty_tick gd :
  level_timer gd + 1 < 500 →
  update_difficulty gd = Some (set_level_timer (level_timer gd + 1) gd).
Proof.
  intros Hlt. unfold update_difficulty. cbn [level_timer set_level_timer].
  by replace (level_timer gd + 1 >=? 500) with false by lia.
Qed.

Lemma update_difficulty_level_up gd gd' :
  500 ≤ level_timer gd + 1 → update_difficulty gd = Some gd' →
  ∃ dm sc cs,
    Py.mul (Py.Int (level gd + 1 - 1)) (Py.Float (Py.dec 12 100))
      ≫= Py.add (Py.Float (Py.dec 10 10)) = Some dm
    ∧ Py.mul (Py.Int (level gd + 1 - 1)) (Py.Float (Py.dec 25 1000))
      ≫= Py.add (Py.Float (Py.dec 15 100)) = Some sc
    ∧ Py.mul (Py.Int (level gd + 1 - 1)) (Py.Float (Py.dec 6 10))
      ≫= Py.add (Py.Int 10) = Some cs
    ∧ gd' = leveled_up gd dm sc cs.
Proof.
  intros Hge. unfold update_difficulty. cbn [level_timer set_level_timer].
  replace (level_timer gd + 1 >=? 500) with true by lia.
  cbn [level set_level set_level_timer set_difficulty_multiplier
       set_current_spawn_rate set_special_spawn_chance set_character_speed].
  destruct (_ ≫= Py.add (Py.Float (Py.dec 10 10))) as [dm|] eqn:Hdm;
    [|discriminate].
  cbn [mbind option_bind].
  destruct (_ ≫= Py.add (Py.Float (Py.dec 15 100))) as [sc|] eqn:Hsc;
    [|discriminate].
  cbn [mbind option_bind].
  destruct (_ ≫= Py.add (Py.Int 10)) as [cs|] eqn:Hcs; [|discriminate].
  cbn [mbind option_bind]. intros [= <-]. exists dm, sc, cs.
  split; [done|split; [done|split; [done|]]]. unfold leveled_up. gd_eq.
Qed.

Lemma update_difficulty_cases gd gd' :
  update_difficulty gd = Some gd' →
  gd' = set_level_timer (level_timer gd + 1) gd
  ∨ ∃ dm sc cs,
      spec_level_params (level gd + 1)
      = Some (dm, Z.max 15 (45 - (level gd + 1 - 1) * 4),
              Py.min (Py.Float (Py.dec 35 100)) sc, Py.min (Py.Int 16) cs)
      ∧ gd' = leveled_up gd dm sc cs.
Proof.
  intros Hup. destruct (decide (level_timer gd + 1 < 500)) as [Hlt|Hge].
  - left. rewrite update_difficulty_tick in Hup by done. congruence.
  - right. apply update_difficulty_level_up in Hup as (dm & sc & cs & H1 & H2 & H3 & ->);
      [|lia].
    exists dm, sc, cs. split; [|done]. unfold spec_level_params.
    by rewrite H1, H2, H3.
Qed.

(** The level formulas are defined for every level that converts to a
    double. *)
Lemma spec_level_params_total lvl :
  1 ≤ lvl ≤ 2 ^ 1023 → is_Some (spec_level_params lvl).
Proof.
  intros Hl. unfold spec_level_params, Py.mul, Py.add, Py.arith.
  cbn [Py.to_float].
  destruct (int_to_float_total (lvl - 1)) as [f ->]; [lia|].
  cbn [mbind option_bind Py.to_float].
  replace (Py.int_to_float 10) with (Some (Py.float_of_Z 10)) by (by vm_compute).
  by eexists.
Qed.

Lemma update_difficulty_total gd :
  0 ≤ level gd < 2 ^ 1023 → is_Some (update_difficulty gd).
Proof.
  intros Hl. destruct (decide (level_timer gd + 1 < 500)) as [Hlt|Hge].
  - rewrite update_difficulty_tick by done. by eexists.
  - unfold update_difficulty. cbn [level_timer set_level_timer].
    replace (level_timer gd + 1 >=? 500) with true by lia.
    cbn [level set_level set_level_timer set_difficulty_multiplier
         set_current_spawn_rate set_special_spawn_chance set_character_speed].
    replace (level gd + 1 - 1) with (level gd) by lia.
    unfold Py.mul, Py.add, Py.arith. cbn [Py.to_float].
    destruct (int_to_float_total (level gd)) as [f ->]; [lia|].
    cbn [mbind option_bind Py.to_float].
    replace (Py.int_to_float 10) with (Some (Py.float_of_Z 10)) by (by vm_compute).
    by eexists.
Qed.

Lemma spawn_food_raises self gd d :
  image_load d = OtherError → spawn_food self gd d = None.
Proof. intros Hl. unfold spawn_food. by rewrite Hl. Qed.

Lemma spawn_food_Some self gd d dm :
  image_load d ≠ OtherError →
  difficulty_multiplier gd = Py.Float dm →
  spawn_food self gd d
  = Some (set_allocated (S (allocated gd))
            (set_food_objects
               (food_objects gd
                ++ [Obj (allocated gd)
                      (mkFood (allocated gd)
                         (mkRect
                            (avoid_overlap (width self) d
                               (choose_spawn_x (width self)
                                  (centerx (character_rect self)) d)
                               (food_objects gd))
                            (y_draw d) (size (type_pick d)).1 (size (type_pick d)).2)
                         (type_pick d)
                         (Py.Float (Py.fmul (speed (type_pick d)) dm)))])
               gd)).
Proof.
  intros Hl Hdm. unfold spawn_food. rewrite Hdm. by destruct (image_load d).
Qed.

Lemma spawn_food_inv self gd d gd' :
  spawn_food self gd d = Some gd' →
  ∃ food, oid food = allocated gd
    ∧ food_img (oval food) = allocated gd
    ∧ gd' = set_allocated (S (allocated gd))
              (set_food_objects (food_objects gd ++ [food]) gd).
Proof.
  unfold spawn_food. destruct (Py.mul _ _) as [v|];
    [|by destruct (image_load d)].
  cbn [mbind option_bind].
  destruct (image_load d); [| |done];
    intros [= <-]; eexists (Obj _ (mkFood _ _ _ _)); by split_and!.
Qed.

(** [handle_collision] computes the points, then leaves [caught]. *)
Lemma handle_collision_unfold gd food :
  handle_collision gd food
  = p ← catch_points (food_type (oval food)) (combo gd + 1) (score_multiplier gd);
    objs ← py_remove (oval food) (food_objects gd);
    Some (caught gd food p objs, p).
Proof.
  unfold handle_collision, catch_points. gd_simpl.
  destruct (_ ≫= Py.add (Py.Int 1)) as [x|]; [|reflexivity]. gd_simpl.
  destruct (Py.mul (Py.Int _) (Py.min _ _)) as [q|]; [|reflexivity]. gd_simpl.
  destruct (Py.mul q _) as [v|]; [|reflexivity]. gd_simpl.
  destruct (Py.int v) as [p|]; [|reflexivity]. gd_simpl.
  unfold caught. gd_simpl.
  destruct (combo gd + 1 =? 10); gd_simpl;
    (destruct (py_remove _ _) as [objs|]; [|reflexivity]); gd_simpl;
    do 2 f_equal; gd_eq.
Qed.

Lemma handle_collision_inv gd food r :
  handle_collision gd food = Some r →
  ∃ p objs,
    catch_points (food_type (oval food)) (combo gd + 1) (score_multiplier gd) = Some p
    ∧ py_remove (oval food) (food_objects gd) = Some objs
    ∧ r = (caught gd food p objs, p).
Proof.
  rewrite handle_collision_unfold.
  destruct (catch_points _ _ _) as [p|]; [|discriminate].
  destruct (py_remove _ _) as [objs|]; [|discriminate].
  gd_simpl. intros [= <-]. by exists p, objs.
Qed.

Lemma handle_collision_Some gd food p objs :
  catch_points (food_type (oval food)) (combo gd + 1) (score_multiplier gd) = Some p →
  py_remove (oval food) (food_objects gd) = Some objs →
  handle_collision gd food = Some (caught gd food p objs, p).
Proof. intros Hp Hobjs. rewrite handle_collision_unfold. by rewrite Hp, Hobjs. Qed.

End Operations.

(** ** The item loop, case by case *)

Section ItemLoop.

Context `{!TieRule}.

(** The three outcomes of one iteration: catch, miss, still falling. *)
Lemma food_step_inv g f g' :
  food_step g f = Some g' →
  ∃ gd rect,
    game_data g = Some gd
    ∧ move_y (food_rect (oval f)) (food_speed (oval f)) = Some rect
    ∧ ((colliderect rect (character_rect g) = true
        ∧ ∃ p objs,
            catch_points (food_type (oval f)) (combo gd + 1) (score_multiplier gd)
            = Some p
            ∧ py_remove (oval (moved f rect))
                (food_objects (with_moved gd (moved f rect))) = Some objs
            ∧ g' = set_game_data
                     (Some (caught (with_moved gd (moved f rect)) (moved f rect) p objs))
                     g)
       ∨ (colliderect rect (character_rect g) = false
          ∧ height g < top rect
          ∧ ∃ objs,
              py_remove (oval (moved f rect))
                (food_objects (with_moved gd (moved f rect))) = Some objs
              ∧ g' = (if missed_food gd + 1 >=? max_missed_food gd
                      then set_current_state GAME_OVER
                             (set_game_data
                                (Some (set_game_over true
                                         (missed (with_moved gd (moved f rect)) objs)))
                                g)
                      else set_game_data
                             (Some (missed (with_moved gd (moved f rect)) objs)) g))
       ∨ (colliderect rect (character_rect g) = false
          ∧ top rect ≤ height g
          ∧ g' = set_game_data (Some (with_moved gd (moved f rect))) g)).
Proof.
  unfold food_step. destruct (game_data g) as [gd|]; [|discriminate].
  cbn [mbind option_bind]. destruct (move_y _ _) as [rect|]; [|discriminate].
  cbn [mbind option_bind]. fold (moved f rect).
  fold (with_moved gd (moved f rect)).
  change (food_rect (oval (moved f rect))) with rect.
  intros Hstep. exists gd, rect. split; [done|]. split; [done|].
  destruct (colliderect rect (character_rect g)).
  - left. split; [done|].
    destruct (handle_collision _ _) as [r|] eqn:Hr; [|discriminate Hstep].
    apply handle_collision_inv in Hr as (p & objs & Hp & Hobjs & ->).
    cbn [mbind option_bind fst] in Hstep.
    exists p, objs. split; [done|]. split; [done|]. congruence.
  - right. destruct (top rect >? height g) eqn:Htop.
    + left. split; [done|]. split; [lia|].
      destruct (py_remove _ _) as [objs|]; [|discriminate Hstep].
      cbn [mbind option_bind] in Hstep. exists objs. split; [done|].
      replace (missed_food gd + 1 >=? max_missed_food gd)
        with (missed_food
                (set_combo 0
                   (set_missed_food
                      (missed_food
                         (set_food_objects objs (with_moved gd (moved f rect))) + 1)
                      (set_food_objects objs (with_moved gd (moved f rect)))))
              >=? max_missed_food
                    (set_combo 0
                       (set_missed_food
                          (missed_food
                             (set_food_objects objs (with_moved gd (moved f rect)))
                           + 1)
                          (set_food_objects objs (with_moved gd (moved f rect))))))
        by reflexivity.
      destruct (_ >=? _); injection Hstep as <-; f_equal; f_equal;
        unfold missed, with_moved; gd_eq.
    + right. split; [done|]. split; [lia|]. congruence.
Qed.

Lemma imgs_ok_sublist l l' : sublist l' l → imgs_ok l → imgs_ok l'.
Proof.
  unfold imgs_ok. intros Hsub Hl.
  induction Hsub as [|x l1 l2 _ IH|x l1 l2 _ IH]; [done|..].
  - apply Forall_cons in Hl as [Hx Hl]. apply Forall_cons. auto.
  - apply Forall_cons in Hl as [_ Hl]. auto.
Qed.

Lemma imgs_ok_write f l :
  food_img (oval f) = oid f → imgs_ok l → imgs_ok (obj_write f l).
Proof.
  unfold imgs_ok, obj_write. intros Hf Hl. apply Forall_fmap.
  eapply Forall_impl; [done|]. intros x Hx. simpl. by case_decide.
Qed.

Lemma round_ok_with_moved gd f rect :
  food_img (oval f) = oid f → round_ok gd → round_ok (with_moved gd (moved f rect)).
Proof.
  intros Hf []. constructor; unfold with_moved; gd_simpl; try done.
  - by apply ids_ok_write.
  - by apply imgs_ok_write.
Qed.

Lemma round_ok_missed gd objs :
  round_ok gd → sublist objs (food_objects gd) → round_ok (missed gd objs).
Proof.
  intros [] Hsub. constructor; unfold missed; gd_simpl; try done.
  - by eapply ids_ok_sublist.
  - by eapply imgs_ok_sublist.
Qed.

Lemma round_ok_game_over gd : round_ok gd → round_ok (set_game_over true gd).
Proof. intros []. by constructor. Qed.

Lemma round_ok_caught gd f p objs :
  round_ok gd → sublist objs (food_objects gd) → round_ok (caught gd f p objs).
Proof.
  intros [] Hsub. unfold caught. gd_simpl.
  destruct (combo gd + 1 =? 10); constructor; gd_simpl; try done; try lia;
    try (by eapply imgs_ok_sublist).
  - eapply ids_ok_sublist; [done|]. eapply ids_ok_mono; [|done]. lia.
  - eapply ids_ok_mono; [|by apply ids_ok_snoc]. lia.
  - by apply ids_ok_snoc, ids_ok_mono with (allocated gd); [lia|].
  - eapply ids_ok_sublist; [done|]. eapply ids_ok_mono; [|done]. lia.
  - by apply ids_ok_snoc.
  - eapply ids_ok_mono; [|done]. lia.
Qed.

Lemma round_ok_set_level_timer gd v : round_ok gd → round_ok (set_level_timer v gd).
Proof. intros []. by constructor. Qed.

Lemma round_ok_set_spawn_timer gd v : round_ok gd → round_ok (set_spawn_timer v gd).
Proof. intros []. by constructor. Qed.

Lemma level_ok_level gd : level_ok gd → 1 ≤ level gd.
Proof. intros [[-> _]|[Hl _]]; lia. Qed.

Lemma round_ok_leveled_up gd dm sc cs :
  round_ok gd →
  spec_level_params (level gd + 1)
  = Some (dm, Z.max 15 (45 - (level gd + 1 - 1) * 4),
          Py.min (Py.Float (Py.dec 35 100)) sc, Py.min (Py.Int 16) cs) →
  round_ok (leveled_up gd dm sc cs).
Proof.
  intros [? ? Hbase ? Hlevel ? ? ? ?] Hparams.
  pose proof (level_ok_level gd Hlevel).
  unfold leveled_up. constructor; gd_simpl; try done.
  - right. unfold derived. gd_simpl. split; [lia|].
    by rewrite Hparams, Hbase.
  - eapply ids_ok_mono; [|done]. lia.
  - eapply ids_ok_mono; [|done]. lia.
  - by apply ids_ok_snoc.
Qed.

Lemma round_ok_update_difficulty gd gd' :
  round_ok gd → update_difficulty gd = Some gd' → round_ok gd'.
Proof.
  intros Hok [->|(dm & sc & cs & Hparams & ->)]%update_difficulty_cases.
  - by apply round_ok_set_level_timer.
  - by apply round_ok_leveled_up.
Qed.

Lemma round_ok_spawn_food self gd d gd' :
  round_ok gd → spawn_food self gd d = Some gd' → round_ok gd'.
Proof.
  intros [] (food & Hid & Himg & ->)%spawn_food_inv.
  destruct food as [i v]. simpl in Hid, Himg. subst i.
  constructor; gd_simpl; try done.
  - by apply ids_ok_snoc.
  - apply Forall_app. split; [done|]. by apply Forall_singleton.
  - eapply ids_ok_mono; [|done]. lia.
  - eapply ids_ok_mono; [|done]. lia.
Qed.

Lemma round_ok_init now : round_ok (GameData_init now).
Proof.
  constructor; simpl; try done.
  - by left.
  - split; [apply NoDup_nil_2|done].
  - apply Forall_nil_2.
  - split; [apply NoDup_nil_2|done].
  - split; [apply NoDup_nil_2|done].
Qed.

End ItemLoop.

(** ** One tick *)

Section Tick.

Context `{!TieRule}.

Global Instance round_le_preorder : PreOrder round_le.
Proof.
  split.
  - intros a. unfold round_le. split_and!; try done; lia.
  - intros a b c (?&?&?&?&?) (?&?&?&?&?).
    unfold round_le. split_and!; try lia; by etrans.
Qed.

Global Instance same_frame_preorder : PreOrder same_frame.
Proof.
  split.
  - intros g. unfold same_frame. by split_and!.
  - intros a b c (?&?&?&?&?&?) (?&?&?&?&?&?).
    unfold same_frame. split_and!; congruence.
Qed.

Global Instance loop_rel_preorder : PreOrder loop_rel.
Proof.
  split.
  - intros g. split; [done|]. split; [done|]. intros gd Hgd Hok. by exists gd.
  - intros a b c (Hf1 & Hc1 & H1) (Hf2 & Hc2 & H2).
    split; [by etrans|]. split; [congruence|]. intros gd Hgd Hok.
    destruct (H1 gd Hgd Hok) as (gd1 & Hgd1 & Hok1 & Hle1 & Hl1 & Hd1 & Hm1).
    destruct (H2 gd1 Hgd1 Hok1) as (gd2 & Hgd2 & Hok2 & Hle2 & Hl2 & Hd2 & Hm2).
    exists gd2. split_and!; try done; try congruence. by etrans.
Qed.

Lemma round_le_with_moved gd f : round_le gd (with_moved gd f).
Proof. unfold round_le, with_moved. gd_simpl. split_and!; try done; lia. Qed.

Lemma round_le_missed gd objs : round_le gd (missed gd objs).
Proof. unfold round_le, missed. gd_simpl. split_and!; try done; lia. Qed.

(** A catch never lowers the score. *)
Lemma round_le_caught gd f p objs :
  0 ≤ p → round_le gd (caught gd f p objs).
Proof.
  intros Hp. unfold caught, round_le. gd_simpl.
  destruct (combo gd + 1 =? 10); gd_simpl;
    (split; [lia|]); (split; [lia|]); (split; [lia|]);
    (split; [by apply prefix_app_r|]); try done.
  by apply prefix_app_r.
Qed.

Lemma derived_caught gd f p objs :
  level (caught gd f p objs) = level gd
  ∧ derived (caught gd f p objs) = derived gd
  ∧ max_missed_food (caught gd f p objs) = max_missed_food gd
  ∧ missed_food (caught gd f p objs) = missed_food gd.
Proof.
  unfold caught, derived. gd_simpl. by destruct (combo gd + 1 =? 10).
Qed.

Lemma food_step_loop_rel g f g' :
  food_img (oval f) = oid f → food_step g f = Some g' → loop_rel g g'.
Proof.
  intros Hf (gd & rect & Hgd & Hmove & Hcases)%food_step_inv.
  assert (Hsub : ∀ objs,
    py_remove (oval (moved f rect)) (food_objects (with_moved gd (moved f rect)))
    = Some objs →
    sublist objs (food_objects (with_moved gd (moved f rect)))).
  { intros objs. apply py_remove_sublist. }
  destruct Hcases as [(Hcol & p & objs & Hp & Hobjs & ->)
                     |[(Hcol & Htop & objs & Hobjs & ->)|(Hcol & Htop & ->)]].
  - split; [by repeat split|]. split; [done|]. intros gd0 Hgd0 Hok.
    assert (gd0 = gd) as -> by congruence.
    eexists. split; [done|].
    destruct (derived_caught (with_moved gd (moved f rect)) (moved f rect) p objs)
      as (Hl & Hd & Hm & _).
    split; [|split; [|done]].
    + apply round_ok_caught; [by apply round_ok_with_moved|by apply Hsub].
    + etrans; [apply (round_le_with_moved gd (moved f rect))|].
      apply round_le_caught. eapply (catch_points_nonneg (combo gd + 1)).
      * destruct Hok. lia.
      * destruct Hok as [_ <- _ _ _ _ _ _ _]. done.
  - assert (Hok' : round_ok gd →
      round_ok (missed (with_moved gd (moved f rect)) objs)).
    { intros Hok. apply round_ok_missed; [by apply round_ok_with_moved|].
      by apply Hsub. }
    destruct (missed_food gd + 1 >=? max_missed_food gd).
    + split; [by repeat split|]. split; [done|]. intros gd0 Hgd0 Hok.
      assert (gd0 = gd) as -> by congruence. eexists. split; [done|].
      split; [by apply round_ok_game_over, Hok'|]. by repeat split.
    + split; [by repeat split|]. split; [done|]. intros gd0 Hgd0 Hok.
      assert (gd0 = gd) as -> by congruence. eexists. split; [done|].
      split; [by apply Hok'|]. by repeat split.
  - split; [by repeat split|]. split; [done|]. intros gd0 Hgd0 Hok.
    assert (gd0 = gd) as -> by congruence. eexists. split; [done|].
    split; [by apply round_ok_with_moved|]. by repeat split.
Qed.

(** The miss counter against the terminal flag, through one iteration. *)
Lemma food_step_miss_state g f g' :
  miss_state_ok g → food_step g f = Some g' → miss_state_ok g'.
Proof.
  unfold miss_state_ok at 1.
  intros Hms (gd & rect & Hgd & Hmove & Hcases)%food_step_inv.
  rewrite Hgd in Hms.
  destruct Hcases as [(Hcol & p & objs & Hp & Hobjs & ->)
                     |[(Hcol & Htop & objs & Hobjs & ->)|(Hcol & Htop & ->)]].
  - unfold miss_state_ok. gd_simpl.
    destruct (derived_caught (with_moved gd (moved f rect)) (moved f rect) p objs)
      as (_ & _ & -> & ->).
    unfold with_moved. by gd_simpl.
  - destruct (missed_food gd + 1 >=? max_missed_food gd) eqn:Hge;
      unfold miss_state_ok, missed, with_moved; gd_simpl.
    + right. split; [done|]. lia.
    + destruct Hms as [[? ?]|[? ?]]; [left|right]; split; try done; lia.
  - unfold miss_state_ok, with_moved. by gd_simpl.
Qed.

(** The parts of a tick: movement, difficulty, spawn timer, item loop. *)
Lemma update_game_state_inv g i g' :
  update_game_state g i = Some g' →
  ∃ gd rect gd1 gd2,
    game_data g = Some gd
    ∧ update_difficulty gd = Some gd1
    ∧ (gd2 = set_spawn_timer (spawn_timer gd1 + 1) gd1
       ∨ ∃ gd3,
           spawn_food (set_character_rect rect g)
             (set_spawn_timer (spawn_timer gd1 + 1) gd1) (draws i) = Some gd3
           ∧ gd2 = set_spawn_timer 0 gd3)
    ∧ for_each food_step (set_game_data (Some gd2) (set_character_rect rect g))
        (food_objects gd2) = Some g'.
Proof.
  unfold update_game_state. destruct (game_data g) as [gd|]; [|discriminate].
  cbn [mbind option_bind].
  destruct (if key_a i && _ then _ else _) as [r1|]; [|discriminate].
  cbn [mbind option_bind].
  destruct (if key_d i && _ then _ else _) as [rect|]; [|discriminate].
  cbn [mbind option_bind].
  destruct (update_difficulty gd) as [gd1|] eqn:Hgd1; [|discriminate].
  cbn [mbind option_bind].
  destruct (spawn_timer (set_spawn_timer (spawn_timer gd1 + 1) gd1)
            >=? current_spawn_rate (set_spawn_timer (spawn_timer gd1 + 1) gd1)).
  - destruct (spawn_food _ _ _) as [gd3|] eqn:Hgd3; [|discriminate].
    cbn [mbind option_bind fmap option_fmap option_map]. intros Hloop.
    exists gd, rect, gd1, (set_spawn_timer 0 gd3). eauto 10.
  - cbn [mbind option_bind]. intros Hloop.
    exists gd, rect, gd1, (set_spawn_timer (spawn_timer gd1 + 1) gd1). eauto 10.
Qed.

End Tick.

(** ** A whole tick and a whole frame *)

Section Frame.

Context `{!TieRule}.

Lemma update_difficulty_round gd gd1 :
  update_difficulty gd = Some gd1 → round_ok gd →
  round_ok gd1 ∧ round_le gd gd1
  ∧ missed_food gd1 = missed_food gd
  ∧ max_missed_food gd1 = max_missed_food gd
  ∧ (level gd1 = level gd ∨ level gd1 = level gd + 1).
Proof.
  intros Hup Hok. split; [by eapply round_ok_update_difficulty|].
  apply update_difficulty_cases in Hup as [->|(dm & sc & cs & _ & ->)].
  - unfold round_le. gd_simpl. split_and!; try done; try lia; by left.
  - unfold round_le, leveled_up. gd_simpl.
    split_and!; try done; try lia; try (by apply prefix_app_r); by right.
Qed.

Lemma spawn_food_round self gd d gd' :
  spawn_food self gd d = Some gd' → round_ok gd →
  round_ok gd' ∧ round_le gd gd'
  ∧ missed_food gd' = missed_food gd
  ∧ max_missed_food gd' = max_missed_food gd
  ∧ level gd' = level gd.
Proof.
  intros Hsp Hok. split; [by eapply round_ok_spawn_food|].
  apply spawn_food_inv in Hsp as (food & _ & _ & ->).
  unfold round_le. gd_simpl. split_and!; try done; lia.
Qed.

(** What a tick does to the round, given the invariants at its start. *)
Lemma update_game_state_round g i g' gd :
  update_game_state g i = Some g' → game_data g = Some gd → round_ok gd →
  same_frame g g'
  ∧ ∃ gd', game_data g' = Some gd' ∧ round_ok gd' ∧ round_le gd gd'
      ∧ max_missed_food gd' = max_missed_food gd
      ∧ (level gd' = level gd ∨ level gd' = level gd + 1)
      ∧ (current_state g = PLAYING → missed_food gd < max_missed_food gd →
         miss_state_ok g').
Proof.
  intros (gd0 & rect & gd1 & gd2 & Hgd0 & Hgd1 & Hgd2 & Hloop)%update_game_state_inv
    Hgd Hok.
  assert (gd0 = gd) as -> by congruence.
  destruct (update_difficulty_round gd gd1 Hgd1 Hok) as (Hok1 & Hle1 & Hm1 & Hx1 & Hl1).
  assert (H2 : round_ok gd2 ∧ round_le gd gd2 ∧ missed_food gd2 = missed_food gd
               ∧ max_missed_food gd2 = max_missed_food gd
               ∧ (level gd2 = level gd ∨ level gd2 = level gd + 1)).
  { destruct Hgd2 as [->|(gd3 & Hgd3 & ->)].
    - split; [by apply round_ok_set_spawn_timer|]. by gd_simpl.
    - apply spawn_food_round in Hgd3
        as (Hok3 & Hle3 & Hm3 & Hx3 & Hl3); [|by apply round_ok_set_spawn_timer].
      split; [by apply round_ok_set_spawn_timer|]. gd_simpl.
      split; [by etrans|]. split_and!; congruence. }
  destruct H2 as (Hok2 & Hle2 & Hm2 & Hx2 & Hl2).
  assert (Hloop_rel :
    loop_rel (set_game_data (Some gd2) (set_character_rect rect g)) g').
  { eapply (for_each_preorder loop_rel); [|exact Hloop].
    intros s a s' Ha. apply food_step_loop_rel.
    destruct Hok2 as [_ _ _ _ _ _ Himg _ _]. unfold imgs_ok in Himg.
    rewrite Forall_forall in Himg. by apply Himg. }
  destruct Hloop_rel as (Hframe & _ & Hrel).
  destruct (Hrel gd2 eq_refl Hok2) as (gd' & Hgd' & Hok' & Hle' & Hl' & _ & Hx').
  split.
  { etrans; [|exact Hframe]. unfold same_frame. by gd_simpl. }
  exists gd'. split_and!; try done; try congruence.
  - by etrans.
  - intros Hplaying Hmissed.
    eapply (for_each_invariant miss_state_ok); [|
 |exact Hloop].
    + intros s a s' _. apply food_step_miss_state.
    + unfold miss_state_ok. gd_simpl. left. split; [done|]. congruence.
Qed.

(** [update] either leaves the game alone or runs one tick and then
    raises the high score to the round's score. *)
Lemma update_inv g i g' :
  update g i = Some g' →
  (g' = g ∧ ¬ (current_state g = PLAYING ∧ is_Some (game_data g)
               ∧ paused g = false))
  ∨ (current_state g = PLAYING ∧ paused g = false
     ∧ ∃ g1 gd1,
         update_game_state g i = Some g1 ∧ game_data g1 = Some gd1
         ∧ g' = (if score gd1 >? high_score g1
                 then save_high_score (write_ok i)
                        (set_high_score (score gd1) g1)
                 else g1)).
Proof.
  unfold update.
  destruct (current_state g) eqn:Hcs;
    try (intros [= <-]; left; split; [done|]; by intros (? & _ & _)).
  destruct (game_data g) as [gd|] eqn:Hgd;
    [|intros [= <-]; left; split; [done|]; by intros (_ & [? ?] & _)].
  destruct (paused g) eqn:Hp; cbn [negb];
    [intros [= <-]; left; split; [done|]; by intros (_ & _ & ?)|].
  destruct (update_game_state g i) as [g1|]; [|discriminate].
  cbn [mbind option_bind].
  destruct (game_data g1) as [gd1|] eqn:Hgd1; [|discriminate].
  cbn [mbind option_bind]. intros Hg'. right. split; [done|]. split; [done|].
  exists g1, gd1. split; [done|]. split; [done|].
  destruct (score gd1 >? high_score g1); congruence.
Qed.

End Frame.

(** ** The drawing pass *)

Section Drawing.

Context `{!TieRule}.

Lemma aged_popups_cons p l :
  aged_popups (p :: l)
  = if decide (0 < popup_timer (oval p) - 1)
    then age_popup p :: aged_popups l else aged_popups l.
Proof. unfold aged_popups. rewrite fmap_cons, filter_cons. done. Qed.

Lemma aged_messages_cons m l :
  aged_messages (m :: l)
  = if decide (0 < msg_timer (oval m) - 1)
    then age_message m :: aged_messages l else aged_messages l.
Proof. unfold aged_messages. rewrite fmap_cons, filter_cons. done. Qed.

(** The popup loop: [kept] are the popups already visited and kept,
    [rest] the part of the snapshot still to visit. *)
Lemma popup_loop gd rest : ∀ kept,
  NoDup (oid <$> (kept ++ rest)) →
  Forall (λ p, 0 < popup_timer (oval p)) kept →
  for_each popup_step (set_score_popups (kept ++ rest) gd) rest
  = Some (set_score_popups (kept ++ aged_popups rest) gd).
Proof.
  induction rest as [|p rest IH]; intros kept Hnd Hkept; [done|].
  cbn [for_each]. unfold popup_step. fold (age_popup p). gd_simpl.
  rewrite (obj_write_at (age_popup p) p kept rest) by done.
  rewrite aged_popups_cons.
  change (popup_timer (oval (age_popup p))) with (popup_timer (oval p) - 1).
  assert (Hnd' : NoDup (oid <$> ((kept ++ [age_popup p]) ++ rest))).
  { rewrite <- app_assoc. revert Hnd. by rewrite !fmap_app, !fmap_cons. }
  destruct (decide (0 < popup_timer (oval p) - 1)) as [Hpos|Hneg].
  - replace (popup_timer (oval p) - 1 <=? 0) with false by lia. gd_simpl.
    replace (set_score_popups (kept ++ age_popup p :: rest)
               (set_score_popups (kept ++ p :: rest) gd))
      with (set_score_popups ((kept ++ [age_popup p]) ++ rest) gd)
      by (rewrite <- app_assoc; gd_eq).
    rewrite IH; [by rewrite <- app_assoc|done|].
    apply Forall_app. split; [done|]. by apply Forall_singleton.
  - replace (popup_timer (oval p) - 1 <=? 0) with true by lia.
    rewrite (py_remove_at (oval (age_popup p)) (age_popup p) kept rest); [|done|].
    + gd_simpl.
      replace (set_score_popups (kept ++ rest)
                 (set_score_popups (kept ++ age_popup p :: rest)
                    (set_score_popups (kept ++ p :: rest) gd)))
        with (set_score_popups (kept ++ rest) gd) by gd_eq.
      apply IH; [|done].
      rewrite fmap_app, fmap_cons in Hnd. rewrite fmap_app.
      apply NoDup_app in Hnd as (Hd & Hdisj & Hr%NoDup_cons_1_2).
      apply NoDup_app. split; [done|]. split; [|done].
      intros x Hx Hin. apply (Hdisj x Hx). by right.
    + eapply Forall_impl; [done|]. intros x Hx Heq. simpl in Hx.
      rewrite Heq in Hx. simpl in Hx. lia.
Qed.

Lemma message_loop gd rest : ∀ kept,
  NoDup (oid <$> (kept ++ rest)) →
  Forall (λ m, 0 < msg_timer (oval m)) kept →
  for_each message_step (set_achievement_messages (kept ++ rest) gd) rest
  = Some (set_achievement_messages (kept ++ aged_messages rest) gd).
Proof.
  induction rest as [|m rest IH]; intros kept Hnd Hkept; [done|].
  cbn [for_each]. unfold message_step. fold (age_message m). gd_simpl.
  rewrite (obj_write_at (age_message m) m kept rest) by done.
  rewrite aged_messages_cons.
  change (msg_timer (oval (age_message m))) with (msg_timer (oval m) - 1).
  assert (Hnd' : NoDup (oid <$> ((kept ++ [age_message m]) ++ rest))).
  { rewrite <- app_assoc. revert Hnd. by rewrite !fmap_app, !fmap_cons. }
  destruct (decide (0 < msg_timer (oval m) - 1)) as [Hpos|Hneg].
  - replace (msg_timer (oval m) - 1 >? 0) with true by lia. gd_simpl.
    replace (set_achievement_messages (kept ++ age_message m :: rest)
               (set_achievement_messages (kept ++ m :: rest) gd))
      with (set_achievement_messages ((kept ++ [age_message m]) ++ rest) gd)
      by (rewrite <- app_assoc; gd_eq).
    rewrite IH; [by rewrite <- app_assoc|done|].
    apply Forall_app. split; [done|]. by apply Forall_singleton.
  - replace (msg_timer (oval m) - 1 >? 0) with false by lia.
    rewrite (py_remove_at (oval (age_message m)) (age_message m) kept rest);
      [|done|].
    + gd_simpl.
      replace (set_achievement_messages (kept ++ rest)
                 (set_achievement_messages (kept ++ age_message m :: rest)
                    (set_achievement_messages (kept ++ m :: rest) gd)))
        with (set_achievement_messages (kept ++ rest) gd) by gd_eq.
      apply IH; [|done].
      rewrite fmap_app, fmap_cons in Hnd. rewrite fmap_app.
      apply NoDup_app in Hnd as (Hd & Hdisj & Hr%NoDup_cons_1_2).
      apply NoDup_app. split; [done|]. split; [|done].
      intros x Hx Hin. apply (Hdisj x Hx). by right.
    + eapply Forall_impl; [done|]. intros x Hx Heq. simpl in Hx.
      rewrite Heq in Hx. simpl in Hx. lia.
Qed.

(** The drawing pass ages both queues and touches nothing else. *)
Lemma draw_enhanced_hud_aged gd :
  NoDup (oid <$> score_popups gd) → NoDup (oid <$> achievement_messages gd) →
  draw_enhanced_hud gd = Some (aged gd).
Proof.
  intros Hp Hm. unfold draw_enhanced_hud.
  replace gd with (set_score_popups ([] ++ score_popups gd) gd) at 1 by gd_eq.
  rewrite (popup_loop gd (score_popups gd) []) by done.
  cbn [mbind option_bind app]. gd_simpl.
  replace (set_score_popups (aged_popups (score_popups gd)) gd)
    with (set_achievement_messages ([] ++ achievement_messages gd)
            (set_score_popups (aged_popups (score_popups gd)) gd)) at 1 by gd_eq.
  by rewrite (message_loop _ (achievement_messages gd) []).
Qed.

Lemma ids_ok_aged_popups n l : ids_ok n l → ids_ok n (aged_popups l).
Proof.
  intros [Hnd Hlt]. apply ids_ok_sublist with (age_popup <$> l).
  - apply sublist_filter.
  - split.
    + by rewrite <- list_fmap_compose.
    + apply Forall_fmap. by eapply Forall_impl.
Qed.

Lemma ids_ok_aged_messages n l : ids_ok n l → ids_ok n (aged_messages l).
Proof.
  intros [Hnd Hlt]. apply ids_ok_sublist with (age_message <$> l).
  - apply sublist_filter.
  - split.
    + by rewrite <- list_fmap_compose.
    + apply Forall_fmap. by eapply Forall_impl.
Qed.

Lemma round_ok_aged gd : round_ok gd → round_ok (aged gd).
Proof.
  intros []. unfold aged. constructor; gd_simpl; try done.
  - by apply ids_ok_aged_popups.
  - by apply ids_ok_aged_messages.
Qed.

End Drawing.

(** ** Invariants of the reachable states *)

Section Reachable.

Context `{!TieRule}.

Lemma game_ok_same g g' :
  game_data g' = game_data g → current_state g' = current_state g →
  game_ok g → game_ok g'.
Proof. unfold game_ok, active. by intros -> ->. Qed.

Lemma game_ok_inactive g g' :
  game_data g' = game_data g → ¬ active g' → game_ok g → game_ok g'.
Proof.
  unfold game_ok. intros -> Hna. destruct (game_data g); [|done].
  intros [Hok _]. by split.
Qed.

Lemma high_score_update_fields (g : Game) (v : Z) (ok raise : bool) :
  ∀ g', g' = (if raise then save_high_score ok (set_high_score v g) else g) →
  game_data g' = game_data g ∧ current_state g' = current_state g
  ∧ width g' = width g ∧ height g' = height g ∧ paused g' = paused g
  ∧ analytics g' = analytics g ∧ character_rect g' = character_rect g.
Proof. intros g' ->. by destruct raise, ok. Qed.

Lemma render_inv g w g' :
  render g w = Some g' →
  (active g ∧ ((game_data g = None ∧ g' = g)
               ∨ ∃ gd gd', game_data g = Some gd ∧ draw_enhanced_hud gd = Some gd'
                           ∧ g' = set_game_data (Some gd') g))
  ∨ (current_state g = GAME_OVER ∧ g' = render_game_over g w)
  ∨ (¬ active g ∧ current_state g ≠ GAME_OVER ∧ g' = g).
Proof.
  unfold render, render_game, active.
  destruct (current_state g) eqn:Hcs;
    try (intros [= <-]; right; right; split; [by intros [?|?]|done]).
  - destruct (game_data g) as [gd|]; [|intros [= <-]; left; auto].
    destruct (draw_enhanced_hud gd) as [gd'|] eqn:Hd; [|discriminate].
    intros [= <-]. left. split; [by left|]. right. by exists gd, gd'.
  - destruct (game_data g) as [gd|]; [|intros [= <-]; left; auto].
    destruct (draw_enhanced_hud gd) as [gd'|] eqn:Hd; [|discriminate].
    intros [= <-]. left. split; [by right|]. right. by exists gd, gd'.
  - intros [= <-]. right. by left.
Qed.

Lemma render_game_over_fields g w :
  game_data (render_game_over g w) = game_data g
  ∧ current_state (render_game_over g w) = current_state g
  ∧ analytics (render_game_over g w) = analytics g.
Proof.
  unfold render_game_over, show_game_over.
  destruct (game_data g) as [gd|] eqn:Hgd; [|done].
  destruct (score gd >? high_score g), w; by rewrite <- Hgd.
Qed.

Lemma handle_keydown_fields g key now g' :
  handle_keydown g key now = Some g' →
  game_data g' = game_data g
  ∧ high_score g' = high_score g
  ∧ analytics g' = analytics g
  ∧ (active g' → active g).
Proof.
  unfold handle_keydown, active.
  destruct key, (current_state g) eqn:Hcs;
    try destruct (PauseManager.toggle_pause _ _) as [pm|]; gd_simpl;
    intros [= <-]; gd_simpl; split_and!; try done;
    intros [?|?]; auto; congruence.
Qed.

Lemma toggle_pause_flag now pm pm' :
  PauseManager.toggle_pause now pm = Some pm' →
  PauseManager.paused pm' = negb (PauseManager.paused pm).
Proof.
  unfold PauseManager.toggle_pause. cbn [PauseManager.paused].
  destruct (negb (PauseManager.paused pm)).
  - by intros [= <-].
  - cbn [PauseManager.pause_start].
    destruct (PauseManager.pause_start pm); [|done]. by intros [= <-].
Qed.

(** The four things a key press does. *)
Lemma handle_keydown_cases g key now g' :
  handle_keydown g key now = Some g' →
  (key = K_ESCAPE ∧ current_state g = PLAYING
   ∧ ∃ pm, PauseManager.toggle_pause now (pause_manager g) = Some pm
           ∧ g' = set_current_state PAUSED (set_pause_manager pm g))
  ∨ (key = K_ESCAPE ∧ current_state g = PAUSED
     ∧ ∃ pm, PauseManager.toggle_pause now (pause_manager g) = Some pm
             ∧ g' = set_current_state PLAYING (set_pause_manager pm g))
  ∨ (key = K_ESCAPE
     ∧ (current_state g = HOW_TO_PLAY ∨ current_state g = CREDITS)
     ∧ g' = set_current_state LOBBY g)
  ∨ g' = g.
Proof.
  unfold handle_keydown.
  destruct key, (current_state g) eqn:Hcs;
    try destruct (PauseManager.toggle_pause _ _) as [pm|] eqn:Htog;
    cbn [mbind option_bind]; try discriminate; intros [= <-]; eauto 10.
Qed.

Lemma quit_game_fields g hs_ok an_ok :
  game_data (quit_game hs_ok an_ok g) = game_data g
  ∧ current_state (quit_game hs_ok an_ok g) = current_state g
  ∧ high_score (quit_game hs_ok an_ok g) = high_score g
  ∧ data (analytics (quit_game hs_ok an_ok g)) = data (analytics g)
  ∧ pause_manager (quit_game hs_ok an_ok g) = pause_manager g
  ∧ character_rect (quit_game hs_ok an_ok g) = character_rect g
  ∧ width (quit_game hs_ok an_ok g) = width g
  ∧ height (quit_game hs_ok an_ok g) = height g.
Proof. unfold quit_game, save_high_score, save_analytics. by destruct hs_ok, an_ok. Qed.

Lemma handle_mouse_click_cases g pos now :
  handle_mouse_click g pos now
  = set_game_data (Some (GameData_init now)) (set_current_state PLAYING g)
    ∧ current_state g = LOBBY
  ∨ (∃ st, handle_mouse_click g pos now = set_current_state st g
           ∧ st ≠ PLAYING ∧ st ≠ PAUSED)
  ∨ handle_mouse_click g pos now = g.
Proof.
  unfold handle_mouse_click. destruct (current_state g) eqn:Hcs; auto.
  - cbn [get_lobby_buttons]. repeat case_match; eauto 10.
  - repeat case_match; eauto 10.
  - repeat case_match; eauto 10.
  - repeat case_match; eauto 10.
Qed.

(** Every step of the frame loop keeps the invariant. *)
Lemma game_ok_step g g' : game_ok g → step g g' → game_ok g'.
Proof.
  intros Hok Hstep.
  assert (Hclick : ∀ pos now, game_ok (handle_mouse_click g pos now)).
  { intros pos now.
    destruct (handle_mouse_click_cases g pos now)
      as [[-> _]|[(st & -> & H1 & H2)| ->]]; [| |done].
    - unfold game_ok. gd_simpl. split; [apply round_ok_init|]. intros _. done.
    - apply game_ok_inactive with g; [done| |done].
      unfold active. gd_simpl. by intros [?|?]. }
  destruct Hstep as [g g' Hround|g pos now _|g i r _|g w _|g key now _|g a b].
  - destruct Hround as [g i g' Hup|g w g' Hr|g key now g' Hk|g pos now _].
    + apply update_inv in Hup as [[-> _]|(Hcs & Hp & g1 & gd1 & Htick & Hgd1 & ->)];
        [done|].
      destruct (high_score_update_fields g1 (score gd1) (write_ok i)
                  (score gd1 >? high_score g1) _ eq_refl) as (Hd & Hc & _).
      apply game_ok_same with g1; [done..|].
      pose proof Htick as (gd & _ & _ & _ & Hgd & _)%update_game_state_inv.
      unfold game_ok in Hok. rewrite Hgd in Hok. destruct Hok as [Hokgd Hmiss].
      destruct (update_game_state_round g i g1 gd Htick Hgd Hokgd)
        as (_ & gd' & Hgd' & Hok' & _ & _ & _ & Hms).
      unfold game_ok. rewrite Hgd'. split; [done|].
      specialize (Hms Hcs (Hmiss (or_introl Hcs))).
      unfold miss_state_ok in Hms. rewrite Hgd' in Hms.
      intros [Ha|Ha]; destruct Hms as [[? ?]|[? ?]]; congruence.
    + apply render_inv in Hr
        as [(Hact & [[_ ->]|(gd & gd' & Hgd & Hdraw & ->)])
           |[(Hcs & ->)|(_ & _ & ->)]]; try done.
      * unfold game_ok in *. rewrite Hgd in Hok. destruct Hok as [Hokgd Hmiss].
        rewrite draw_enhanced_hud_aged in Hdraw;
          [|by destruct Hokgd as [_ _ _ _ _ _ _ [? _] _]
           |by destruct Hokgd as [_ _ _ _ _ _ _ _ [? _]]].
        injection Hdraw as <-. gd_simpl. split; [by apply round_ok_aged|].
        intros Ha. unfold aged. gd_simpl. apply Hmiss. exact Ha.
      * destruct (render_game_over_fields g w) as (Hd & Hc & _).
        by apply game_ok_same with g.
    + destruct (handle_keydown_fields g key now g' Hk) as (Hd & _ & _ & Ha).
      unfold game_ok in *. rewrite Hd. destruct (game_data g); [|tauto].
      destruct Hok. split; auto.
    + apply Hclick.
  - apply Hclick.
  - unfold game_ok, handle_crash, active. gd_simpl. by intros [?|?].
  - unfold game_ok, handle_crash, active. gd_simpl. by intros [?|?].
  - unfold game_ok, handle_crash, active. gd_simpl. by intros [?|?].
  - destruct (quit_game_fields g a b) as (Hd & Hc & _).
    by apply game_ok_same with g.
Qed.

Lemma game_ok_initial g : initial g → game_ok g.
Proof.
  intros (Hcs & Hgd & _). unfold game_ok, active. rewrite Hgd, Hcs.
  by intros [?|?].
Qed.

Lemma reachable_game_ok g : reachable g → game_ok g.
Proof.
  intros (g0 & Hinit & Hsteps). apply game_ok_initial in Hinit.
  induction Hsteps as [|x y z Hxy _ IH]; [done|].
  apply IH. by eapply game_ok_step.
Qed.

Lemma reachable_step g g' : reachable g → step g g' → reachable g'.
Proof.
  intros (g0 & Hinit & Hsteps) Hstep. exists g0. split; [done|].
  by eapply rtc_r.
Qed.

End Reachable.

(** ** Catches and the score *)

Section Scoring.

Lemma caught_fields gd food p objs :
  combo (caught gd food p objs) = combo gd + 1
  ∧ max_combo (caught gd food p objs) = Z.max (max_combo gd) (combo gd + 1)
  ∧ score (caught gd food p objs) = score gd + p
  ∧ total_catches (caught gd food p objs) = total_catches gd + 1
  ∧ food_objects (caught gd food p objs) = objs
  ∧ achievement_messages (caught gd food p objs)
    = achievement_messages gd
      ++ (if combo gd =? 9
          then [Obj (S (allocated gd)) (mkMessage "Super Combo!" 120 (255, 165, 0))]
          else []).
Proof.
  unfold caught. gd_simpl.
  destruct (combo gd + 1 =? 10) eqn:H10, (combo gd =? 9) eqn:H9; try lia;
    gd_simpl; split_and!; try done.
  by rewrite app_nil_r.
Qed.

Lemma spec_combo_multiplier_10 :
  spec_combo_multiplier 10 = Some (Py.Float (Py.dec 25 10)).
Proof. by vm_compute. Qed.

End Scoring.

(** C2. A catch increments the combo, raises [max_combo] to it, awards
    [floor(points * min(4.0, 1 + combo*0.15) * score_multiplier)] points,
    adds them to the score and counts the catch; the banner queue grows
    by exactly one "Super Combo!" when the combo goes from 9 to 10 (where
    the multiplier is 2.5) and not at all otherwise.  The catch is
    defined whenever the combo converts to a double. *)
Theorem C2_handle_collision gd food :
  0 ≤ combo gd → combo gd + 1 < 2 ^ 1023 →
  score_multiplier gd = Py.Float (Py.dec 10 10) →
  oval food ∈ oval <$> food_objects gd →
  ∃ gd' p,
    handle_collision gd food = Some (gd', p)
    ∧ combo gd' = combo gd + 1
    ∧ max_combo gd' = Z.max (max_combo gd) (combo gd')
    ∧ spec_points (food_type (oval food)) (combo gd') (score_multiplier gd) = Some p
    ∧ score gd' = score gd + p
    ∧ total_catches gd' = total_catches gd + 1
    ∧ achievement_messages gd'
      = achievement_messages gd
        ++ (if combo gd =? 9
            then [Obj (S (allocated gd))
                    (mkMessage "Super Combo!" 120 (255, 165, 0))]
            else [])
    ∧ spec_combo_multiplier 10 = Some (Py.Float (Py.dec 25 10)).
Proof.
  intros Hcombo Hbig Hsm Hin.
  destruct (catch_points_spec (combo gd + 1) (food_type (oval food)))
    as (p & Hcode & Hspec & _); [lia|apply int_to_float_total; lia|].
  destruct (py_remove_is_Some _ _ Hin) as [objs Hobjs].
  exists (caught gd food p objs), p.
  destruct (caught_fields gd food p objs) as (Hc & Hm & Hs & Ht & _ & Ha).
  split; [apply handle_collision_Some; [by rewrite Hsm|done]|].
  rewrite Hc, Hsm. split_and!; first [apply spec_combo_multiplier_10|done].
Qed.

Lemma C2_handle_collision_witness :
  ∃ gd',
    handle_collision combo_nine_round (example_item 0 560 600 SPECIAL)
    = Some (gd', 12)
    ∧ combo gd' = 10 ∧ score gd' = 12
    ∧ achievement_messages gd'
      = [Obj 2%nat (mkMessage "Super Combo!" 120 (255, 165, 0))].
Proof.
  destruct (C2_handle_collision combo_nine_round (example_item 0 560 600 SPECIAL))
    as (gd' & p & Hcatch & Hcombo & _ & Hpoints & Hscore & _ & Hmsgs & _).
  - vm_compute. discriminate.
  - vm_compute. reflexivity.
  - reflexivity.
  - vm_compute. left.
  - assert (Hp : p = 12).
    { rewrite Hcombo in Hpoints. vm_compute in Hpoints. congruence. }
    subst p. exists gd'. split; [exact Hcatch|]. split; [exact Hcombo|].
    split; [exact Hscore|]. exact Hmsgs.
Defined.

(** C7. No step inside a round lowers the score, from any reachable
    state; and the catch of a Common item from a combo of zero with score
    multiplier 1.0 is worth exactly one point. *)
Theorem C7_score_monotone {rule : TieRule} :
  (∀ g g' gd,
     reachable g → round_step g g' → game_data g = Some gd →
     ∃ gd', game_data g' = Some gd' ∧ score gd ≤ score gd')
  ∧ (∀ gd food,
       combo gd = 0 → score_multiplier gd = Py.Float (Py.dec 10 10) →
       food_type (oval food) = APPLE → oval food ∈ oval <$> food_objects gd →
       ∃ gd', handle_collision gd food = Some (gd', 1)
              ∧ score gd' = score gd + 1).
Proof.
  split.
  - intros g g' gd Hreach Hstep Hgd.
    apply reachable_game_ok in Hreach. unfold game_ok in Hreach.
    rewrite Hgd in Hreach. destruct Hreach as [Hok _].
    destruct Hstep as [g i g' Hup|g w g' Hr|g key now g' Hk|g pos now Hcs].
    + apply update_inv in Hup as [[-> _]|(_ & _ & g1 & gd1 & Htick & Hgd1 & ->)].
      { exists gd. split; [done|lia]. }
      destruct (update_game_state_round g i g1 gd Htick Hgd Hok)
        as (_ & gd' & Hgd' & _ & (Hle & _) & _).
      exists gd'. split; [|done].
      by destruct (score gd1 >? high_score g1), (write_ok i).
    + apply render_inv in Hr
        as [(_ & [[Hnone _]|(gd0 & gd' & Hgd0 & Hdraw & ->)])
           |[(_ & ->)|(_ & _ & ->)]].
      * congruence.
      * assert (gd0 = gd) as -> by congruence.
        rewrite draw_enhanced_hud_aged in Hdraw;
          [|by destruct Hok as [_ _ _ _ _ _ _ [? _] _]
           |by destruct Hok as [_ _ _ _ _ _ _ _ [? _]]].
        injection Hdraw as <-. exists (aged gd). split; [done|].
        unfold aged. gd_simpl. lia.
      * destruct (render_game_over_fields g w) as (-> & _).
        exists gd. split; [done|lia].
      * exists gd. split; [done|lia].
    + destruct (handle_keydown_fields g key now g' Hk) as (-> & _).
      exists gd. split; [done|lia].
    + exists gd. split; [|lia].
      destruct (handle_mouse_click_cases g pos now)
        as [[_ ?]|[(st & -> & _)| ->]]; done.
  - intros gd food Hcombo Hsm Happle Hin.
    destruct (py_remove_is_Some _ _ Hin) as [objs Hobjs].
    exists (caught gd food 1 objs).
    destruct (caught_fields gd food 1 objs) as (_ & _ & Hs & _).
    split; [|done]. apply handle_collision_Some; [|done].
    rewrite Hcombo, Hsm, Happle. by vm_compute.
Qed.

Lemma C7_score_monotone_witness :
  (∃ g' gd', update started_game example_input = Some g'
             ∧ game_data g' = Some gd' ∧ 0 ≤ score gd')
  ∧ (∃ gd', handle_collision first_catch_round (example_item 0 560 600 APPLE)
            = Some (gd', 1)
            ∧ score gd' = 1).
Proof.
  destruct C7_score_monotone as [Hmono Hcommon]. split.
  - assert (Hup : ∃ g', update started_game example_input = Some g').
    { eexists. vm_compute. reflexivity. }
    destruct Hup as [g' Hup].
    destruct (Hmono started_game g' (GameData_init 0)) as (gd' & Hgd' & Hle).
    + exists lobby_game. split; [by vm_compute|].
      apply rtc_once. by apply step_lobby_click.
    + by apply rs_update with example_input.
    + reflexivity.
    + exists g', gd'. split; [exact Hup|]. split; [exact Hgd'|exact Hle].
  - destruct (Hcommon first_catch_round (example_item 0 560 600 APPLE))
      as (gd' & Hcatch & Hscore).
    + reflexivity.
    + reflexivity.
    + reflexivity.
    + vm_compute. left.
    + exists gd'. split; [exact Hcatch|exact Hscore].
Defined.

(** ** Difficulty *)

(** C3. A tick below the threshold only advances [level_timer] by one;
    the tick that brings it to 500 raises the level, resets the timer and
    sets the derived parameters to the level formulas; in reachable
    states the derived parameters are a function of the level; and at
    level 5 they are 1.48, 29, 0.25 and 12.4. *)
Theorem C3_update_difficulty {rule : TieRule} :
  (∀ gd, level_timer gd + 1 < 500 →
     update_difficulty gd = Some (set_level_timer (level_timer gd + 1) gd))
  ∧ (∀ gd, 500 ≤ level_timer gd + 1 → 0 ≤ level gd < 2 ^ 1023 →
       base_spawn_rate gd = 45 →
       ∃ gd', update_difficulty gd = Some gd'
              ∧ level gd' = level gd + 1 ∧ level_timer gd' = 0
              ∧ spec_level_params (level gd') = Some (derived gd'))
  ∧ (∀ g1 g2 gd1 gd2,
       reachable g1 → reachable g2 →
       game_data g1 = Some gd1 → game_data g2 = Some gd2 →
       level gd1 = level gd2 → derived gd1 = derived gd2)
  ∧ spec_level_params 5
    = Some (Py.Float (Py.dec 148 100), 29, Py.Float (Py.dec 25 100),
            Py.Float (Py.dec 124 10)).
Proof.
  split; [exact update_difficulty_tick|]. split; [|split; [|by vm_compute]].
  - intros gd Hge Hlevel Hbase.
    destruct (update_difficulty_total gd Hlevel) as [gd' Hgd'].
    exists gd'. split; [done|].
    apply update_difficulty_level_up in Hgd'
      as (dm & sc & cs & Hdm & Hsc & Hcs & ->); [|done].
    unfold leveled_up, derived, spec_level_params. gd_simpl.
    split; [done|]. split; [done|]. by rewrite Hdm, Hsc, Hcs, Hbase.
  - intros g1 g2 gd1 gd2 Hr1 Hr2 Hgd1 Hgd2 Hlevel.
    apply reachable_game_ok in Hr1, Hr2. unfold game_ok in Hr1, Hr2.
    rewrite Hgd1 in Hr1. rewrite Hgd2 in Hr2.
    destruct Hr1 as [[_ _ _ _ Hl1 _ _ _ _] _].
    destruct Hr2 as [[_ _ _ _ Hl2 _ _ _ _] _].
    destruct Hl1 as [[H1 Hd1]|[H1 Hd1]], Hl2 as [[H2 Hd2]|[H2 Hd2]];
      try lia; congruence.
Qed.

Lemma C3_update_difficulty_witness :
  update_difficulty (GameData_init 0) = Some (set_level_timer 1 (GameData_init 0))
  ∧ (∃ gd', update_difficulty level_up_round = Some gd'
            ∧ level gd' = 2 ∧ level_timer gd' = 0
            ∧ spec_level_params 2 = Some (derived gd'))
  ∧ (∃ g' gd', update started_game example_input = Some g'
               ∧ game_data g' = Some gd' ∧ level gd' = 1
               ∧ derived gd' = derived (GameData_init 0)).
Proof.
  destruct C3_update_difficulty as (Htick & Hup & Hsame & _).
  split; [|split].
  - apply (Htick (GameData_init 0)). vm_compute. reflexivity.
  - destruct (Hup level_up_round) as (gd' & Hgd' & Hl & Ht & Hp).
    + vm_compute. discriminate.
    + split; vm_compute; [discriminate|reflexivity].
    + reflexivity.
    + exists gd'. split; [exact Hgd'|]. split; [exact Hl|].
      split; [exact Ht|]. rewrite Hl in Hp. exact Hp.
  - assert (Hstart : reachable started_game).
    { exists lobby_game. split; [by vm_compute|].
      apply rtc_once. by apply step_lobby_click. }
    eexists. eexists. split; [vm_compute; reflexivity|].
    split; [reflexivity|]. split; [reflexivity|].
    eapply (Hsame _ started_game _ (GameData_init 0)).
    + eapply reachable_step; [exact Hstart|].
      apply step_round. apply rs_update with example_input.
      vm_compute. reflexivity.
    + exact Hstart.
    + reflexivity.
    + reflexivity.
    + reflexivity.
Defined.

(** ** Rendering and the feedback queues *)

(** C4, as the claim states it, fails: drawing one frame of a playing
    game counts the popup down from 60 to 59 and removes the banner whose
    countdown reaches zero. *)
Lemma C4_render_mutates_round :
  (g ← render (playing_game feedback_round) true;
   gd ← game_data g;
   Some (popup_timer ∘ oval <$> score_popups gd,
         msg_timer ∘ oval <$> achievement_messages gd))
  = Some ([59], [])
  ∧ (popup_timer ∘ oval <$> score_popups feedback_round,
     msg_timer ∘ oval <$> achievement_messages feedback_round)
    = ([60], [1]).
Proof. split; by vm_compute. Qed.

(** C4, amended. The drawing pass counts every popup and banner down by
    one, removes those whose countdown is then zero or less and leaves
    every other field of the round as it was; rendering does this in the
    playing and paused states and leaves the round alone otherwise; a
    simulation tick never removes a popup or banner, it only appends. *)
Theorem C4_render_ages_queues {rule : TieRule} :
  (∀ gd,
     NoDup (oid <$> score_popups gd) → NoDup (oid <$> achievement_messages gd) →
     ∃ gd', draw_enhanced_hud gd = Some gd'
            ∧ score_popups gd' = aged_popups (score_popups gd)
            ∧ achievement_messages gd' = aged_messages (achievement_messages gd)
            ∧ same_but_queues gd gd')
  ∧ (∀ g w, reachable g →
       ∃ g', render g w = Some g'
             ∧ (active g → game_data g' = aged <$> game_data g)
             ∧ (¬ active g → game_data g' = game_data g))
  ∧ (∀ g i g' gd,
       reachable g → update g i = Some g' → game_data g = Some gd →
       ∃ gd', game_data g' = Some gd'
              ∧ score_popups gd `prefix_of` score_popups gd'
              ∧ achievement_messages gd `prefix_of` achievement_messages gd').
Proof.
  split; [|split].
  - intros gd Hp Hm. exists (aged gd).
    split; [by apply draw_enhanced_hud_aged|].
    unfold aged, same_but_queues. gd_simpl. by split_and!.
  - intros g w Hreach. apply reachable_game_ok in Hreach.
    unfold game_ok in Hreach. unfold render, render_game, active.
    destruct (game_data g) as [gd|] eqn:Hgd.
    + destruct Hreach as [Hok _].
      assert (Hdraw : draw_enhanced_hud gd = Some (aged gd)).
      { apply draw_enhanced_hud_aged.
        - by destruct Hok as [_ _ _ _ _ _ _ [? _] _].
        - by destruct Hok as [_ _ _ _ _ _ _ _ [? _]]. }
      destruct (render_game_over_fields g w) as (Hgo & _).
      rewrite Hgd in Hgo.
      destruct (current_state g) eqn:Hcs; rewrite ?Hdraw; gd_simpl;
        eexists; (split; [reflexivity|]); gd_simpl;
        split; intros Ha; try done; try (by destruct Ha);
        destruct Ha; by right + by left.
    + destruct (render_game_over_fields g w) as (Hgo & _).
      rewrite Hgd in Hgo.
      destruct (current_state g) eqn:Hcs; gd_simpl;
        eexists; (split; [reflexivity|]); gd_simpl;
        split; intros Ha; try done; by destruct Hreach.
  - intros g i g' gd Hreach Hup Hgd. apply reachable_game_ok in Hreach.
    unfold game_ok in Hreach. rewrite Hgd in Hreach. destruct Hreach as [Hok _].
    apply update_inv in Hup as [[-> _]|(_ & _ & g1 & gd1 & Htick & Hgd1 & ->)].
    { by exists gd. }
    destruct (update_game_state_round g i g1 gd Htick Hgd Hok)
      as (_ & gd' & Hgd' & _ & (_ & _ & _ & Hpop & Hmsg) & _).
    exists gd'. split; [|done].
    by destruct (score gd1 >? high_score g1), (write_ok i).
Qed.

Lemma C4_render_ages_queues_witness :
  (∃ gd', draw_enhanced_hud feedback_round = Some gd'
          ∧ score_popups gd' = [Obj 0%nat (mkPopup "+1" (590, 630) 59 (255, 0, 0))]
          ∧ achievement_messages gd' = []
          ∧ score gd' = score feedback_round)
  ∧ (∃ g', render started_game true = Some g'
           ∧ game_data g' = Some (aged (GameData_init 0)))
  ∧ (∃ g' gd', update started_game example_input = Some g'
               ∧ game_data g' = Some gd'
               ∧ [] `prefix_of` score_popups gd').
Proof.
  destruct C4_render_ages_queues as (Hdraw & Hrender & Hupdate).
  assert (Hstart : reachable started_game).
  { exists lobby_game. split; [by vm_compute|].
    apply rtc_once. by apply step_lobby_click. }
  split; [|split].
  - destruct (Hdraw feedback_round) as (gd' & Hgd' & Hp & Hm & Hs & _).
    + vm_compute. apply NoDup_singleton.
    + vm_compute. apply NoDup_singleton.
    + exists gd'. split; [exact Hgd'|]. split; [exact Hp|].
      split; [exact Hm|exact Hs].
  - destruct (Hrender started_game true Hstart) as (g' & Hg' & Hact & _).
    exists g'. split; [exact Hg'|]. apply Hact. left. reflexivity.
  - assert (Hup : ∃ g', update started_game example_input = Some g').
    { eexists. vm_compute. reflexivity. }
    destruct Hup as [g' Hup].
    destruct (Hupdate started_game example_input g' (GameData_init 0) Hstart Hup)
      as (gd' & Hgd' & Hp & _); [reflexivity|].
    exists g', gd'. split; [exact Hup|]. split; [exact Hgd'|exact Hp].
Defined.

(** ** Misses and the end of the round *)

Section Runs.

Context `{!TieRule}.

(** A state reached by ticks from a reachable state is reachable. *)
Lemma run_ticks_reachable inputs n k g g' :
  reachable g → run_ticks inputs k n g = Some g' → reachable g'.
Proof.
  revert k g. induction n as [|n IH]; intros k g Hreach; cbn [run_ticks].
  - by intros [= <-].
  - destruct (update g (inputs k)) as [g1|] eqn:Hup; [|discriminate].
    cbn [mbind option_bind]. apply IH.
    eapply reachable_step; [exact Hreach|]. apply step_round.
    by apply rs_update with (inputs k).
Qed.

Lemma reachable_started_game : reachable started_game.
Proof.
  exists lobby_game. split; [by vm_compute|].
  apply rtc_once. by apply step_lobby_click.
Qed.

End Runs.

(** The draws of the example run are draws [random] can return, for a
    player in the middle of the default field and at every level. *)
Lemma miss_run_draws_valid k g gd :
  width g = 1200 → centerx (character_rect g) = 600 →
  Py.lt (Py.Float (Py.dec 1 10)) (special_spawn_chance gd) = true →
  draws_valid g gd (miss_run_draws k).
Proof.
  intros Hw Hx Hchance. unfold draws_valid, miss_run_draws. rewrite Hw, Hx.
  destruct (bool_decide (k = 45 ∨ k = 90 ∨ k = 577)%nat).
  - split; [|split; [by vm_compute|split; [by right|split; [done|by right]]]].
    exists 2%nat, (Py.Float (weight SPECIAL)). split; [done|].
    split; [|by vm_compute].
    unfold spawn_weights. cbn [special_roll]. by rewrite Hchance.
  - split; [|split; [by vm_compute|split; [by right|split; [|by right]]]].
    + exists 0%nat, (Py.Float (weight APPLE)). split; [done|].
      split; [done|by vm_compute].
    + cbn [y_draw]. destruct (bool_decide (k = 135)%nat); lia.
Qed.

(** C1, as the claim states it, fails.  After 996 ticks of the example
    round the game is still playing with two misses and two items at
    y = 800.  In tick 997 the first item of the list passes the bottom:
    that is the third miss and the round is over.  The loop goes on all
    the same and the Rare item further down the list is missed too: the
    tick ends with four misses against a maximum of three. *)
Lemma C1_item_processed_after_game_over :
  run_ticks miss_run_input 1 996 started_game = Some double_miss_game
  ∧ reachable double_miss_game
  ∧ current_state double_miss_game = PLAYING
  ∧ miss_counters double_miss_game = Some (2, 3, 21%nat)
  ∧ filter (λ p, p.2 = 800)
      (default [] (item_places double_miss_game))
    = [(APPLE, 800, 800); (SPECIAL, 800, 800)]
  ∧ food_objects double_miss_round_0 = double_miss_first :: double_miss_rest
  ∧ food_step double_miss_game_0 double_miss_first = Some double_miss_game_1
  ∧ current_state double_miss_game_1 = GAME_OVER
  ∧ miss_counters double_miss_game_1 = Some (3, 3, 20%nat)
  ∧ for_each food_step double_miss_game_1 double_miss_rest
    = Some double_miss_game_2
  ∧ update double_miss_game (miss_run_input 997) = Some double_miss_game_2
  ∧ current_state double_miss_game_2 = GAME_OVER
  ∧ miss_counters double_miss_game_2 = Some (4, 3, 19%nat).
Proof.
  assert (Hrun : run_ticks miss_run_input 1 996 started_game
                 = Some double_miss_game) by (by vm_compute).
  split; [exact Hrun|]. split.
  { eapply run_ticks_reachable; [apply reachable_started_game|exact Hrun]. }
  split_and!; by vm_compute.
Qed.

Lemma miss_step {rule : TieRule} g f gd rect l1 l2 :
  game_data g = Some gd →
  food_objects gd = l1 ++ f :: l2 →
  NoDup (oid <$> food_objects gd) → imgs_ok (food_objects gd) →
  move_y (food_rect (oval f)) (food_speed (oval f)) = Some rect →
  colliderect rect (character_rect g) = false → height g < top rect →
  ∃ g' gd',
    food_step g f = Some g' ∧ game_data g' = Some gd'
    ∧ food_objects gd' = l1 ++ l2
    ∧ missed_food gd' = missed_food gd + 1 ∧ combo gd' = 0
    ∧ current_state g'
      = (if missed_food gd + 1 >=? max_missed_food gd
         then GAME_OVER else current_state g).
Proof.
  intros Hgd Hobjs Hnd Himg Hmove Hcol Htop.
  assert (Hwrite : obj_write (moved f rect) (food_objects gd)
                   = l1 ++ moved f rect :: l2).
  { rewrite Hobjs. apply obj_write_at; [done|by rewrite <- Hobjs]. }
  assert (Hremove : py_remove (oval (moved f rect)) (l1 ++ moved f rect :: l2)
                    = Some (l1 ++ l2)).
  { apply py_remove_at; [done|].
    rewrite Hobjs in Hnd, Himg. unfold imgs_ok in Himg.
    rewrite fmap_app, fmap_cons in Hnd.
    apply NoDup_app in Hnd as (_ & Hdisj & _).
    apply Forall_app in Himg as [Himg1 [Hf _]%Forall_cons].
    rewrite Forall_forall in Himg1. apply Forall_forall. intros x Hx Heq.
    apply (Hdisj (oid x)).
    - apply list_elem_of_fmap. by exists x.
    - rewrite <- (Himg1 x Hx), Heq. simpl. rewrite Hf. left. }
  unfold food_step. rewrite Hgd. cbn [mbind option_bind]. rewrite Hmove.
  cbn [mbind option_bind]. fold (moved f rect).
  change (food_rect (oval (moved f rect))) with rect.
  rewrite Hcol. replace (top rect >? height g) with true by lia.
  gd_simpl. rewrite Hwrite, Hremove. gd_simpl.
  destruct (missed_food gd + 1 >=? max_missed_food gd);
    eexists; eexists; (split; [reflexivity|]); by gd_simpl.
Qed.

(** C1, amended. A miss removes the item, adds one to the miss counter
    and resets the combo, and ends the round when the counter has reached
    [max_missed_food]; while a reachable round is active its miss counter
    is below the maximum of 3; after every tick the round is either still
    playing with the counter below the maximum or over with the counter at
    or above it; and once the round is over no tick runs. *)
Theorem C1_miss_and_termination {rule : TieRule} :
  (∀ g f gd rect l1 l2,
     game_data g = Some gd →
     food_objects gd = l1 ++ f :: l2 →
     NoDup (oid <$> food_objects gd) → imgs_ok (food_objects gd) →
     move_y (food_rect (oval f)) (food_speed (oval f)) = Some rect →
     colliderect rect (character_rect g) = false → height g < top rect →
     ∃ g' gd',
       food_step g f = Some g' ∧ game_data g' = Some gd'
       ∧ food_objects gd' = l1 ++ l2
       ∧ missed_food gd' = missed_food gd + 1 ∧ combo gd' = 0
       ∧ current_state g'
         = (if missed_food gd + 1 >=? max_missed_food gd
            then GAME_OVER else current_state g))
  ∧ (∀ g, reachable g → active g →
       ∃ gd, game_data g = Some gd
             ∧ missed_food gd < max_missed_food gd ∧ max_missed_food gd = 3)
  ∧ (∀ g i g',
       reachable g → current_state g = PLAYING → update g i = Some g' →
       ∃ gd', game_data g' = Some gd'
              ∧ ((current_state g' = PLAYING
                  ∧ missed_food gd' < max_missed_food gd')
                 ∨ (current_state g' = GAME_OVER
                    ∧ max_missed_food gd' ≤ missed_food gd')))
  ∧ (∀ g i, current_state g = GAME_OVER → update g i = Some g).
Proof.
  split; [exact miss_step|]. split; [|split].
  - intros g Hreach Hact. apply reachable_game_ok in Hreach.
    unfold game_ok in Hreach. destruct (game_data g) as [gd|]; [|done].
    destruct Hreach as [Hok Hmiss]. exists gd. split; [done|].
    split; [by apply Hmiss|]. by destruct Hok.
  - intros g i g' Hreach Hcs Hup. apply reachable_game_ok in Hreach.
    unfold game_ok in Hreach.
    destruct (game_data g) as [gd|] eqn:Hgd;
      [|destruct Hreach; by left].
    destruct Hreach as [Hok Hmiss]. specialize (Hmiss (or_introl Hcs)).
    apply update_inv in Hup as [[-> _]|(_ & _ & g1 & gd1 & Htick & Hgd1 & ->)].
    { exists gd. split; [done|]. by left. }
    destruct (update_game_state_round g i g1 gd Htick Hgd Hok)
      as (_ & gd' & Hgd' & _ & _ & _ & _ & Hms).
    specialize (Hms Hcs Hmiss). unfold miss_state_ok in Hms.
    rewrite Hgd' in Hms. exists gd'.
    by destruct (score gd1 >? high_score g1), (write_ok i).
  - intros g i Hcs. unfold update. by rewrite Hcs.
Qed.

Lemma C1_miss_and_termination_witness :
  (∃ g' gd', food_step double_miss_game_0 double_miss_first = Some g'
             ∧ game_data g' = Some gd'
             ∧ food_objects gd' = double_miss_rest
             ∧ missed_food gd' = 3 ∧ combo gd' = 0
             ∧ current_state g' = GAME_OVER)
  ∧ (∃ gd, game_data double_miss_game = Some gd ∧ missed_food gd < 3)
  ∧ update double_miss_game_2 example_input = Some double_miss_game_2.
Proof.
  destruct C1_miss_and_termination as (Hmiss & Hinv & _ & Hover).
  split; [|split].
  - destruct (Hmiss double_miss_game_0 double_miss_first double_miss_round_0
                (mkRect 800 801 60 60) [] double_miss_rest)
      as (g' & gd' & Hstep & Hgd' & Hobjs & Hm & Hc & Hcs).
    + reflexivity.
    + vm_compute. reflexivity.
    + apply (bool_decide_unpack _). vm_compute. exact I.
    + apply (bool_decide_unpack _). vm_compute. exact I.
    + vm_compute. reflexivity.
    + vm_compute. reflexivity.
    + vm_compute. reflexivity.
    + exists g', gd'. split; [exact Hstep|]. split; [exact Hgd'|].
      split; [exact Hobjs|]. split; [exact Hm|]. split; [exact Hc|exact Hcs].
  - destruct (Hinv double_miss_game) as (gd & Hgd & Hlt & Hmax).
    + apply (run_ticks_reachable miss_run_input 996 1 started_game).
      * apply reachable_started_game.
      * vm_compute. reflexivity.
    + left. vm_compute. reflexivity.
    + exists gd. split; [exact Hgd|]. rewrite Hmax in Hlt. exact Hlt.
  - apply Hover. vm_compute. reflexivity.
Defined.

(** ** Spawning *)

Section Spawning.

Context `{!TieRule}.

Lemma clamp_x_range w v : 200 ≤ w → 100 ≤ clamp_x w v ≤ w - 100.
Proof. unfold clamp_x. lia. Qed.


Lemma choose_spawn_x_range w px d :
  700 ≤ w → (spawn_range w px).1 ≤ x_draw d ≤ (spawn_range w px).2 →
  100 ≤ choose_spawn_x w px d ≤ w - 100.
Proof.
  unfold spawn_range, choose_spawn_x. intros Hw.
  destruct (px <? 300); [cbn [fst snd]; lia|].
  destruct (px >? w - 300); [cbn [fst snd]; lia|].
  cbn [fst snd]. intros Hx.
  destruct (Py.lt _ _); [apply clamp_x_range|]; lia.
Qed.

Lemma weights_positive :
  Py.lt (Py.Int 0) (Py.Float (weight APPLE)) = true
  ∧ Py.lt (Py.Int 0) (Py.Float (weight BANANA)) = true
  ∧ Py.lt (Py.Int 0) (Py.Float (weight SPECIAL)) = true
  ∧ Py.lt (Py.Int 0) (Py.Int 0) = false.
Proof. split_and!; by vm_compute. Qed.

End Spawning.



(** C6. A spawn whose image load raises an exception other than
    [pygame.error] appends nothing, whatever the draws: the exception
    leaves [spawn_food] and the tick, and the recovery of the frame loop
    drops the round.  In the first spawn of a round, at tick 45, with
    the image file missing: the spawn and the tick raise, and the game
    is back in the lobby without a round. *)
Theorem C6_spawn_raises_on_missing_image {rule : TieRule} :
  (∀ self gd d, image_load d = OtherError → spawn_food self gd d = None)
  ∧ (∀ self gd gd' d,
       spawn_food self gd d = Some gd' → image_load d ≠ OtherError)
  ∧ (∀ g i gd,
       current_state g = PLAYING → paused g = false →
       game_data g = Some gd →
       current_spawn_rate gd ≤ spawn_timer gd + 1 →
       level_timer gd + 1 < 500 →
       key_a i = false → key_d i = false →
       image_load (draws i) = OtherError →
       update g i = None
       ∧ step g (handle_crash g)
       ∧ current_state (handle_crash g) = LOBBY
       ∧ game_data (handle_crash g) = None).
Proof.
  split; [exact spawn_food_raises|]. split.
  { intros self gd gd' d Hspawn Hl.
    by rewrite (spawn_food_raises self gd d Hl) in Hspawn. }
  intros g i gd Hcs Hp Hgd Hrate Hlevel Ha Hd Hl.
  assert (Hup : update g i = None).
  { unfold update. rewrite Hcs, Hgd, Hp. cbn [negb].
    unfold update_game_state. rewrite Hgd, Ha, Hd.
    cbn [andb mbind option_bind].
    rewrite update_difficulty_tick by done. cbn [mbind option_bind]. gd_simpl.
    replace (spawn_timer gd + 1 >=? current_spawn_rate gd) with true by lia.
    by rewrite (spawn_food_raises _ _ _ Hl). }
  split; [exact Hup|]. split; [|done].
  replace g with (set_character_rect (character_rect g) g) at 2
    by (by destruct g).
  by apply step_update_crash with i.
Qed.

Lemma C6_spawn_raises_on_missing_image_witness :
  spawn_food started_game (GameData_init 0) missing_image_draws = None
  ∧ update spawn_due_game missing_image_input = None
  ∧ step spawn_due_game (handle_crash spawn_due_game)
  ∧ current_state (handle_crash spawn_due_game) = LOBBY
  ∧ game_data (handle_crash spawn_due_game) = None.
Proof.
  destruct C6_spawn_raises_on_missing_image as (Hraise & _ & Htick).
  split.
  - apply Hraise. reflexivity.
  - destruct (Htick spawn_due_game missing_image_input
                (default (GameData_init 0) (game_data spawn_due_game)))
      as (Hup & Hstep & Hcs & Hgd).
    + reflexivity.
    + reflexivity.
    + reflexivity.
    + vm_compute. discriminate.
    + vm_compute. reflexivity.
    + reflexivity.
    + reflexivity.
    + reflexivity.
    + split; [exact Hup|]. split; [exact Hstep|]. split; [exact Hcs|exact Hgd].
Defined.

(** ** The high score and the analytics aggregate *)

Section Session.

Context `{!TieRule}.

Lemma food_step_frame g f g' : food_step g f = Some g' → same_frame g g'.
Proof.
  intros (gd & rect & _ & _ & Hcases)%food_step_inv.
  destruct Hcases as [(_ & p & objs & _ & _ & ->)
                     |[(_ & _ & objs & _ & ->)|(_ & _ & ->)]];
    try destruct (missed_food gd + 1 >=? max_missed_food gd);
    unfold same_frame; gd_simpl; by split_and!.
Qed.

Lemma update_game_state_frame g i g' :
  update_game_state g i = Some g' → same_frame g g'.
Proof.
  intros (gd & rect & gd1 & gd2 & _ & _ & _ & Hloop)%update_game_state_inv.
  etrans; [|eapply (for_each_preorder same_frame); [|exact Hloop]].
  - unfold same_frame. gd_simpl. by split_and!.
  - intros s a s' _. apply food_step_frame.
Qed.

Lemma show_game_over_high_score g gd w :
  high_score (show_game_over g gd w) = Z.max (high_score g) (score gd).
Proof.
  unfold show_game_over. destruct (score gd >? high_score g) eqn:Hgt.
  - unfold save_high_score. destruct w; gd_simpl; lia.
  - lia.
Qed.

Lemma update_high_score g i g' :
  update g i = Some g' → current_state g = PLAYING → paused g = false →
  is_Some (game_data g) →
  ∃ gd', game_data g' = Some gd'
         ∧ high_score g' = Z.max (high_score g) (score gd').
Proof.
  intros [[_ Hnot]|(_ & _ & g1 & gd1 & Htick & Hgd1 & ->)]%update_inv Hcs Hp Hgd.
  { by destruct Hnot. }
  apply update_game_state_frame in Htick as (_ & _ & <- & _).
  exists gd1. destruct (score gd1 >? high_score g1) eqn:Hgt.
  - unfold save_high_score. destruct (write_ok i); gd_simpl; (split; [done|lia]).
  - split; [done|lia].
Qed.

Lemma handle_mouse_click_session g pos now :
  high_score (handle_mouse_click g pos now) = high_score g
  ∧ analytics (handle_mouse_click g pos now) = analytics g.
Proof.
  by destruct (handle_mouse_click_cases g pos now)
    as [[-> _]|[(st & -> & _)| ->]].
Qed.

(** No step of the frame loop lowers the high score or changes the
    analytics aggregate; only quitting writes it to its file. *)
Lemma step_session_round g g' :
  round_step g g' → high_score g ≤ high_score g' ∧ analytics g' = analytics g.
Proof.
  intros Hround.
  destruct Hround as [g0 i g1 Hup|g0 w g1 Hr|g0 key now g1 Hk|g0 pos now _].
  - apply update_inv in Hup as [[-> _]|(_ & _ & g2 & gd2 & Htick & _ & ->)];
      [done|].
    apply update_game_state_frame in Htick as (_ & _ & <- & _ & <- & _).
    destruct (score gd2 >? high_score g2) eqn:Hgt; [|done].
    unfold save_high_score. destruct (write_ok i); gd_simpl; (split; [lia|done]).
  - apply render_inv in Hr
      as [(_ & [[_ ->]|(gd & gd' & _ & _ & ->)])|[(_ & ->)|(_ & _ & ->)]];
      try done.
    destruct (render_game_over_fields g0 w) as (_ & _ & ->).
    split; [|done]. unfold render_game_over.
    destruct (game_data g0) as [gd|]; [|done].
    rewrite show_game_over_high_score. lia.
  - by destruct (handle_keydown_fields g0 key now g1 Hk) as (_ & -> & -> & _).
  - by destruct (handle_mouse_click_session g0 pos now) as [-> ->].
Qed.

Lemma step_session g g' :
  step g g' →
  high_score g ≤ high_score g'
  ∧ data (analytics g') = data (analytics g)
  ∧ (analytics g' = analytics g
     ∨ ∃ hs_ok an_ok, g' = quit_game hs_ok an_ok g).
Proof.
  intros [g0 g1 Hround|g0 pos now _|g0 i r _|g0 w _|g0 key now _
         |g0 hs_ok an_ok].
  - destruct (step_session_round g0 g1 Hround) as [? ->].
    split_and!; [done|done|by left].
  - destruct (handle_mouse_click_session g0 pos now) as [-> ->].
    split_and!; [done|done|by left].
  - split_and!; [done|done|by left].
  - split_and!; [done|done|by left].
  - split_and!; [done|done|by left].
  - destruct (quit_game_fields g0 hs_ok an_ok) as (_ & _ & -> & -> & _).
    split_and!; [done|done|]. right. by eexists _, _.
Qed.

(** [update_session] applied to two finished rounds. *)
Lemma update_session_two_rounds :
  (a ← update_session (mkAnalytics Analytics_data_init None)
         (finished_round 10 5) true;
   a ← update_session a (finished_round 25 8) true;
   Some (data a !! "games_played", data a !! "total_score",
         data a !! "max_score", data a !! "items_caught",
         bool_decide (analytics_file a = Some (data a))))
  = Some (Some 2, Some 35, Some 25, Some 13, true).
Proof. by vm_compute. Qed.

End Session.

(** C8. The code never calls [update_session]: the tick that ends the
    round of [last_miss_game], the game-over frame after it and the click
    back to the lobby leave the aggregate at its initial zeros, with
    nothing written to [analytics.json]. *)
Theorem C8_round_end_leaves_analytics :
  (g ← update last_miss_game example_input;
   g ← render g true;
   let g := handle_mouse_click g (600, 530) 0 in
   Some (current_state g, missed_food <$> game_data g,
         data (analytics g) !! "games_played",
         data (analytics g) !! "total_score",
         data (analytics g) !! "max_score",
         data (analytics g) !! "items_caught",
         analytics_file (analytics g)))
  = Some (LOBBY, Some 4, Some 0, Some 0, Some 0, Some 0, None).
Proof. by vm_compute. Qed.

(** C10. A playing tick and the game-over screen both set the high score
    to the maximum of its old value and the round's score, and no step of
    the frame loop lowers it. *)
Theorem C10_high_score_monotone {rule : TieRule} :
  (∀ g i g',
     update g i = Some g' → current_state g = PLAYING → paused g = false →
     is_Some (game_data g) →
     ∃ gd', game_data g' = Some gd'
            ∧ high_score g' = Z.max (high_score g) (score gd'))
  ∧ (∀ g gd w,
       high_score (show_game_over g gd w) = Z.max (high_score g) (score gd))
  ∧ (∀ g g', step g g' → high_score g ≤ high_score g').
Proof.
  split; [exact update_high_score|]. split; [exact show_game_over_high_score|].
  intros g g' Hstep. by apply step_session in Hstep as [? _].
Qed.

Lemma C10_high_score_monotone_witness :
  (∃ g' gd', update started_game example_input = Some g'
             ∧ game_data g' = Some gd'
             ∧ high_score g' = Z.max 0 (score gd'))
  ∧ (∃ g', render record_game true = Some g' ∧ 0 ≤ high_score g').
Proof.
  destruct C10_high_score_monotone as (Hupdate & _ & Hstep). split.
  - assert (Hup : ∃ g', update started_game example_input = Some g').
    { eexists. vm_compute. reflexivity. }
    destruct Hup as [g' Hup].
    destruct (Hupdate started_game example_input g' Hup) as (gd' & Hgd' & Hhs).
    + reflexivity.
    + reflexivity.
    + eexists. reflexivity.
    + exists g', gd'. split; [exact Hup|]. split; [exact Hgd'|exact Hhs].
  - assert (Hr : ∃ g', render record_game true = Some g').
    { eexists. vm_compute. reflexivity. }
    destruct Hr as [g' Hr]. exists g'. split; [exact Hr|].
    apply (Hstep record_game g'). apply step_round.
    apply rs_render with true. exact Hr.
Defined.

(** ** Reachable rounds meet the side conditions above *)

Section SideConditions.

Context `{!TieRule}.

(** The difficulty multiplier of a reachable round is a float, the
    combo is not negative and the score multiplier is [1.0]: the
    hypotheses of C2, C5 and C6 on the round hold in every reachable
    state. *)
Lemma reachable_round g gd :
  reachable g → game_data g = Some gd →
  0 ≤ combo gd
  ∧ score_multiplier gd = Py.Float (Py.dec 10 10)
  ∧ base_spawn_rate gd = 45
  ∧ NoDup (oid <$> food_objects gd) ∧ imgs_ok (food_objects gd)
  ∧ NoDup (oid <$> score_popups gd)
  ∧ NoDup (oid <$> achievement_messages gd)
  ∧ ∃ dm, difficulty_multiplier gd = Py.Float dm.
Proof.
  intros Hreach%reachable_game_ok Hgd. unfold game_ok in Hreach.
  rewrite Hgd in Hreach. destruct Hreach as [[? ? ? ? Hlevel Hfood ? Hpop Hmsg] _].
  destruct Hfood, Hpop, Hmsg. split_and!; try done.
  destruct Hlevel as [[_ Hd]|[_ Hd]].
  - injection Hd as -> _ _ _. by eexists.
  - revert Hd. unfold spec_level_params, derived, Py.mul, Py.add, Py.arith.
    cbn [Py.to_float].
    destruct (Py.int_to_float (level gd - 1)) as [f|]; [|done].
    cbn [mbind option_bind Py.to_float].
    destruct (Py.int_to_float 10); [|done].
    cbn [mbind option_bind]. intros [= <- _ _ _]. by eexists.
Qed.

End SideConditions.

(** ** The item loop as a whole *)

Section ItemLoopWhole.

Context `{!TieRule}.

Lemma py_remove_moved f rect l1 l2 :
  NoDup (oid <$> (l1 ++ f :: l2)) → imgs_ok (l1 ++ f :: l2) →
  py_remove (oval (moved f rect)) (l1 ++ moved f rect :: l2) = Some (l1 ++ l2).
Proof.
  intros Hnd Himg. apply py_remove_at; [done|].
  unfold imgs_ok in Himg. rewrite fmap_app, fmap_cons in Hnd.
  apply NoDup_app in Hnd as (_ & Hdisj & _).
  apply Forall_app in Himg as [Himg1 [Hf _]%Forall_cons].
  rewrite Forall_forall in Himg1. apply Forall_forall. intros x Hx Heq.
  apply (Hdisj (oid x)).
  - apply list_elem_of_fmap. by exists x.
  - rewrite <- (Himg1 x Hx), Heq. simpl. rewrite Hf. left.
Qed.

Lemma count_fate_cons k player h f l :
  count_fate k player h (f :: l)
  = (if decide (item_fate player h f = Some k) then 1 else 0)
    + count_fate k player h l.
Proof.
  unfold count_fate. rewrite filter_cons. case_decide; simpl length; lia.
Qed.

Lemma count_fate_nonneg k player h l : 0 ≤ count_fate k player h l.
Proof. unfold count_fate. lia. Qed.

Lemma survivors_cons player h f l :
  survivors player h (f :: l)
  = match survivor player h f with
    | Some x => x :: survivors player h l
    | None => survivors player h l
    end.
Proof. reflexivity. Qed.

Lemma head_fate player h f rect k :
  move_y (food_rect (oval f)) (food_speed (oval f)) = Some rect →
  fate player h rect = k →
  item_fate player h f = Some k
  ∧ survivor player h f = (if decide (k = Falling) then Some (moved f rect) else None).
Proof.
  intros Hmove <-. unfold item_fate, survivor. rewrite Hmove. done.
Qed.

Lemma item_loop g' rest : ∀ g gd kept,
  game_data g = Some gd →
  food_objects gd = kept ++ rest →
  NoDup (oid <$> (kept ++ rest)) → imgs_ok (kept ++ rest) →
  for_each food_step g rest = Some g' →
  ∃ gd', game_data g' = Some gd'
    ∧ food_objects gd'
      = kept ++ survivors (character_rect g) (height g) rest
    ∧ total_catches gd'
      = total_catches gd + count_fate Caught (character_rect g) (height g) rest
    ∧ missed_food gd'
      = missed_food gd + count_fate Missed (character_rect g) (height g) rest
    ∧ max_missed_food gd' = max_missed_food gd
    ∧ current_state g'
      = (if decide (0 < count_fate Missed (character_rect g) (height g) rest
                    ∧ max_missed_food gd ≤ missed_food gd')
         then GAME_OVER else current_state g).
Proof.
  induction rest as [|f rest IH]; intros g gd kept Hgd Hobjs Hnd Himg.
  { simpl. intros [= <-]. exists gd. unfold count_fate. simpl.
    rewrite app_nil_r in *. split_and!; try done; try lia. }
  cbn [for_each]. destruct (food_step g f) as [g1|] eqn:Hstep; [|discriminate].
  cbn [mbind option_bind]. intros Hloop.
  apply food_step_inv in Hstep as (gd0 & rect & Hgd0 & Hmove & Hcases).
  assert (gd0 = gd) as -> by congruence.
  assert (Hwrite : food_objects (with_moved gd (moved f rect))
                   = kept ++ moved f rect :: rest).
  { unfold with_moved. gd_simpl. rewrite Hobjs. by apply obj_write_at. }
  pose proof (py_remove_moved f rect kept rest Hnd Himg) as Hremove.
  assert (Hnd' : NoDup (oid <$> (kept ++ rest))).
  { revert Hnd. rewrite !fmap_app, fmap_cons. intros Hnd.
    eapply sublist_NoDup; [exact Hnd|].
    apply sublist_app; [done|]. by apply sublist_cons. }
  assert (Himg' : imgs_ok (kept ++ rest)).
  { eapply imgs_ok_sublist; [|exact Himg].
    apply sublist_app; [done|]. by apply sublist_cons. }
  assert (Hnd2 : NoDup (oid <$> ((kept ++ [moved f rect]) ++ rest))).
  { rewrite <- app_assoc. revert Hnd. by rewrite !fmap_app, !fmap_cons. }
  assert (Himg2 : imgs_ok ((kept ++ [moved f rect]) ++ rest)).
  { rewrite <- app_assoc. unfold imgs_ok in *.
    apply Forall_app in Himg as [? [? ?]%Forall_cons].
    apply Forall_app. split; [done|]. by apply Forall_cons. }
  rewrite survivors_cons, !count_fate_cons.
  destruct Hcases as [(Hcol & p & objs & Hp & Hobjs' & ->)
                     |[(Hcol & Htop & objs & Hobjs' & ->)|(Hcol & Htop & ->)]].
  - destruct (head_fate (character_rect g) (height g) f rect Caught Hmove)
      as [-> ->]; [unfold fate; by rewrite Hcol|].
    rewrite Hwrite, Hremove in Hobjs'. injection Hobjs' as <-.
    destruct (IH (set_game_data
                    (Some (caught (with_moved gd (moved f rect)) (moved f rect) p
                             (kept ++ rest))) g)
                (caught (with_moved gd (moved f rect)) (moved f rect) p
                      (kept ++ rest)) kept eq_refl
                (proj1 (proj2 (proj2 (proj2 (proj2 (caught_fields _ _ _ _))))))
                Hnd' Himg' Hloop)
      as (gd' & Hgd' & Hf' & Hc' & Hm' & Hx' & Hs').
    destruct (caught_fields (with_moved gd (moved f rect)) (moved f rect) p
                (kept ++ rest)) as (_ & _ & _ & Htc & _ & _).
    destruct (derived_caught (with_moved gd (moved f rect)) (moved f rect) p
                (kept ++ rest)) as (_ & _ & Hxm & Hmf).
    rewrite Htc in Hc'. rewrite Hmf in Hm'. rewrite Hxm in Hx', Hs'.
    clear Htc Hmf Hxm. unfold with_moved in Hc', Hm', Hx', Hs'.
    cbn [total_catches missed_food max_missed_food set_food_objects
         character_rect height current_state set_game_data] in Hf', Hc', Hm', Hx', Hs'.
    exists gd'. rewrite (decide_True (P := Some Caught = Some Caught)) by done.
    rewrite (decide_False (P := Some Caught = Some Missed)) by done.
    rewrite (decide_False (P := Caught = Falling)) by done.
    split; [done|]. split; [done|]. split; [lia|]. split; [lia|]. split; [done|].
    rewrite Hs'. repeat case_decide; try done; lia.
  - destruct (head_fate (character_rect g) (height g) f rect Missed Hmove)
      as [-> ->];
      [unfold fate; rewrite Hcol; by replace (top rect >? height g) with true by lia|].
    rewrite Hwrite, Hremove in Hobjs'. injection Hobjs' as <-.
    pose proof (count_fate_nonneg Missed (character_rect g) (height g) rest).
    rewrite (decide_False (P := Some Missed = Some Caught)) by done.
    rewrite (decide_True (P := Some Missed = Some Missed)) by done.
    rewrite (decide_False (P := Missed = Falling)) by done.
    destruct (missed_food gd + 1 >=? max_missed_food gd) eqn:Hge.
    + destruct (IH (set_current_state GAME_OVER
                      (set_game_data
                         (Some (set_game_over true
                                  (missed (with_moved gd (moved f rect))
                                     (kept ++ rest)))) g))
                  (set_game_over true
                        (missed (with_moved gd (moved f rect)) (kept ++ rest)))
                  kept eq_refl eq_refl Hnd' Himg' Hloop)
        as (gd' & Hgd' & Hf' & Hc' & Hm' & Hx' & Hs').
      unfold missed, with_moved in Hc', Hm', Hx', Hs'.
      cbn [total_catches missed_food max_missed_food set_food_objects
           set_game_over set_combo set_missed_food set_current_state
           character_rect height current_state set_game_data] in Hf', Hc', Hm', Hx', Hs'.
      exists gd'.
      split; [done|]. split; [done|]. split; [lia|]. split; [lia|]. split; [done|].
      rewrite Hs'. repeat case_decide; try done; lia.
    + destruct (IH (set_game_data
                      (Some (missed (with_moved gd (moved f rect)) (kept ++ rest)))
                      g)
                  (missed (with_moved gd (moved f rect)) (kept ++ rest))
                  kept eq_refl eq_refl Hnd' Himg' Hloop)
        as (gd' & Hgd' & Hf' & Hc' & Hm' & Hx' & Hs').
      unfold missed, with_moved in Hc', Hm', Hx', Hs'.
      cbn [total_catches missed_food max_missed_food set_food_objects
           set_game_over set_combo set_missed_food set_current_state
           character_rect height current_state set_game_data] in Hf', Hc', Hm', Hx', Hs'.
      exists gd'.
      split; [done|]. split; [done|]. split; [lia|]. split; [lia|]. split; [done|].
      rewrite Hs'. repeat case_decide; try done; lia.
  - destruct (head_fate (character_rect g) (height g) f rect Falling Hmove)
      as [-> ->];
      [unfold fate; rewrite Hcol; by replace (top rect >? height g) with false by lia|].
    rewrite (decide_False (P := Some Falling = Some Caught)) by done.
    rewrite (decide_False (P := Some Falling = Some Missed)) by done.
    rewrite (decide_True (P := Falling = Falling)) by done.
    destruct (IH (set_game_data (Some (with_moved gd (moved f rect))) g)
                (with_moved gd (moved f rect)) (kept ++ [moved f rect])
                eq_refl) as (gd' & Hgd' & Hf' & Hc' & Hm' & Hx' & Hs');
      [by rewrite Hwrite, <- app_assoc|done|done|exact Hloop|].
    unfold with_moved in Hc', Hm', Hx', Hs'.
    cbn [total_catches missed_food max_missed_food set_food_objects
         character_rect height current_state set_game_data] in Hf', Hc', Hm', Hx', Hs'.
    rewrite <- app_assoc in Hf'. exists gd'.
    split; [done|]. split; [done|]. split; [lia|]. split; [lia|]. split; [done|].
    rewrite Hs'. repeat case_decide; try done; lia.
Qed.

End ItemLoopWhole.

(** ** Bounds on the points of a catch *)

Section PointBounds.

(** The combos below the saturation of the multiplier, by evaluation. *)
Lemma small_combos_bounded :
  forallb (λ c, forallb (points_bounded c) [APPLE; BANANA; SPECIAL]) (seqZ 1 63)
  = true.
Proof. by vm_compute. Qed.

Lemma small_combos_rising :
  forallb (λ c, forallb (points_rising c) [APPLE; BANANA; SPECIAL]) (seqZ 1 63)
  = true.
Proof. by vm_compute. Qed.

Lemma points_bounded_small c t : 1 ≤ c < 64 → points_bounded c t = true.
Proof.
  intros Hc. pose proof small_combos_bounded as H. rewrite forallb_forall in H.
  specialize (H c). rewrite forallb_forall in H. apply H.
  - apply list_elem_of_In. apply elem_of_seqZ. lia.
  - destruct t; simpl; tauto.
Qed.

Lemma points_rising_small c t : 1 ≤ c < 64 → points_rising c t = true.
Proof.
  intros Hc. pose proof small_combos_rising as H. rewrite forallb_forall in H.
  specialize (H c). rewrite forallb_forall in H. apply H.
  - apply list_elem_of_In. apply elem_of_seqZ. lia.
  - destruct t; simpl; tauto.
Qed.

(** From combo 64 on the multiplier is capped, whatever the rounding. *)
Lemma catch_points_saturated c t :
  64 ≤ c → is_Some (Py.int_to_float c) →
  catch_points t c (Py.Float (Py.dec 10 10)) = Some (4 * points t).
Proof.
  intros Hc [fc Hfc]. unfold catch_points.
  destruct (Py.mul (Py.Int c) (Py.Float (Py.dec 15 100)) ≫= Py.add (Py.Int 1))
    as [x|] eqn:Hx.
  - destruct (combo_sum_above c x Hc Hx) as (f & -> & Hf).
    cbn [mbind option_bind]. rewrite min_4_saturates by done.
    by destruct t; vm_compute.
  - exfalso. revert Hx. unfold Py.mul, Py.add, Py.arith. cbn [Py.to_float].
    rewrite Hfc. cbn [mbind option_bind Py.to_float]. by rewrite int_to_float_1.
Qed.

Lemma catch_points_convertible c t p :
  catch_points t c (Py.Float (Py.dec 10 10)) = Some p →
  is_Some (Py.int_to_float c).
Proof.
  unfold catch_points.
  destruct (Py.mul (Py.Int c) _) eqn:Hmul; [|done]. intros _.
  revert Hmul. unfold Py.mul, Py.arith. cbn [Py.to_float].
  destruct (Py.int_to_float c); [by eauto|done].
Qed.

Lemma catch_points_bounds c t p :
  1 ≤ c → catch_points t c (Py.Float (Py.dec 10 10)) = Some p →
  points t ≤ p ≤ 4 * points t ∧ (20 ≤ c → p = 4 * points t).
Proof.
  intros Hc Hp. destruct (decide (c < 64)) as [Hlt|Hge].
  - pose proof (points_bounded_small c t (conj Hc Hlt)) as Hb.
    unfold points_bounded in Hb. rewrite Hp in Hb.
    apply andb_prop in Hb as [[H1 H2]%andb_prop H3].
    apply Z.leb_le in H1, H2. split; [lia|]. intros H20.
    apply orb_prop in H3 as [H3|H3]; [apply Z.ltb_lt in H3; lia|].
    by apply Z.eqb_eq in H3.
  - rewrite catch_points_saturated in Hp;
      [|lia|by eapply catch_points_convertible].
    injection Hp as <-. destruct t; simpl; lia.
Qed.

Lemma catch_points_step c t :
  1 ≤ c → c + 1 < 2 ^ 1023 →
  ∃ p q, catch_points t c (Py.Float (Py.dec 10 10)) = Some p
         ∧ catch_points t (c + 1) (Py.Float (Py.dec 10 10)) = Some q ∧ p ≤ q.
Proof.
  intros Hc Hmax. destruct (decide (c < 64)) as [Hlt|Hge].
  - pose proof (points_rising_small c t (conj Hc Hlt)) as Hb.
    unfold points_rising in Hb.
    destruct (catch_points t c _) as [p|]; [|done].
    destruct (catch_points t (c + 1) _) as [q|]; [|done].
    apply Z.leb_le in Hb. eauto.
  - exists (4 * points t), (4 * points t).
    rewrite !catch_points_saturated; [done|lia|apply int_to_float_total; lia
                                      |lia|apply int_to_float_total; lia].
Qed.

Lemma catch_points_mono t (n : nat) : ∀ c,
  1 ≤ c → c + Z.of_nat n < 2 ^ 1023 →
  ∃ p q, catch_points t c (Py.Float (Py.dec 10 10)) = Some p
         ∧ catch_points t (c + Z.of_nat n) (Py.Float (Py.dec 10 10)) = Some q
         ∧ p ≤ q.
Proof.
  induction n as [|n IH]; intros c Hc Hmax.
  - replace (c + Z.of_nat 0) with c by lia.
    destruct (catch_points_spec c t) as (p & Hp & _); [lia|apply int_to_float_total; lia|].
    exists p, p. split_and!; [done..|lia].
  - destruct (catch_points_step c t) as (p & q & Hp & Hq & Hpq); [lia..|].
    destruct (IH (c + 1)) as (q' & r & Hq' & Hr & Hqr); [lia..|].
    replace (c + 1 + Z.of_nat n) with (c + Z.of_nat (S n)) in Hr by lia.
    exists p, r. split_and!; [done..|]. assert (q' = q) by congruence. lia.
Qed.

End PointBounds.

(** ** Bounds on the level parameters *)

Section LevelBounds.

Lemma dec_12_100 : Py.dec 12 100 = S754_finite false 8646911284551352 (-56).
Proof. by vm_compute. Qed.

Lemma dec_25_1000 : Py.dec 25 1000 = S754_finite false 7205759403792794 (-58).
Proof. by vm_compute. Qed.

Lemma dec_6_10 : Py.dec 6 10 = S754_finite false 5404319552844595 (-53).
Proof. by vm_compute. Qed.

Lemma dec_35_100 : Py.dec 35 100 = S754_finite false 6305039478318694 (-54).
Proof. by vm_compute. Qed.

Lemma int_to_float_10 :
  Py.int_to_float 10 = Some (S754_finite false 5629499534213120 (-49)).
Proof. by vm_compute. Qed.

(** The levels below 65, by evaluation. *)
Lemma small_levels_bounded : forallb level_floats_bounded (seqZ 1 63) = true.
Proof. by vm_compute. Qed.

(** From level 65 on, whatever the rounding: the multiplier is at
    least 4, the chance and the speed are at their caps. *)
Lemma level_floats_large n fl :
  64 ≤ n → level_floats n = Some fl →
  ∃ dm, fl = (Py.Float dm, Py.Float (Py.dec 35 100), Py.Int 16)
        ∧ above_pow2 2 dm.
Proof.
  intros Hn. unfold level_floats, Py.mul, Py.add, Py.arith. cbn [Py.to_float].
  destruct (Py.int_to_float n) as [fn|] eqn:Hfn; [|done].
  cbn [mbind option_bind Py.to_float]. rewrite int_to_float_10.
  cbn [mbind option_bind]. intros [= <-].
  apply int_to_float_Some in Hfn as ->.
  assert (Hn6 : above_pow2 6 (Py.float_of_Z n)) by (apply float_of_Z_above; lia).
  assert (Hdm : above_pow2 2 (Py.fadd (Py.dec 10 10)
                                (Py.fmul (Py.float_of_Z n) (Py.dec 12 100)))).
  { rewrite dec_10_10, dec_12_100. apply fadd_above; [|lia].
    by apply (fmul_above 6 _ 8646911284551352 (-56)). }
  assert (Hsc : above_pow2 0 (Py.fadd (Py.dec 15 100)
                                (Py.fmul (Py.float_of_Z n) (Py.dec 25 1000)))).
  { rewrite dec_15_100, dec_25_1000. apply fadd_above; [|lia].
    by apply (fmul_above 6 _ 7205759403792794 (-58)). }
  assert (Hcs : above_pow2 5 (Py.fadd (S754_finite false 5629499534213120 (-49))
                                (Py.fmul (Py.float_of_Z n) (Py.dec 6 10)))).
  { rewrite dec_6_10. apply fadd_above; [|lia].
    by apply (fmul_above 6 _ 5404319552844595 (-53)). }
  eexists. split; [|exact Hdm]. f_equal; [f_equal|].
  - unfold Py.min, Py.lt, Py.compare. rewrite dec_35_100 at 1.
    by rewrite (above_compare 0 _ _ _ Hsc).
  - unfold Py.min, Py.lt, Py.compare.
    by rewrite (above_compare_Z 5 _ 16 Hcs).
Qed.

Lemma level_floats_bounds n dm sc cs :
  1 ≤ n → level_floats n = Some (dm, sc, cs) →
  py_ge dm (Py.Float (Py.dec 10 10)) = true
  ∧ py_ge sc (Py.Float (Py.dec 15 100)) = true
  ∧ py_le sc (Py.Float (Py.dec 35 100)) = true
  ∧ py_ge cs (Py.Int 10) = true
  ∧ py_le cs (Py.Int 16) = true
  ∧ (8 ≤ n → sc = Py.Float (Py.dec 35 100))
  ∧ (10 ≤ n → cs = Py.Int 16).
Proof.
  intros Hn Hfl. destruct (decide (n < 64)) as [Hlt|Hge].
  - pose proof small_levels_bounded as Hb. rewrite forallb_forall in Hb.
    specialize (Hb n).
    unfold level_floats_bounded in Hb. rewrite Hfl in Hb.
    assert (Hin : In n (seqZ 1 63)).
    { apply list_elem_of_In. apply elem_of_seqZ. lia. }
    apply Hb in Hin.
    apply andb_prop in Hin as [[[[[[H1 H2]%andb_prop H3]%andb_prop H4]%andb_prop
                                   H5]%andb_prop H6]%andb_prop H7].
    split; [exact H1|]. split; [exact H2|]. split; [exact H3|].
    split; [exact H4|]. split; [exact H5|]. split.
    + intros H8. apply orb_prop in H6 as [H6|H6]; [apply Z.ltb_lt in H6; lia|].
      by apply bool_decide_eq_true in H6.
    + intros H10. apply orb_prop in H7 as [H7|H7]; [apply Z.ltb_lt in H7; lia|].
      by apply bool_decide_eq_true in H7.
  - destruct (level_floats_large n _ ltac:(lia) Hfl) as (f & Heq & Hf).
    injection Heq as -> -> ->.
    split.
    { unfold py_ge, Py.compare. rewrite dec_10_10.
      by rewrite (above_compare 2 f). }
    split; [by vm_compute|]. split; [by vm_compute|].
    split; [by vm_compute|]. split; [by vm_compute|]. split; intros _; reflexivity.
Qed.

End LevelBounds.

(** ** Counters, timers and flags of reachable states *)

Section Counters.

Context `{!TieRule}.

Lemma points_positive t : 1 ≤ points t.
Proof. destruct t; simpl; lia. Qed.

Lemma counters_ok_init now : counters_ok (GameData_init now).
Proof. constructor; simpl; first [lia|split; [done|lia]]. Qed.

Lemma counters_ok_with_moved gd f :
  counters_ok gd → counters_ok (with_moved gd f).
Proof. intros []. by constructor. Qed.

Lemma counters_ok_caught gd f p objs :
  0 ≤ combo gd → 1 ≤ p → counters_ok gd → counters_ok (caught gd f p objs).
Proof.
  intros Hc Hp []. unfold caught. gd_simpl.
  destruct (combo gd + 1 =? 10); constructor; gd_simpl; try done; lia.
Qed.

Lemma counters_ok_missed gd objs :
  0 ≤ combo gd → counters_ok gd →
  counters_ok
    (if missed_food gd + 1 >=? max_missed_food gd
     then set_game_over true (missed gd objs) else missed gd objs).
Proof.
  intros Hc [? ? ? ? ? ? Hgo].
  destruct (missed_food gd + 1 >=? max_missed_food gd) eqn:Hge;
    unfold missed; constructor; gd_simpl; try done; try lia;
    (split; [intros Hover; try apply Hgo in Hover; lia
            |intros; first [done|lia]]).
Qed.

Lemma counters_ok_aged gd : counters_ok gd → counters_ok (aged gd).
Proof. intros []. by constructor. Qed.

(** One iteration of the item loop keeps the counters in order. *)
Lemma food_step_counters g f g' :
  food_img (oval f) = oid f → loop_inv g → food_step g f = Some g' → loop_inv g'.
Proof.
  intros Hf (gd & Hgd & Hok & Hcnt) Hstep.
  destruct (food_step_loop_rel g f g' Hf Hstep) as (_ & _ & Hrel).
  destruct (Hrel gd Hgd Hok) as (gd' & Hgd' & Hok' & _).
  exists gd'. split; [done|]. split; [done|].
  apply food_step_inv in Hstep as (gd0 & rect & Hgd0 & Hmove & Hcases).
  assert (gd0 = gd) as -> by congruence.
  assert (Hc : 0 ≤ combo gd) by (by destruct Hok).
  destruct Hcases as [(Hcol & p & objs & Hp & Hobjs & ->)
                     |[(Hcol & Htop & objs & Hobjs & ->)|(Hcol & Htop & ->)]].
  - injection Hgd' as <-.
    apply counters_ok_caught; [done| |by apply counters_ok_with_moved].
    assert (Hsm : score_multiplier gd = Py.Float (Py.dec 10 10)) by (by destruct Hok).
    rewrite Hsm in Hp.
    pose proof (catch_points_bounds (combo gd + 1) _ p ltac:(lia) Hp) as [Hb _].
    pose proof (points_positive (food_type (oval f))). lia.
  - pose proof (counters_ok_missed (with_moved gd (moved f rect)) objs Hc
                  (counters_ok_with_moved _ _ Hcnt)) as Hm.
    change (missed_food (with_moved gd (moved f rect))) with (missed_food gd) in Hm.
    change (max_missed_food (with_moved gd (moved f rect)))
      with (max_missed_food gd) in Hm.
    destruct (missed_food gd + 1 >=? max_missed_food gd);
      injection Hgd' as <-; exact Hm.
  - injection Hgd' as <-. by apply counters_ok_with_moved.
Qed.

(** The parts of a tick, with the tests that select them. *)
Lemma update_game_state_parts g i g' :
  update_game_state g i = Some g' →
  ∃ gd rect gd1 gd2,
    game_data g = Some gd
    ∧ update_difficulty gd = Some gd1
    ∧ ((spawn_timer gd1 + 1 < current_spawn_rate gd1
        ∧ gd2 = set_spawn_timer (spawn_timer gd1 + 1) gd1)
       ∨ (current_spawn_rate gd1 ≤ spawn_timer gd1 + 1
          ∧ ∃ gd3,
              spawn_food (set_character_rect rect g)
                (set_spawn_timer (spawn_timer gd1 + 1) gd1) (draws i) = Some gd3
              ∧ gd2 = set_spawn_timer 0 gd3))
    ∧ for_each food_step (set_game_data (Some gd2) (set_character_rect rect g))
        (food_objects gd2) = Some g'.
Proof.
  unfold update_game_state. destruct (game_data g) as [gd|]; [|discriminate].
  cbn [mbind option_bind].
  destruct (if key_a i && _ then _ else _) as [r1|]; [|discriminate].
  cbn [mbind option_bind].
  destruct (if key_d i && _ then _ else _) as [rect|]; [|discriminate].
  cbn [mbind option_bind].
  destruct (update_difficulty gd) as [gd1|] eqn:Hgd1; [|discriminate].
  cbn [mbind option_bind].
  change (spawn_timer (set_spawn_timer (spawn_timer gd1 + 1) gd1))
    with (spawn_timer gd1 + 1).
  change (current_spawn_rate (set_spawn_timer (spawn_timer gd1 + 1) gd1))
    with (current_spawn_rate gd1).
  destruct (spawn_timer gd1 + 1 >=? current_spawn_rate gd1) eqn:Hge.
  - destruct (spawn_food _ _ _) as [gd3|] eqn:Hgd3; [|discriminate].
    cbn [mbind option_bind fmap option_fmap option_map]. intros Hloop.
    exists gd, rect, gd1, (set_spawn_timer 0 gd3).
    split; [done|]. split; [done|]. split; [|done]. right. split; [lia|].
    by exists gd3.
  - cbn [mbind option_bind]. intros Hloop.
    exists gd, rect, gd1, (set_spawn_timer (spawn_timer gd1 + 1) gd1).
    split; [done|]. split; [done|]. split; [|done]. left. split; [lia|done].
Qed.

(** The difficulty update moves the level timer and nothing else that is
    counted; a level-up resets it and sets the spawn interval. *)
Lemma update_difficulty_counters gd gd1 :
  update_difficulty gd = Some gd1 → base_spawn_rate gd = 45 →
  0 ≤ level_timer gd < 500 →
  0 ≤ level_timer gd1 < 500
  ∧ (current_spawn_rate gd1 = current_spawn_rate gd ∨ 15 ≤ current_spawn_rate gd1)
  ∧ spawn_timer gd1 = spawn_timer gd
  ∧ combo gd1 = combo gd ∧ max_combo gd1 = max_combo gd
  ∧ total_catches gd1 = total_catches gd ∧ score gd1 = score gd
  ∧ missed_food gd1 = missed_food gd ∧ max_missed_food gd1 = max_missed_food gd
  ∧ game_over gd1 = game_over gd ∧ food_objects gd1 = food_objects gd.
Proof.
  intros Hup Hbase Hlt. destruct (decide (level_timer gd + 1 < 500)) as [Hs|Hs].
  - rewrite update_difficulty_tick in Hup by done. injection Hup as <-.
    gd_simpl. split_and!; try done; try lia; by left.
  - apply update_difficulty_level_up in Hup as (dm & sc & cs & _ & _ & _ & ->);
      [|lia].
    unfold leveled_up. gd_simpl. split_and!; try done; try lia; right; lia.
Qed.

Lemma spawn_food_counters self gd d gd' :
  spawn_food self gd d = Some gd' →
  level_timer gd' = level_timer gd
  ∧ current_spawn_rate gd' = current_spawn_rate gd
  ∧ combo gd' = combo gd ∧ max_combo gd' = max_combo gd
  ∧ total_catches gd' = total_catches gd ∧ score gd' = score gd
  ∧ missed_food gd' = missed_food gd ∧ max_missed_food gd' = max_missed_food gd
  ∧ game_over gd' = game_over gd
  ∧ ∃ food, food_objects gd' = food_objects gd ++ [food].
Proof.
  intros (food & _ & _ & ->)%spawn_food_inv. gd_simpl.
  split_and!; try done. by exists food.
Qed.

(** A whole tick keeps the counters in order. *)
Lemma update_game_state_counters g i g' gd :
  update_game_state g i = Some g' → game_data g = Some gd →
  round_ok gd → counters_ok gd → loop_inv g'.
Proof.
  intros (gd0 & rect & gd1 & gd2 & Hgd0 & Hgd1 & Hgd2 & Hloop)%update_game_state_parts
    Hgd Hok Hcnt.
  assert (gd0 = gd) as -> by congruence.
  pose proof (round_ok_update_difficulty gd gd1 Hok Hgd1) as Hok1.
  destruct (update_difficulty_counters gd gd1 Hgd1) as
    (Hlt & Hrate & Hst & Hc & Hmc & Htc & Hsc & Hm & Hx & Hgo & _);
    [by destruct Hok|by destruct Hcnt|].
  destruct Hcnt.
  assert (Hrate1 : 0 < current_spawn_rate gd1) by (destruct Hrate; lia).
  assert (Hover1 : game_over gd1 = true ↔ max_missed_food gd1 ≤ missed_food gd1).
  { by rewrite Hgo, Hx, Hm. }
  assert (H2 : round_ok gd2 ∧ counters_ok gd2).
  { destruct Hgd2 as [[Hlt2 ->]|(Hge2 & gd3 & Hgd3 & ->)].
    - split; [by apply round_ok_set_spawn_timer|].
      constructor; gd_simpl; try done; lia.
    - pose proof (round_ok_spawn_food _ _ _ _
                    (round_ok_set_spawn_timer gd1 (spawn_timer gd1 + 1) Hok1) Hgd3).
      split; [by apply round_ok_set_spawn_timer|].
      apply spawn_food_counters in Hgd3
        as (Hlt3 & Hr3 & Hc3 & Hmc3 & Htc3 & Hsc3 & Hm3 & Hx3 & Hgo3 & _).
      gd_simpl. constructor; gd_simpl; try lia.
      by rewrite Hgo3, Hx3, Hm3. }
  destruct H2 as [Hok2 Hcnt2].
  eapply (for_each_invariant loop_inv); [| |exact Hloop].
  - intros s a s' Ha. apply food_step_counters.
    destruct Hok2 as [_ _ _ _ _ _ Himg _ _]. unfold imgs_ok in Himg.
    rewrite Forall_forall in Himg. by apply Himg.
  - exists gd2. by gd_simpl.
Qed.

Lemma session_ok_same g g' :
  game_data g' = game_data g → current_state g' = current_state g →
  paused g' = paused g → session_ok g → session_ok g'.
Proof. unfold session_ok. by intros -> -> ->. Qed.

(** A click either starts a round from the lobby, or moves between the
    lobby and its two information screens, or does nothing. *)
Lemma handle_mouse_click_states g pos now :
  handle_mouse_click g pos now
  = set_game_data (Some (GameData_init now)) (set_current_state PLAYING g)
    ∧ current_state g = LOBBY
  ∨ (∃ st, handle_mouse_click g pos now = set_current_state st g
           ∧ (st = LOBBY ∨ st = HOW_TO_PLAY ∨ st = CREDITS)
           ∧ current_state g ≠ PLAYING ∧ current_state g ≠ PAUSED)
  ∨ handle_mouse_click g pos now = g.
Proof.
  unfold handle_mouse_click. destruct (current_state g) eqn:Hcs; auto.
  - cbn [get_lobby_buttons]. repeat case_match; eauto 10.
  - repeat case_match; eauto 10.
  - repeat case_match; eauto 10.
  - repeat case_match; eauto 10.
Qed.

(** Every step of the frame loop keeps the session invariant. *)
Lemma session_ok_step g g' : game_ok g → session_ok g → step g g' → session_ok g'.
Proof.
  intros Hok Hses Hstep. pose proof Hses as [Hp Hs].
  assert (Hclick : ∀ pos now, session_ok (handle_mouse_click g pos now)).
  { intros pos now.
    destruct (handle_mouse_click_states g pos now)
      as [[-> Hl]|[(st & -> & Hst & H1 & H2)| ->]]; [| |done].
    - unfold session_ok. gd_simpl. split.
      + rewrite Hp, Hl. split; [done..].
      + split; [apply counters_ok_init|done].
    - unfold session_ok. gd_simpl. split.
      + rewrite Hp. split; [done|]. intros ->. by destruct Hst as [?|[?|?]].
      + destruct (game_data g).
        * split; [tauto|]. intros ->. by destruct Hst as [?|[?|?]].
        * intros ->. by destruct Hst as [?|[?|?]]. }
  destruct Hstep as [g g' Hround|g pos now _|g i r _|g w _|g key now _|g a b].
  - destruct Hround as [g i g' Hup|g w g' Hr|g key now g' Hk|g pos now _].
    + apply update_inv in Hup as [[-> _]|(Hcs & Hpf & g1 & gd1 & Htick & Hgd1 & ->)];
        [done|].
      destruct (high_score_update_fields g1 (score gd1) (write_ok i)
                  (score gd1 >? high_score g1) _ eq_refl)
        as (Hd & Hc & _ & _ & Hpa & _).
      apply session_ok_same with g1; [done..|].
      pose proof Htick as (gd & _ & _ & _ & Hgd & _)%update_game_state_inv.
      unfold game_ok in Hok. rewrite Hgd in Hok. destruct Hok as [Hokgd Hmiss].
      rewrite Hgd in Hs. destruct Hs as [Hcnt _].
      destruct (update_game_state_round g i g1 gd Htick Hgd Hokgd)
        as ((_ & _ & _ & Hpaused & _) & gd' & Hgd' & _ & _ & _ & _ & Hms).
      specialize (Hms Hcs (Hmiss (or_introl Hcs))).
      unfold miss_state_ok in Hms. rewrite Hgd' in Hms.
      destruct (update_game_state_counters g i g1 gd Htick Hgd Hokgd Hcnt)
        as (gd'' & Hgd'' & _ & Hcnt').
      assert (gd'' = gd') as -> by congruence.
      unfold session_ok. rewrite Hgd', Hpaused, Hpf. split.
      * split; [done|]. intros Hpd. destruct Hms as [[? ?]|[? ?]]; congruence.
      * split; [done|]. intros Hover. destruct Hms as [[? ?]|[? ?]]; [congruence|done].
    + apply render_inv in Hr
        as [(Hact & [[_ ->]|(gd & gd' & Hgd & Hdraw & ->)])
           |[(Hcs & ->)|(_ & _ & ->)]]; try done.
      * unfold game_ok in Hok. rewrite Hgd in Hok, Hs. destruct Hok as [Hokgd Hmiss].
        rewrite draw_enhanced_hud_aged in Hdraw;
          [|by destruct Hokgd as [_ _ _ _ _ _ _ [? _] _]
           |by destruct Hokgd as [_ _ _ _ _ _ _ _ [? _]]].
        injection Hdraw as <-. unfold session_ok. gd_simpl. split; [done|].
        destruct Hs as [Hcnt Hover]. split; [by apply counters_ok_aged|].
        unfold aged. by gd_simpl.
      * apply session_ok_same with g; [..|done];
          unfold render_game_over, show_game_over;
          destruct (game_data g) as [gd|] eqn:Hgd; try done;
          by destruct (score gd >? high_score g), w.
    + apply handle_keydown_cases in Hk
        as [(_ & Hcs & pm & Htog & ->)|[(_ & Hcs & pm & Htog & ->)
           |[(_ & Hcs & ->)| ->]]]; [| | |done];
        unfold session_ok; gd_simpl.
      * apply toggle_pause_flag in Htog. rewrite Htog. rewrite Hcs in Hp.
        destruct (paused g); [by destruct Hp as [Hp _]; specialize (Hp eq_refl)|].
        cbn [negb]. split; [done|]. destruct (game_data g); [|done].
        split; [tauto|done].
      * apply toggle_pause_flag in Htog. rewrite Htog.
        destruct Hp as [_ Hp]. rewrite Hp by done. cbn [negb]. split; [done|].
        destruct (game_data g); [|done]. split; [tauto|done].
      * split.
        -- rewrite Hp. split; [|done]. intros Hpd. destruct Hcs; congruence.
        -- destruct (game_data g); [|done]. split; [tauto|done].
    + apply Hclick.
  - apply Hclick.
  - unfold session_ok, handle_crash, PauseManager.crash_reset. by gd_simpl.
  - unfold session_ok, handle_crash, PauseManager.crash_reset. by gd_simpl.
  - unfold session_ok, handle_crash, PauseManager.crash_reset. by gd_simpl.
  - destruct (quit_game_fields g a b) as (Hd & Hc & _ & _ & Hpm & _).
    apply session_ok_same with g; [done|done|by rewrite Hpm|done].
Qed.

(** A paused manager always has the time its pause started. *)
Lemma PauseManager_toggle_clock_ok now pm pm' :
  PauseManager.toggle_pause now pm = Some pm' → PauseManager.clock_ok pm'.
Proof.
  unfold PauseManager.toggle_pause, PauseManager.clock_ok.
  cbn [PauseManager.paused PauseManager.pause_start].
  destruct (negb (PauseManager.paused pm)) eqn:Hn.
  - intros [= <-] _. by eexists.
  - destruct (PauseManager.pause_start pm); [|done]. by intros [= <-].
Qed.

Lemma clock_ok_step g g' :
  PauseManager.clock_ok (pause_manager g) → step g g' →
  PauseManager.clock_ok (pause_manager g').
Proof.
  intros Hok Hstep.
  assert (Hcrash : ∀ g0, PauseManager.clock_ok (pause_manager (handle_crash g0))).
  { intros g0. unfold handle_crash, PauseManager.crash_reset,
      PauseManager.clock_ok. by gd_simpl. }
  assert (Hclick : ∀ pos now, pause_manager (handle_mouse_click g pos now)
                              = pause_manager g).
  { intros pos now.
    by destruct (handle_mouse_click_states g pos now)
      as [[-> _]|[(st & -> & _)| ->]]. }
  destruct Hstep as [g g' Hround|g pos now _|g i r _|g w _|g key now _|g a b];
    [|by rewrite Hclick|apply Hcrash..|].
  - destruct Hround as [g i g' Hup|g w g' Hr|g key now g' Hk|g pos now _].
    + apply update_inv in Hup as [[-> _]|(_ & _ & g1 & gd1 & Htick & _ & ->)];
        [done|].
      apply update_game_state_frame in Htick as (_ & _ & _ & Hpm & _).
      destruct (score gd1 >? high_score g1); [|by rewrite Hpm].
      unfold save_high_score. destruct (write_ok i); gd_simpl; by rewrite Hpm.
    + apply render_inv in Hr
        as [(_ & [[_ ->]|(gd & gd' & _ & _ & ->)])|[(_ & ->)|(_ & _ & ->)]];
        try done.
      unfold render_game_over, show_game_over.
      destruct (game_data g) as [gd|]; [|done].
      by destruct (score gd >? high_score g), w.
    + apply handle_keydown_cases in Hk
        as [(_ & _ & pm & Htog & ->)|[(_ & _ & pm & Htog & ->)
           |[(_ & _ & ->)| ->]]]; gd_simpl; try done;
        by eapply PauseManager_toggle_clock_ok.
    + by rewrite Hclick.
  - by destruct (quit_game_fields g a b) as (_ & _ & _ & _ & -> & _).
Qed.

Lemma reachable_clock_ok g :
  reachable g → PauseManager.clock_ok (pause_manager g).
Proof.
  intros (g0 & (_ & _ & Hp) & Hsteps).
  assert (H0 : PauseManager.clock_ok (pause_manager g0)).
  { unfold PauseManager.clock_ok. by rewrite Hp. }
  clear Hp. induction Hsteps as [|x y z Hxy _ IH]; [done|].
  apply IH. by eapply clock_ok_step.
Qed.

Lemma session_ok_initial g : initial g → session_ok g.
Proof.
  intros (Hcs & Hgd & Hp). unfold session_ok. rewrite Hgd, Hcs, Hp. done.
Qed.

Lemma reachable_session_ok g : reachable g → game_ok g ∧ session_ok g.
Proof.
  intros (g0 & Hinit & Hsteps).
  assert (H0 : game_ok g0 ∧ session_ok g0).
  { split; [by apply game_ok_initial|by apply session_ok_initial]. }
  clear Hinit. induction Hsteps as [|x y z Hxy _ IH]; [done|].
  apply IH. destruct H0. split; [by eapply game_ok_step|by eapply session_ok_step].
Qed.

End Counters.

(** ** The item loop and the tick as a whole *)

(** X1. The loop over the copy of the item list handles every item once:
    the items left in the list are exactly those that were neither
    caught nor missed, each moved once and in their old order; the catch
    and miss counters grow by the numbers of items caught and missed; and
    the state becomes [GAME_OVER] exactly when an item was missed and the
    miss counter ends at or above its maximum. *)
Theorem item_loop_handles_each_item_once {rule : TieRule} g g' gd :
  game_data g = Some gd →
  NoDup (oid <$> food_objects gd) → imgs_ok (food_objects gd) →
  for_each food_step g (food_objects gd) = Some g' →
  ∃ gd', game_data g' = Some gd'
    ∧ food_objects gd'
      = survivors (character_rect g) (height g) (food_objects gd)
    ∧ total_catches gd'
      = total_catches gd
        + count_fate Caught (character_rect g) (height g) (food_objects gd)
    ∧ missed_food gd'
      = missed_food gd
        + count_fate Missed (character_rect g) (height g) (food_objects gd)
    ∧ current_state g'
      = (if decide (0 < count_fate Missed (character_rect g) (height g)
                           (food_objects gd)
                    ∧ max_missed_food gd ≤ missed_food gd')
         then GAME_OVER else current_state g).
Proof.
  intros Hgd Hnd Himg Hloop.
  destruct (item_loop g' (food_objects gd) g gd [] Hgd eq_refl Hnd Himg Hloop)
    as (gd' & Hgd' & Hf & Hc & Hm & _ & Hs).
  exists gd'. by split_and!.
Qed.

Lemma item_loop_handles_each_item_once_witness :
  ∃ g' gd',
    for_each food_step (playing_game mixed_round) (food_objects mixed_round)
    = Some g'
    ∧ game_data g' = Some gd'
    ∧ oid <$> food_objects gd' = [2%nat]
    ∧ total_catches gd' = 1 ∧ missed_food gd' = 1
    ∧ current_state g' = PLAYING.
Proof.
  assert (Hrun : ∃ g', for_each food_step (playing_game mixed_round)
                         (food_objects mixed_round) = Some g').
  { vm_compute. eexists. reflexivity. }
  destruct Hrun as [g' Hg'].
  assert (Hnd : NoDup (oid <$> food_objects mixed_round)).
  { apply (bool_decide_unpack _). vm_compute. exact I. }
  assert (Himg : imgs_ok (food_objects mixed_round)).
  { unfold imgs_ok. repeat (apply Forall_cons; split; [reflexivity|]).
    apply Forall_nil_2. }
  destruct (item_loop_handles_each_item_once (playing_game mixed_round) g'
              mixed_round eq_refl Hnd Himg Hg')
    as (gd' & Hgd' & Hf & Hc & Hm & Hs).
  exists g', gd'. split; [exact Hg'|]. split; [exact Hgd'|].
  split; [rewrite Hf; vm_compute; reflexivity|].
  split; [rewrite Hc; vm_compute; reflexivity|].
  split; [rewrite Hm; vm_compute; reflexivity|].
  rewrite Hs, Hm. vm_compute. reflexivity.
Defined.

Section TickWhole.

Context `{!TieRule}.

Lemma food_step_spawn_timer c g f g' :
  (∃ gd, game_data g = Some gd ∧ spawn_timer gd = c) →
  food_step g f = Some g' →
  ∃ gd', game_data g' = Some gd' ∧ spawn_timer gd' = c.
Proof.
  intros (gd & Hgd & Hc) (gd0 & rect & Hgd0 & Hmove & Hcases)%food_step_inv.
  assert (gd0 = gd) as -> by congruence.
  destruct Hcases as [(Hcol & p & objs & Hp & Hobjs & ->)
                     |[(Hcol & Htop & objs & Hobjs & ->)|(Hcol & Htop & ->)]].
  - eexists. split; [done|]. unfold caught, with_moved. gd_simpl.
    by destruct (combo gd + 1 =? 10).
  - destruct (missed_food gd + 1 >=? max_missed_food gd);
      (eexists; split; [done|]); unfold missed, with_moved; by gd_simpl.
  - eexists. split; [done|]. unfold with_moved. by gd_simpl.
Qed.

End TickWhole.

(** X2. A tick appends a new item exactly when the spawn timer, advanced by
    one, has reached the spawn interval of the level the tick ends in,
    and resets the timer when it does; it then handles every item of the
    list once, the new one included, against the player as moved in this
    tick. *)
Theorem tick_spawns_then_handles_items {rule : TieRule} g i g' gd :
  reachable g → game_data g = Some gd → update_game_state g i = Some g' →
  ∃ gd' new,
    game_data g' = Some gd'
    ∧ ((new = [] ∧ spawn_timer gd' = spawn_timer gd + 1
        ∧ spawn_timer gd + 1 < current_spawn_rate gd')
       ∨ (∃ food, new = [food] ∧ spawn_timer gd' = 0
                  ∧ current_spawn_rate gd' ≤ spawn_timer gd + 1))
    ∧ food_objects gd'
      = survivors (character_rect g') (height g) (food_objects gd ++ new)
    ∧ total_catches gd'
      = total_catches gd
        + count_fate Caught (character_rect g') (height g) (food_objects gd ++ new)
    ∧ missed_food gd'
      = missed_food gd
        + count_fate Missed (character_rect g') (height g) (food_objects gd ++ new).
Proof.
  intros Hreach Hgd Htick.
  apply reachable_session_ok in Hreach as [Hok Hses].
  unfold game_ok in Hok. rewrite Hgd in Hok. destruct Hok as [Hokgd _].
  unfold session_ok in Hses. rewrite Hgd in Hses. destruct Hses as (_ & Hcnt & _).
  apply update_game_state_parts in Htick
    as (gd0 & rect & gd1 & gd2 & Hgd0 & Hgd1 & Hgd2 & Hloop).
  assert (gd0 = gd) as -> by congruence.
  pose proof (round_ok_update_difficulty gd gd1 Hokgd Hgd1) as Hok1.
  destruct (update_difficulty_counters gd gd1 Hgd1) as
    (_ & _ & Hst & _ & _ & Htc & _ & Hm & _ & _ & Hfo);
    [by destruct Hokgd|by destruct Hcnt|].
  assert (H2 : round_ok gd2
               ∧ total_catches gd2 = total_catches gd
               ∧ missed_food gd2 = missed_food gd
               ∧ ∃ new, food_objects gd2 = food_objects gd ++ new
                   ∧ ((new = [] ∧ spawn_timer gd2 = spawn_timer gd + 1
                       ∧ spawn_timer gd + 1 < current_spawn_rate gd2)
                      ∨ (∃ food, new = [food] ∧ spawn_timer gd2 = 0
                                 ∧ current_spawn_rate gd2 ≤ spawn_timer gd + 1))).
  { destruct Hgd2 as [[Hlt2 ->]|(Hge2 & gd3 & Hgd3 & ->)].
    - split; [by apply round_ok_set_spawn_timer|]. gd_simpl.
      split; [done|]. split; [done|]. exists []. rewrite app_nil_r.
      split; [done|]. left. split; [done|]. lia.
    - pose proof (round_ok_spawn_food _ _ _ _
                    (round_ok_set_spawn_timer gd1 (spawn_timer gd1 + 1) Hok1) Hgd3).
      split; [by apply round_ok_set_spawn_timer|].
      apply spawn_food_counters in Hgd3
        as (_ & Hr3 & _ & _ & Htc3 & _ & Hm3 & _ & _ & food & Hfood).
      gd_simpl. split; [congruence|]. split; [congruence|].
      exists [food]. split; [congruence|]. right. exists food.
      split; [done|]. split; [done|]. lia. }
  destruct H2 as (Hok2 & Htc2 & Hm2 & new & Hnew & Hspawn).
  assert (Hrel : loop_rel (set_game_data (Some gd2) (set_character_rect rect g)) g').
  { eapply (for_each_preorder loop_rel); [|exact Hloop].
    intros s a s' Ha. apply food_step_loop_rel.
    destruct Hok2 as [_ _ _ _ _ _ Himg _ _]. unfold imgs_ok in Himg.
    rewrite Forall_forall in Himg. by apply Himg. }
  destruct Hrel as (_ & Hrect & Hrel). cbn [character_rect set_game_data
    set_character_rect] in Hrect.
  destruct (Hrel gd2 eq_refl Hok2) as (gd0 & Hgd0' & _ & _ & _ & Hder & _).
  assert (Hrate : current_spawn_rate gd0 = current_spawn_rate gd2).
  { unfold derived in Hder. by injection Hder as _ -> _ _. }
  assert (Htimer : ∃ gd', game_data g' = Some gd' ∧ spawn_timer gd' = spawn_timer gd2).
  { eapply (for_each_invariant
              (λ s, ∃ gd', game_data s = Some gd' ∧ spawn_timer gd' = spawn_timer gd2));
      [| |exact Hloop].
    - intros s a s' _. apply food_step_spawn_timer.
    - by exists gd2. }
  destruct (item_loop g' (food_objects gd2)
              (set_game_data (Some gd2) (set_character_rect rect g)) gd2 []
              eq_refl eq_refl)
    as (gd' & Hgd' & Hf & Hc & Hmi & _ & _);
    [by destruct Hok2 as [_ _ _ _ _ [? _] _ _ _]|by destruct Hok2|exact Hloop|].
  destruct Htimer as (gd'' & Hgd'' & Hst'').
  assert (gd'' = gd') as -> by congruence.
  assert (gd0 = gd') as -> by congruence.
  cbn [character_rect height set_game_data set_character_rect] in Hf, Hc, Hmi.
  rewrite Hnew in Hf, Hc, Hmi. rewrite Hrect.
  exists gd', new. split; [done|]. split.
  { rewrite Hst'', Hrate. exact Hspawn. }
  split; [done|]. split; [congruence|congruence].
Qed.

Lemma tick_spawns_then_handles_items_witness :
  ∃ g' gd',
    update_game_state started_game example_input = Some g'
    ∧ game_data g' = Some gd'
    ∧ food_objects gd' = [] ∧ spawn_timer gd' = 1
    ∧ total_catches gd' = 0 ∧ missed_food gd' = 0.
Proof.
  assert (Hreach : reachable started_game).
  { exists lobby_game. split; [by vm_compute|].
    apply rtc_once. by apply step_lobby_click. }
  assert (Hrun : ∃ g', update_game_state started_game example_input = Some g').
  { vm_compute. eexists. reflexivity. }
  destruct Hrun as [g' Hg'].
  destruct (tick_spawns_then_handles_items started_game example_input g'
              (GameData_init 0) Hreach eq_refl Hg')
    as (gd' & new & Hgd' & Hspawn & Hf & Hc & Hm).
  destruct Hspawn as [(-> & Hst & _)|(food & -> & Hst & _)].
  - exists g', gd'. split; [exact Hg'|]. split; [exact Hgd'|].
    split; [rewrite Hf; reflexivity|]. split; [rewrite Hst; reflexivity|].
    split; [rewrite Hc; reflexivity|rewrite Hm; reflexivity].
  - exfalso. revert Hg' Hgd' Hst. vm_compute. intros [= <-] [= <-]. discriminate.
Defined.

(** ** Counters, timers and flags in every reachable state *)

Section ReachableStates.

Context `{!TieRule}.

Lemma started_game_reachable : reachable started_game.
Proof.
  exists lobby_game. split; [by vm_compute|].
  apply rtc_once. by apply step_lobby_click.
Qed.

Lemma reachable_counters_ok g gd :
  reachable g → game_data g = Some gd → round_ok gd ∧ counters_ok gd.
Proof.
  intros [Hok Hses]%reachable_session_ok Hgd.
  unfold game_ok in Hok. unfold session_ok in Hses. rewrite Hgd in Hok, Hses.
  split; [by destruct Hok|by destruct Hses as (_ & ? & _)].
Qed.

Lemma spec_level_params_rate l dm r sc cs :
  spec_level_params l = Some (dm, r, sc, cs) → r = Z.max 15 (45 - (l - 1) * 4).
Proof.
  unfold spec_level_params.
  destruct (Py.mul (Py.Int (l - 1)) (Py.Float (Py.dec 12 100))
            ≫= Py.add (Py.Float (Py.dec 10 10))) as [dm'|]; [|done].
  cbn [mbind option_bind].
  destruct (Py.mul (Py.Int (l - 1)) (Py.Float (Py.dec 25 1000))
            ≫= Py.add (Py.Float (Py.dec 15 100))) as [sc'|]; [|done].
  cbn [mbind option_bind].
  destruct (Py.mul (Py.Int (l - 1)) (Py.Float (Py.dec 6 10))
            ≫= Py.add (Py.Int 10)) as [cs'|]; [|done].
  cbn [mbind option_bind]. by intros [= _ <- _ _].
Qed.

End ReachableStates.

(** X3. In every reachable round the combo is at most the best combo, the
    best combo at most the number of catches, and the number of catches
    at most the score (every catch is worth at least one point); no
    counter is negative. *)
Theorem reachable_counters_ordered {rule : TieRule} g gd :
  reachable g → game_data g = Some gd →
  0 ≤ combo gd ≤ max_combo gd
  ∧ max_combo gd ≤ total_catches gd
  ∧ total_catches gd ≤ score gd
  ∧ 0 ≤ missed_food gd.
Proof.
  intros Hreach Hgd.
  destruct (reachable_counters_ok g gd Hreach Hgd) as [[] []].
  split_and!; done.
Qed.

Lemma reachable_counters_ordered_witness :
  ∃ gd, game_data started_game = Some gd
        ∧ 0 ≤ combo gd ≤ max_combo gd ∧ total_catches gd ≤ score gd.
Proof.
  destruct (reachable_counters_ordered started_game (GameData_init 0)
              started_game_reachable eq_refl) as (Hc & _ & Hs & _).
  exists (GameData_init 0). split; [reflexivity|]. split; [exact Hc|exact Hs].
Defined.

(** X4. In every reachable round, between ticks, the level timer is in
    [0, 500), the spawn timer is below the spawn interval, and the spawn
    interval is [max(15, 45 - (level - 1) * 4)] with the level at least
    1: between 15 and 45 frames. *)
Theorem reachable_timers_in_range {rule : TieRule} g gd :
  reachable g → game_data g = Some gd →
  0 ≤ level_timer gd < 500
  ∧ 0 ≤ spawn_timer gd < current_spawn_rate gd
  ∧ 1 ≤ level gd
  ∧ current_spawn_rate gd = Z.max 15 (45 - (level gd - 1) * 4)
  ∧ 15 ≤ current_spawn_rate gd ≤ 45.
Proof.
  intros Hreach Hgd.
  destruct (reachable_counters_ok g gd Hreach Hgd) as [Hok Hcnt].
  destruct Hok as [_ _ _ _ Hlevel _ _ _ _].
  destruct Hcnt as [_ _ _ _ Hlt Hst _].
  pose proof (level_ok_level gd Hlevel) as Hl.
  assert (Hrate : current_spawn_rate gd = Z.max 15 (45 - (level gd - 1) * 4)).
  { destruct Hlevel as [[H1 Hd]|[H1 Hp]].
    - unfold derived in Hd. simpl in Hd. injection Hd as _ -> _ _. rewrite H1. done.
    - by apply spec_level_params_rate in Hp. }
  split_and!; try done; lia.
Qed.

Lemma reachable_timers_in_range_witness :
  ∃ gd, game_data started_game = Some gd
        ∧ 0 ≤ spawn_timer gd < 45 ∧ 0 ≤ level_timer gd < 500.
Proof.
  destruct (reachable_timers_in_range started_game (GameData_init 0)
              started_game_reachable eq_refl) as (Hl & Hs & _).
  exists (GameData_init 0). split; [reflexivity|]. split; [exact Hs|exact Hl].
Defined.

(** X5. In every reachable state the terminal flag of the round is set
    exactly when three items have been missed; the game over screen
    always has a round to show, and that round is over; and while a round
    is being played or is paused, it is not over. *)
Theorem reachable_game_over_flag {rule : TieRule} g :
  reachable g →
  (∀ gd, game_data g = Some gd → (game_over gd = true ↔ 3 ≤ missed_food gd))
  ∧ (current_state g = GAME_OVER →
     ∃ gd, game_data g = Some gd ∧ game_over gd = true)
  ∧ (active g → ∃ gd, game_data g = Some gd ∧ game_over gd = false).
Proof.
  intros [Hok Hses]%reachable_session_ok.
  unfold game_ok in Hok. unfold session_ok in Hses.
  destruct Hses as [_ Hses].
  destruct (game_data g) as [gd|].
  - destruct Hok as [Hok Hact]. destruct Hses as [Hcnt Hover].
    destruct Hok as [_ _ _ Hmax _ _ _ _ _].
    destruct Hcnt as [_ _ _ _ _ _ Hflag].
    rewrite Hmax in Hact, Hover, Hflag. split_and!.
    + by intros ? [= <-].
    + intros Hcs. exists gd. split; [done|]. apply Hflag. auto.
    + intros Ha. exists gd. split; [done|]. specialize (Hact Ha).
      destruct (game_over gd); [|done].
      destruct Hflag as [H _]. specialize (H eq_refl). lia.
  - split_and!; done.
Qed.

Lemma reachable_game_over_flag_witness :
  ∃ gd, game_data started_game = Some gd ∧ game_over gd = false.
Proof.
  destruct (reachable_game_over_flag started_game started_game_reachable)
    as (_ & _ & Hact).
  apply Hact. left. reflexivity.
Defined.

(** X6. In every reachable state the pause flag is set exactly in the state
    [PAUSED], and no key press raises.  While playing, the [not paused]
    test of [update] never blocks a tick; Escape at time [t1] pauses the
    round without touching it and records [t1]; no tick runs while
    paused; Escape at time [t2] resumes, and the game is then as before
    the two key presses except for its pause manager, which holds [t1]
    as the start of the pause and a total grown by [t2 - t1]. *)
Theorem pause_flag_follows_state {rule : TieRule} g :
  reachable g →
  (paused g = true ↔ current_state g = PAUSED)
  ∧ (∀ key now, is_Some (handle_keydown g key now))
  ∧ (current_state g = PLAYING →
     paused g = false
     ∧ ∀ t1 t2, ∃ g1,
         handle_keydown g K_ESCAPE t1 = Some g1
         ∧ current_state g1 = PAUSED
         ∧ pause_manager g1
           = PauseManager.mk true (Some t1)
               (PauseManager.total_pause_time (pause_manager g))
         ∧ game_data g1 = game_data g
         ∧ (∀ i, update g1 i = Some g1)
         ∧ handle_keydown g1 K_ESCAPE t2
           = Some (set_pause_manager
                     (PauseManager.mk false (Some t1)
                        (PauseManager.total_pause_time (pause_manager g)
                         + (t2 - t1)))
                     g)).
Proof.
  intros Hreach. pose proof (reachable_clock_ok g Hreach) as Hclock.
  apply reachable_session_ok in Hreach as [_ [Hp _]].
  split; [done|]. split.
  - intros key now. unfold handle_keydown.
    destruct key; [|by eexists].
    destruct (current_state g) eqn:Hcs; try (by eexists).
    + assert (Hpf : paused g = false).
      { destruct (paused g); [|done]. destruct Hp as [Hp _].
        by specialize (Hp eq_refl). }
      unfold PauseManager.toggle_pause. rewrite Hpf. by eexists.
    + destruct Hp as [_ Hp]. specialize (Hp eq_refl).
      destruct (Hclock Hp) as [start Hstart].
      unfold PauseManager.toggle_pause. rewrite Hp.
      cbn [negb PauseManager.paused PauseManager.pause_start].
      rewrite Hstart. by eexists.
  - intros Hcs.
    assert (Hpf : paused g = false).
    { destruct (paused g); [|done]. destruct Hp as [Hp _].
      specialize (Hp eq_refl). congruence. }
    split; [done|]. intros t1 t2.
    exists (set_current_state PAUSED
              (set_pause_manager
                 (PauseManager.mk true (Some t1)
                    (PauseManager.total_pause_time (pause_manager g))) g)).
    unfold handle_keydown, PauseManager.toggle_pause. rewrite Hcs, Hpf.
    gd_simpl. cbn [negb]. split_and!; gd_simpl; try done.
    f_equal. apply Game_ext; gd_simpl; done.
Qed.

Lemma pause_flag_follows_state_witness :
  paused started_game = false
  ∧ (g ← handle_keydown started_game K_ESCAPE 1000;
     handle_keydown g K_ESCAPE 1500)
    = Some (set_pause_manager (PauseManager.mk false (Some 1000) 500)
              started_game).
Proof.
  destruct (pause_flag_follows_state started_game started_game_reachable)
    as (_ & _ & Hplay).
  destruct (Hplay eq_refl) as (Hpf & Htwice).
  destruct (Htwice 1000 1500) as (g1 & Hg1 & _ & _ & _ & _ & Hg2).
  split; [exact Hpf|]. rewrite Hg1. exact Hg2.
Defined.

(** ** Points of a catch *)

(** X7. A catch is worth at least the base points of the item and at most
    four times as much, and exactly four times as much from the
    twentieth catch of a combo on. *)
Theorem catch_award_bounds gd food gd' p :
  0 ≤ combo gd → score_multiplier gd = Py.Float (Py.dec 10 10) →
  handle_collision gd food = Some (gd', p) →
  points (food_type (oval food)) ≤ p ≤ 4 * points (food_type (oval food))
  ∧ (19 ≤ combo gd → p = 4 * points (food_type (oval food))).
Proof.
  intros Hc Hsm (p' & objs & Hp & _ & [= _ <-])%handle_collision_inv.
  rewrite Hsm in Hp.
  destruct (catch_points_bounds (combo gd + 1) _ p ltac:(lia) Hp) as [Hb Hcap].
  split; [done|]. intros H19. apply Hcap. lia.
Qed.

Lemma catch_award_bounds_witness :
  ∃ gd', handle_collision combo_nine_round (example_item 0 560 600 SPECIAL)
         = Some (gd', 12)
         ∧ 5 ≤ 12 ≤ 20.
Proof.
  assert (Hrun : ∃ gd', handle_collision combo_nine_round
                          (example_item 0 560 600 SPECIAL) = Some (gd', 12)).
  { vm_compute. eexists. reflexivity. }
  destruct Hrun as [gd' Hgd'].
  destruct (catch_award_bounds combo_nine_round (example_item 0 560 600 SPECIAL)
              gd' 12) as [Hb _].
  - vm_compute. discriminate.
  - reflexivity.
  - exact Hgd'.
  - exists gd'. split; [exact Hgd'|exact Hb].
Defined.

(** X8. Of two catches of items of the same kind, the one at the longer
    combo is worth at least as much as the other. *)
Theorem longer_combo_pays_no_less gd1 gd2 f1 f2 gd1' gd2' p1 p2 :
  0 ≤ combo gd1 ≤ combo gd2 → combo gd2 + 1 < 2 ^ 1023 →
  score_multiplier gd1 = Py.Float (Py.dec 10 10) →
  score_multiplier gd2 = Py.Float (Py.dec 10 10) →
  food_type (oval f1) = food_type (oval f2) →
  handle_collision gd1 f1 = Some (gd1', p1) →
  handle_collision gd2 f2 = Some (gd2', p2) →
  p1 ≤ p2.
Proof.
  intros Hc Hmax Hsm1 Hsm2 Ht
    (q1 & objs1 & Hp1 & _ & [= _ <-])%handle_collision_inv
    (q2 & objs2 & Hp2 & _ & [= _ <-])%handle_collision_inv.
  rewrite Hsm1, Ht in Hp1. rewrite Hsm2 in Hp2.
  destruct (catch_points_mono (food_type (oval f2))
              (Z.to_nat (combo gd2 - combo gd1)) (combo gd1 + 1))
    as (r1 & r2 & Hr1 & Hr2 & Hle); [lia|lia|].
  replace (combo gd1 + 1 + Z.of_nat (Z.to_nat (combo gd2 - combo gd1)))
    with (combo gd2 + 1) in Hr2 by lia.
  assert (r1 = p1) by congruence. assert (r2 = p2) by congruence. lia.
Qed.

Lemma longer_combo_pays_no_less_witness :
  ∃ gd1' gd2',
    handle_collision first_catch_round (example_item 0 560 600 APPLE)
    = Some (gd1', 1)
    ∧ handle_collision (set_combo 9 first_catch_round)
        (example_item 0 560 600 APPLE) = Some (gd2', 2)
    ∧ 1 ≤ 2.
Proof.
  assert (H1 : ∃ gd', handle_collision first_catch_round
                        (example_item 0 560 600 APPLE) = Some (gd', 1)).
  { vm_compute. eexists. reflexivity. }
  assert (H2 : ∃ gd', handle_collision (set_combo 9 first_catch_round)
                        (example_item 0 560 600 APPLE) = Some (gd', 2)).
  { vm_compute. eexists. reflexivity. }
  destruct H1 as [gd1' H1]. destruct H2 as [gd2' H2].
  exists gd1', gd2'. split; [exact H1|]. split; [exact H2|].
  apply (longer_combo_pays_no_less first_catch_round (set_combo 9 first_catch_round)
           (example_item 0 560 600 APPLE) (example_item 0 560 600 APPLE)
           gd1' gd2' 1 2).
  - vm_compute. split; discriminate.
  - vm_compute. reflexivity.
  - reflexivity.
  - reflexivity.
  - reflexivity.
  - exact H1.
  - exact H2.
Defined.

(** ** Level parameters *)

(** X9. After every level-up the spawn interval is between 15 and 41
    frames, items fall at least at their base speed, the chance of a Rare
    item is between 0.15 and 0.35 and the player speed between 10 and 16;
    the spawn interval and the chance are at their caps from level 9 on
    and the player speed from level 11 on. *)
Theorem level_up_parameters_capped gd gd' :
  500 ≤ level_timer gd + 1 → 1 ≤ level gd → base_spawn_rate gd = 45 →
  update_difficulty gd = Some gd' →
  level gd' = level gd + 1
  ∧ 15 ≤ current_spawn_rate gd' ≤ 41
  ∧ py_ge (difficulty_multiplier gd') (Py.Float (Py.dec 10 10)) = true
  ∧ py_ge (special_spawn_chance gd') (Py.Float (Py.dec 15 100)) = true
  ∧ py_le (special_spawn_chance gd') (Py.Float (Py.dec 35 100)) = true
  ∧ py_ge (character_speed gd') (Py.Int 10) = true
  ∧ py_le (character_speed gd') (Py.Int 16) = true
  ∧ (9 ≤ level gd' →
     current_spawn_rate gd' = 15
     ∧ special_spawn_chance gd' = Py.Float (Py.dec 35 100))
  ∧ (11 ≤ level gd' → character_speed gd' = Py.Int 16).
Proof.
  intros Hlt Hl Hbase Hup.
  apply update_difficulty_level_up in Hup
    as (dm & sc & cs & Hdm & Hsc & Hcs & ->); [|done].
  replace (level gd + 1 - 1) with (level gd) in Hdm, Hsc, Hcs by lia.
  assert (Hfl : level_floats (level gd)
                = Some (dm, Py.min (Py.Float (Py.dec 35 100)) sc,
                        Py.min (Py.Int 16) cs)).
  { unfold level_floats. rewrite Hdm. cbn [mbind option_bind].
    rewrite Hsc. cbn [mbind option_bind]. by rewrite Hcs. }
  destruct (level_floats_bounds _ _ _ _ Hl Hfl)
    as (H1 & H2 & H3 & H4 & H5 & H6 & H7).
  unfold leveled_up. gd_simpl. rewrite Hbase.
  split; [done|]. split; [lia|]. split; [exact H1|]. split; [exact H2|].
  split; [exact H3|]. split; [exact H4|]. split; [exact H5|]. split.
  - intros H9. split; [lia|]. apply H6. lia.
  - intros H11. apply H7. lia.
Qed.

Lemma level_up_parameters_capped_witness :
  ∃ gd', update_difficulty level_up_round = Some gd'
         ∧ level gd' = 2 ∧ 15 ≤ current_spawn_rate gd' ≤ 41.
Proof.
  assert (Hrun : ∃ gd', update_difficulty level_up_round = Some gd').
  { vm_compute. eexists. reflexivity. }
  destruct Hrun as [gd' Hgd'].
  destruct (level_up_parameters_capped level_up_round gd') as (Hl & Hr & _).
  - vm_compute. discriminate.
  - vm_compute. discriminate.
  - reflexivity.
  - exact Hgd'.
  - exists gd'. split; [exact Hgd'|]. split; [exact Hl|exact Hr].
Defined.

(** ** The feedback queues over several frames *)

Section Lifetime.

Context `{!TieRule}.

Lemma popups_after_cons k p l :
  popups_after k (p :: l)
  = if decide (k < popup_timer (oval p))
    then popup_after k p :: popups_after k l else popups_after k l.
Proof. unfold popups_after. rewrite filter_cons. by case_decide. Qed.

Lemma messages_after_cons k m l :
  messages_after k (m :: l)
  = if decide (k < msg_timer (oval m))
    then message_after k m :: messages_after k l else messages_after k l.
Proof. unfold messages_after. rewrite filter_cons. by case_decide. Qed.

Lemma popup_after_aged k p : popup_after k (age_popup p) = popup_after (k + 1) p.
Proof.
  unfold popup_after, age_popup. simpl. do 2 f_equal. lia.
Qed.

Lemma message_after_aged k m :
  message_after k (age_message m) = message_after (k + 1) m.
Proof.
  unfold message_after, age_message. simpl. do 2 f_equal. lia.
Qed.

Lemma aged_popups_after l : aged_popups l = popups_after 1 l.
Proof.
  induction l as [|p l IH]; [done|].
  rewrite aged_popups_cons, popups_after_cons, IH.
  repeat case_decide; try lia; done.
Qed.

Lemma aged_messages_after l : aged_messages l = messages_after 1 l.
Proof.
  induction l as [|m l IH]; [done|].
  rewrite aged_messages_cons, messages_after_cons, IH.
  repeat case_decide; try lia; done.
Qed.

Lemma popups_after_aged k l :
  0 ≤ k → popups_after k (aged_popups l) = popups_after (k + 1) l.
Proof.
  intros Hk. induction l as [|p l IH]; [done|].
  rewrite aged_popups_cons, (popups_after_cons (k + 1)).
  destruct (decide (0 < popup_timer (oval p) - 1)).
  - rewrite popups_after_cons, IH, popup_after_aged.
    change (popup_timer (oval (age_popup p))) with (popup_timer (oval p) - 1).
    repeat case_decide; try lia; done.
  - rewrite IH. case_decide; [lia|done].
Qed.

Lemma messages_after_aged k l :
  0 ≤ k → messages_after k (aged_messages l) = messages_after (k + 1) l.
Proof.
  intros Hk. induction l as [|m l IH]; [done|].
  rewrite aged_messages_cons, (messages_after_cons (k + 1)).
  destruct (decide (0 < msg_timer (oval m) - 1)).
  - rewrite messages_after_cons, IH, message_after_aged.
    change (msg_timer (oval (age_message m))) with (msg_timer (oval m) - 1).
    repeat case_decide; try lia; done.
  - rewrite IH. case_decide; [lia|done].
Qed.

Lemma NoDup_aged_popups l : NoDup (oid <$> l) → NoDup (oid <$> aged_popups l).
Proof.
  intros Hnd. eapply sublist_NoDup; [|apply fmap_sublist, sublist_filter].
  by rewrite <- list_fmap_compose.
Qed.

Lemma NoDup_aged_messages l : NoDup (oid <$> l) → NoDup (oid <$> aged_messages l).
Proof.
  intros Hnd. eapply sublist_NoDup; [|apply fmap_sublist, sublist_filter].
  by rewrite <- list_fmap_compose.
Qed.

Lemma same_but_queues_aged gd : same_but_queues gd (aged gd).
Proof. unfold same_but_queues, aged. gd_simpl. by split_and!. Qed.

Lemma same_but_queues_trans a b c :
  same_but_queues a b → same_but_queues b c → same_but_queues a c.
Proof.
  unfold same_but_queues. intros H1 H2. destruct_and!. split_and!; congruence.
Qed.

End Lifetime.

(** X10. After [k + 1] drawing passes the popup queue holds exactly the
    popups whose countdown was above [k + 1], in their old order and with
    [k + 1] taken off; the same holds of the banners; nothing else in the
    round has changed.  A popup created with a countdown of 60 is thus
    gone after the 60th pass. *)
Theorem feedback_lifetime k : ∀ gd,
  NoDup (oid <$> score_popups gd) → NoDup (oid <$> achievement_messages gd) →
  ∃ gd', draw_times (S k) gd = Some gd'
    ∧ score_popups gd' = popups_after (Z.of_nat (S k)) (score_popups gd)
    ∧ achievement_messages gd'
      = messages_after (Z.of_nat (S k)) (achievement_messages gd)
    ∧ same_but_queues gd gd'.
Proof.
  induction k as [|k IH]; intros gd Hp Hm.
  - exists (aged gd). cbn [draw_times]. rewrite draw_enhanced_hud_aged by done.
    split; [done|]. unfold aged. gd_simpl.
    split; [apply aged_popups_after|]. split; [apply aged_messages_after|].
    apply same_but_queues_aged.
  - destruct (IH (aged gd)) as (gd' & Hrun & Hpop & Hmsg & Hsame).
    + unfold aged. gd_simpl. by apply NoDup_aged_popups.
    + unfold aged. gd_simpl. by apply NoDup_aged_messages.
    + exists gd'. split.
      { change (draw_times (S (S k)) gd)
          with (draw_enhanced_hud gd ≫= draw_times (S k)).
        by rewrite draw_enhanced_hud_aged. }
      unfold aged in Hpop, Hmsg. gd_simpl.
      rewrite popups_after_aged in Hpop by lia.
      rewrite messages_after_aged in Hmsg by lia.
      replace (Z.of_nat (S (S k))) with (Z.of_nat (S k) + 1) by lia.
      split; [done|]. split; [done|].
      eapply same_but_queues_trans; [apply same_but_queues_aged|done].
Qed.

Lemma feedback_lifetime_witness :
  ∃ gd', draw_times 2 feedback_round = Some gd'
    ∧ score_popups gd' = [Obj 0%nat (mkPopup "+1" (590, 630) 58 (255, 0, 0))]
    ∧ achievement_messages gd' = [].
Proof.
  destruct (feedback_lifetime 1 feedback_round) as (gd' & Hrun & Hpop & Hmsg & _).
  - apply (bool_decide_unpack _). vm_compute. exact I.
  - apply (bool_decide_unpack _). vm_compute. exact I.
  - exists gd'. split; [exact Hrun|]. split.
    + rewrite Hpop. vm_compute. reflexivity.
    + rewrite Hmsg. vm_compute. reflexivity.
Defined.

(** ** The stored high score *)

(** X11. The game over screen settles after one frame: a second frame
    changes nothing, whether or not the writes succeed.  When the write of
    a new record fails, no later frame tries again. *)
Theorem game_over_screen_settles g w1 w2 :
  current_state g = GAME_OVER →
  ∃ g1, render g w1 = Some g1
    ∧ render g1 w2 = Some g1
    ∧ (w1 = false → high_score_file g1 = high_score_file g).
Proof.
  intros Hcs. unfold render. rewrite Hcs. eexists. split; [done|].
  unfold render_game_over, show_game_over.
  destruct (game_data g) as [gd|] eqn:Hgd.
  - destruct (score gd >? high_score g) eqn:Hgt.
    + unfold save_high_score. destruct w1; gd_simpl; rewrite Hcs, Hgd;
        (replace (score gd >? score gd) with false by lia); by split.
    + by rewrite Hcs, Hgd, Hgt.
  - by rewrite Hcs, Hgd.
Qed.

Lemma game_over_screen_settles_witness :
  ∃ g1, render record_game false = Some g1
    ∧ render g1 true = Some g1
    ∧ high_score g1 = 25 ∧ high_score_file g1 = None.
Proof.
  destruct (game_over_screen_settles record_game false true eq_refl)
    as (g1 & Hr1 & Hr2 & Hfile).
  exists g1. split; [exact Hr1|]. split; [exact Hr2|].
  split.
  - revert Hr1. vm_compute. by intros [= <-].
  - rewrite Hfile by reflexivity. reflexivity.
Defined.

(** X12. Whatever a step of the frame loop writes to [high_score.txt] is
    the in-memory high score.  A tick or a frame writes the file only
    when it raises the in-memory high score; quitting writes it whatever
    the state, also when no record was set. *)
Theorem high_score_file_written_on_record {rule : TieRule} :
  (∀ g g',
     step g g' →
     high_score_file g' = high_score_file g
     ∨ (high_score_file g' = Some (high_score g')
        ∧ (high_score g < high_score g'
           ∨ ∃ an_ok, g' = quit_game true an_ok g)))
  ∧ (∀ g an_ok,
       step g (quit_game true an_ok g)
       ∧ high_score (quit_game true an_ok g) = high_score g
       ∧ high_score_file (quit_game true an_ok g) = Some (high_score g)).
Proof.
  split; [|by intros g an_ok; split; [apply step_quit|destruct an_ok]].
  intros g g' Hstep.
  assert (Hraise : ∀ g1 v w,
    high_score_file g1 = high_score_file g → high_score g1 = high_score g →
    let g2 := (if v >? high_score g1
               then save_high_score w (set_high_score v g1) else g1) in
    high_score_file g2 = high_score_file g
    ∨ (high_score_file g2 = Some (high_score g2)
       ∧ (high_score g < high_score g2
          ∨ ∃ an_ok, g2 = quit_game true an_ok g))).
  { intros g1 v w Hf Hh. simpl. destruct (v >? high_score g1) eqn:Hgt; [|by left].
    unfold save_high_score. destruct w; gd_simpl; [|by left].
    right. split; [done|]. left. lia. }
  assert (Hclick : ∀ pos now,
    high_score_file (handle_mouse_click g pos now) = high_score_file g).
  { intros pos now.
    by destruct (handle_mouse_click_cases g pos now)
      as [[-> _]|[(st & -> & _)| ->]]. }
  destruct Hstep as [g g' Hround|g pos now _|g i r _|g w _|g key now _
                    |g hs_ok an_ok].
  - destruct Hround as [g i g' Hup|g w g' Hr|g key now g' Hk|g pos now _].
    + apply update_inv in Hup as [[-> _]|(_ & _ & g1 & gd1 & Htick & _ & ->)];
        [by left|].
      apply update_game_state_frame in Htick as (_ & _ & Hh & _ & _ & Hf).
      by apply Hraise.
    + apply render_inv in Hr
        as [(_ & [[_ ->]|(gd & gd' & _ & _ & ->)])|[(_ & ->)|(_ & _ & ->)]];
        try (by left).
      unfold render_game_over, show_game_over.
      destruct (game_data g) as [gd|]; [|by left]. by apply Hraise.
    + left.
      by apply handle_keydown_cases in Hk
        as [(_ & _ & pm & _ & ->)|[(_ & _ & pm & _ & ->)|[(_ & _ & ->)| ->]]].
    + left. apply Hclick.
  - left. apply Hclick.
  - by left.
  - by left.
  - by left.
  - destruct hs_ok; [|left; by destruct an_ok].
    right. split; [by destruct an_ok|]. right. by exists an_ok.
Qed.

Lemma high_score_file_written_on_record_witness :
  (∃ g1, render record_game true = Some g1
     ∧ high_score_file g1 = Some 25)
  ∧ high_score_file (quit_game true true started_game) = Some 0.
Proof.
  destruct high_score_file_written_on_record as [Hstep Hquit]. split.
  - assert (Hrun : ∃ g1, render record_game true = Some g1).
    { vm_compute. eexists. reflexivity. }
    destruct Hrun as [g1 Hg1]. exists g1. split; [exact Hg1|].
    destruct (Hstep record_game g1) as [Hsame|[Hfile _]].
    + apply step_round. by apply (rs_render record_game true g1).
    + exfalso. revert Hg1 Hsame. vm_compute. intros [= <-]. discriminate.
    + rewrite Hfile. revert Hg1. vm_compute. by intros [= <-].
  - destruct (Hquit started_game true) as (_ & _ & Hfile). exact Hfile.
Defined.

(** ** Analytics across sessions *)

(** X13. [update_session] raises [KeyError] exactly when one of its four
    keys is missing from the aggregate.  Otherwise it adds one game, the
    score and the catches of the round, raises the best score to the
    score of the round, leaves every other key alone, adds no key, and
    writes the new aggregate to the file when the write succeeds. *)
Theorem update_session_effect a gd w :
  (update_session a gd w = None
   ↔ ∃ k, k ∈ session_keys ∧ data a !! k = None)
  ∧ ∀ a', update_session a gd w = Some a' →
      (∃ gp ts ms ic,
         data a !! "games_played" = Some gp
         ∧ data a !! "total_score" = Some ts
         ∧ data a !! "max_score" = Some ms
         ∧ data a !! "items_caught" = Some ic
         ∧ data a' !! "games_played" = Some (gp + 1)
         ∧ data a' !! "total_score" = Some (ts + score gd)
         ∧ data a' !! "max_score" = Some (Z.max ms (score gd))
         ∧ data a' !! "items_caught" = Some (ic + total_catches gd))
      ∧ (∀ k, k ∉ session_keys → data a' !! k = data a !! k)
      ∧ (∀ k, is_Some (data a' !! k) ↔ is_Some (data a !! k))
      ∧ analytics_file a' = (if w then Some (data a') else analytics_file a).
Proof.
  unfold update_session, dict_add, session_keys, save_analytics.
  destruct (data a !! "games_played") as [gp|] eqn:Hgp; cbn [mbind option_bind];
    [|split; [|done]; split; [|done]; intros _; exists "games_played";
      split; [set_solver|done]].
  rewrite lookup_insert_ne by done.
  destruct (data a !! "total_score") as [ts|] eqn:Hts; cbn [mbind option_bind];
    [|split; [|done]; split; [|done]; intros _; exists "total_score";
      split; [set_solver|done]].
  rewrite !lookup_insert_ne by done.
  destruct (data a !! "max_score") as [ms|] eqn:Hms; cbn [mbind option_bind];
    [|split; [|done]; split; [|done]; intros _; exists "max_score";
      split; [set_solver|done]].
  rewrite !lookup_insert_ne by done.
  destruct (data a !! "items_caught") as [ic|] eqn:Hic; cbn [mbind option_bind];
    [|split; [|done]; split; [|done]; intros _; exists "items_caught";
      split; [set_solver|done]].
  split.
  { split; [done|]. intros (k & Hk & Hnone).
    rewrite !elem_of_cons, elem_of_nil in Hk.
    destruct Hk as [->|[->|[->|[->|[]]]]]; congruence. }
  intros a' [= <-].
  assert (Hdata : data (if w
                        then mkAnalytics
                               (<["items_caught" := ic + total_catches gd]>
                                  (<["max_score" := Z.max ms (score gd)]>
                                     (<["total_score" := ts + score gd]>
                                        (<["games_played" := gp + 1]> (data a)))))
                               (Some
                                  (<["items_caught" := ic + total_catches gd]>
                                     (<["max_score" := Z.max ms (score gd)]>
                                        (<["total_score" := ts + score gd]>
                                           (<["games_played" := gp + 1]> (data a))))))
                        else mkAnalytics
                               (<["items_caught" := ic + total_catches gd]>
                                  (<["max_score" := Z.max ms (score gd)]>
                                     (<["total_score" := ts + score gd]>
                                        (<["games_played" := gp + 1]> (data a)))))
                               (analytics_file a))
                  = <["items_caught" := ic + total_catches gd]>
                      (<["max_score" := Z.max ms (score gd)]>
                         (<["total_score" := ts + score gd]>
                            (<["games_played" := gp + 1]> (data a))))).
  { by destruct w. }
  rewrite Hdata. split; [|split; [|split]].
  - exists gp, ts, ms, ic. split_and!; try done.
    + by rewrite !lookup_insert_ne, lookup_insert_eq by done.
    + by rewrite !lookup_insert_ne, lookup_insert_eq by done.
    + by rewrite lookup_insert_ne, lookup_insert_eq by done.
    + by rewrite lookup_insert_eq.
  - intros k Hk. rewrite !elem_of_cons, elem_of_nil in Hk.
    rewrite !lookup_insert_ne; [done|intros <-; tauto..].
  - intros k.
    destruct (decide (k = "items_caught")) as [->|H1];
      [rewrite lookup_insert_eq, Hic; split; eauto|rewrite lookup_insert_ne by done].
    destruct (decide (k = "max_score")) as [->|H2];
      [rewrite lookup_insert_eq, Hms; split; eauto|rewrite lookup_insert_ne by done].
    destruct (decide (k = "total_score")) as [->|H3];
      [rewrite lookup_insert_eq, Hts; split; eauto|rewrite lookup_insert_ne by done].
    destruct (decide (k = "games_played")) as [->|H4];
      [rewrite lookup_insert_eq, Hgp; split; eauto|by rewrite lookup_insert_ne by done].
  - by destruct w.
Qed.

Lemma update_session_effect_witness :
  ∃ a', update_session (mkAnalytics Analytics_data_init None)
          (finished_round 10 5) true = Some a'
    ∧ data a' !! "games_played" = Some 1
    ∧ data a' !! "max_score" = Some 10
    ∧ data a' !! "total_time" = Some 0
    ∧ analytics_file a' = Some (data a').
Proof.
  destruct (update_session_effect (mkAnalytics Analytics_data_init None)
              (finished_round 10 5) true) as [Hnone Hsome].
  destruct (update_session (mkAnalytics Analytics_data_init None)
              (finished_round 10 5) true) as [a'|] eqn:Hrun.
  - destruct (Hsome a' eq_refl)
      as ((gp & ts & ms & ic & Hgp & _ & Hms & _ & Hgp' & _ & Hms' & _)
          & Hother & _ & Hfile).
    assert (gp = 0) as -> by (revert Hgp; vm_compute; congruence).
    assert (ms = 0) as -> by (revert Hms; vm_compute; congruence).
    exists a'. split; [reflexivity|].
    split; [rewrite Hgp'; reflexivity|]. split; [rewrite Hms'; reflexivity|].
    split; [|exact Hfile].
    rewrite Hother; [reflexivity|].
    unfold session_keys. rewrite !elem_of_cons, elem_of_nil.
    intros [H|[H|[H|[H|[]]]]]; discriminate H.
  - exfalso. destruct Hnone as [Hnone _].
    destruct (Hnone eq_refl) as (k & Hk & Hmiss).
    unfold session_keys in Hk. rewrite !elem_of_cons, elem_of_nil in Hk.
    destruct Hk as [->|[->|[->|[->|[]]]]]; revert Hmiss; vm_compute; discriminate.
Defined.

(** X14. What one session saves is what the next one starts from, and an
    update that succeeded once succeeds in every later session.  But the
    stored aggregate is taken as it is: when it lacks one of the four
    keys, the initial value of that key is not filled in and
    [update_session] raises [KeyError]; only a missing or unreadable file
    gives the initial aggregate. *)
Theorem stored_analytics_not_merged gd w :
  (∀ a gd1 a1, update_session a gd1 true = Some a1 →
     data (Analytics_init (analytics_file a1) true) = data a1
     ∧ is_Some (update_session (Analytics_init (analytics_file a1) true) gd w))
  ∧ (∀ d k, k ∈ session_keys → d !! k = None →
       data (Analytics_init (Some d) true) = d
       ∧ update_session (Analytics_init (Some d) true) gd w = None)
  ∧ (∀ file, data (Analytics_init file false) = Analytics_data_init)
  ∧ data (Analytics_init None true) = Analytics_data_init
  ∧ is_Some (update_session (mkAnalytics Analytics_data_init None) gd w).
Proof.
  split; [|split; [|split; [|split]]].
  - intros a gd1 a1 Hup.
    destruct (update_session_effect a gd1 true) as [_ Hsome].
    destruct (Hsome a1 Hup) as ((gp & ts & ms & ic & _ & _ & _ & _ & H1 & H2 & H3 & H4)
                                & _ & _ & Hfile).
    unfold Analytics_init, load_analytics. cbn [analytics_file data].
    rewrite Hfile. cbn [data]. split; [done|].
    destruct (update_session (mkAnalytics (data a1) (Some (data a1))) gd w)
      as [a2|] eqn:Hup2; [by eauto|].
    destruct (update_session_effect (mkAnalytics (data a1) (Some (data a1))) gd w)
      as [[Hnone _] _].
    destruct (Hnone Hup2) as (k & Hk & Hmiss). cbn [data] in Hmiss.
    unfold session_keys in Hk. rewrite !elem_of_cons, elem_of_nil in Hk.
    destruct Hk as [->|[->|[->|[->|[]]]]]; congruence.
  - intros d k Hk Hmiss. unfold Analytics_init, load_analytics.
    cbn [analytics_file data]. split; [done|].
    destruct (update_session_effect (mkAnalytics d (Some d)) gd w) as [[_ Hnone] _].
    apply Hnone. by exists k.
  - intros file. unfold Analytics_init, load_analytics. cbn [analytics_file].
    by destruct file.
  - done.
  - destruct (update_session (mkAnalytics Analytics_data_init None) gd w)
      as [a2|] eqn:Hup2; [by eauto|].
    destruct (update_session_effect (mkAnalytics Analytics_data_init None) gd w)
      as [[Hnone _] _].
    destruct (Hnone Hup2) as (k & Hk & Hmiss). cbn [data] in Hmiss.
    unfold session_keys in Hk. rewrite !elem_of_cons, elem_of_nil in Hk.
    destruct Hk as [->|[->|[->|[->|[]]]]]; by vm_compute in Hmiss.
Qed.

Lemma stored_analytics_not_merged_witness :
  update_session (Analytics_init (Some {[ "games_played" := 3 ]}) true)
    (finished_round 10 5) true = None.
Proof.
  destruct (stored_analytics_not_merged (finished_round 10 5) true)
    as (_ & Hmiss & _).
  apply (Hmiss {[ "games_played" := 3 ]} "total_score").
  - unfold session_keys. rewrite !elem_of_cons. right. left. reflexivity.
  - vm_compute. reflexivity.
Defined.

(** ** The pause clock *)

Section PauseClock.

Import PauseManager.

Lemma paused_time_cons t rest :
  paused_time (t :: rest)
  = match rest with
    | t2 :: rest' => (t2 - t) + paused_time rest'
    | [] => 0
    end.
Proof. by destruct rest. Qed.

Lemma toggles_run ts : ∀ pm,
  clock_ok pm →
  ∃ pm', for_each handle pm (Toggle <$> ts) = Some pm'
    ∧ clock_ok pm'
    ∧ paused pm' = xorb (paused pm) (Nat.odd (length ts))
    ∧ total_pause_time pm'
      = total_pause_time pm
        + (if paused pm
           then match pause_start pm, ts with
                | Some s, t :: rest => (t - s) + paused_time rest
                | _, _ => 0
                end
           else paused_time ts).
Proof.
  induction ts as [|t rest IH]; intros [p start total] Hok.
  { exists (mk p start total). cbn. rewrite xorb_false_r.
    split_and!; try done. destruct p, start; lia. }
  cbn [fmap list_fmap for_each handle]. unfold toggle_pause.
  cbn [paused pause_start total_pause_time]. destruct p; cbn [negb].
  - destruct (Hok eq_refl) as [s Hs]. cbn in Hs. subst start.
    cbn [mbind option_bind].
    destruct (IH (mk false (Some s) (total + (t - s)))) as (pm' & Hrun & Hok' & Hp & Ht);
      [done|].
    exists pm'. split; [done|]. split; [done|].
    cbn [paused pause_start total_pause_time] in Hp, Ht |- *.
    split.
    + rewrite Hp. cbn [length]. rewrite Nat.odd_succ, <- Nat.negb_odd.
      by destruct (Nat.odd (length rest)).
    + lia.
  - destruct (IH (mk true (Some t) total)) as (pm' & Hrun & Hok' & Hp & Ht);
      [by eexists|].
    exists pm'. split; [done|]. split; [done|].
    cbn [paused pause_start total_pause_time] in Hp, Ht |- *.
    split.
    + rewrite Hp. cbn [length]. rewrite Nat.odd_succ, <- Nat.negb_odd.
      by destruct (Nat.odd (length rest)).
    + rewrite Ht, paused_time_cons. by destruct rest.
Qed.

Lemma paused_time_nonneg ts : clock_ordered ts → 0 ≤ paused_time ts.
Proof.
  assert (H : ∀ n ts, (length ts ≤ n)%nat → clock_ordered ts → 0 ≤ paused_time ts).
  { clear ts. induction n as [|n IH]; intros ts Hlen Hord.
    - destruct ts; [done|simpl in Hlen; lia].
    - destruct ts as [|t1 [|t2 rest]]; [done..|].
      cbn [paused_time]. destruct Hord as [H12 Hord].
      assert (0 ≤ paused_time rest); [|lia].
      apply IH; [simpl in Hlen; lia|]. destruct rest; [done|]. by destruct Hord. }
  by apply (H (length ts)).
Qed.

Lemma events_run es : ∀ pm,
  clock_ok pm → ∃ pm', for_each handle pm es = Some pm' ∧ clock_ok pm'.
Proof.
  induction es as [|e es IH]; intros [p start total] Hok; [by eexists|].
  cbn [for_each]. destruct e as [now|]; cbn [handle].
  - unfold toggle_pause. cbn [paused pause_start total_pause_time].
    destruct p; cbn [negb].
    + destruct (Hok eq_refl) as [s Hs]. cbn in Hs. subst start.
      cbn [mbind option_bind]. by apply IH.
    + cbn [mbind option_bind]. apply IH. by eexists.
  - cbn [mbind option_bind]. by apply IH.
Qed.

End PauseClock.

(** X15. Starting from a running game, successive toggles at the clock
    readings [ts] never raise; the game ends up paused exactly when their
    number is odd; and the accumulated pause time grows by the lengths of
    the completed pauses, which is not negative when the clock does not
    run backwards. *)
Theorem pause_clock_accumulates ts pm :
  PauseManager.paused pm = false →
  ∃ pm',
    for_each PauseManager.handle pm (PauseManager.Toggle <$> ts) = Some pm'
    ∧ PauseManager.paused pm' = Nat.odd (length ts)
    ∧ PauseManager.total_pause_time pm'
      = PauseManager.total_pause_time pm + PauseManager.paused_time ts
    ∧ (PauseManager.clock_ordered ts →
       PauseManager.total_pause_time pm ≤ PauseManager.total_pause_time pm').
Proof.
  intros Hp. destruct (toggles_run ts pm) as (pm' & Hrun & _ & Hp' & Ht).
  { unfold PauseManager.clock_ok. by rewrite Hp. }
  rewrite Hp in Hp', Ht. exists pm'. split; [done|]. split; [done|].
  split; [done|]. intros Hord%paused_time_nonneg. lia.
Qed.

Lemma pause_clock_accumulates_witness :
  ∃ pm',
    for_each PauseManager.handle PauseManager.init
      (PauseManager.Toggle <$> [1000; 4000; 9000]) = Some pm'
    ∧ PauseManager.paused pm' = true
    ∧ PauseManager.total_pause_time pm' = 3000.
Proof.
  destruct (pause_clock_accumulates [1000; 4000; 9000] PauseManager.init eq_refl)
    as (pm' & Hrun & Hp & Ht & _).
  exists pm'. split; [exact Hrun|]. split; [exact Hp|exact Ht].
Defined.

(** X16. From [PauseManager()], no sequence of toggles and crash recoveries
    makes [toggle_pause] raise; it raises only on a manager that is
    paused without a start time, which that way is never reached. *)
Theorem pause_clock_never_raises :
  (∀ es, is_Some (for_each PauseManager.handle PauseManager.init es))
  ∧ (∀ now total,
       PauseManager.toggle_pause now (PauseManager.mk true None total) = None).
Proof.
  split; [|done]. intros es.
  destruct (events_run es PauseManager.init) as (pm' & Hrun & _); [done|].
  by exists pm'.
Qed.

(** ** The resource cache *)

(** X17. Once an image has been loaded, every later [load_image] of the same
    name returns that surface and leaves the manager alone, whatever size
    is asked for and whatever is on disk by then: the size argument only
    counts on the first load.  A failed load returns a grey surface of the
    size asked for (50 x 50 by default) and caches nothing, so that the
    next call tries the file again; with a negative size and nothing
    cached, the call raises. *)
Theorem load_image_caches_first_size disk name size rm :
  (∀ native,
     ResourceManager.image_size disk name = Some native →
     ResourceManager.size_ok (default native size) = true →
     ∃ image rm',
       ResourceManager.load_image disk name size rm = Some (image, rm')
       ∧ ResourceManager.images rm' !! name = Some image
       ∧ (ResourceManager.images rm !! name = None →
          image = ResourceManager.ImageSurface name (default native size))
       ∧ ∀ disk' size',
           ResourceManager.load_image disk' name size' rm' = Some (image, rm'))
  ∧ (ResourceManager.images rm !! name = None →
     ResourceManager.image_size disk name = None →
     ResourceManager.load_image disk name size rm
     = (if ResourceManager.size_ok (default (50, 50) size)
        then Some (ResourceManager.FilledSurface (default (50, 50) size)
                     (200, 200, 200), rm)
        else None))
  ∧ (ResourceManager.images rm !! name = None →
     ResourceManager.size_ok (default (50, 50) size) = false →
     ResourceManager.load_image disk name size rm = None).
Proof.
  unfold ResourceManager.load_image, ResourceManager.read_image.
  split; [|split].
  - intros native Hdisk Hsize.
    destruct (ResourceManager.images rm !! name) as [image|] eqn:Hhit.
    + exists image, rm. rewrite Hhit. by split_and!.
    + rewrite Hdisk. cbn [mbind option_bind].
      destruct size as [s|].
      * change (ResourceManager.size_ok s = true) in Hsize.
        rewrite Hsize. eexists _, _. split; [reflexivity|].
        cbn [ResourceManager.images]. rewrite lookup_insert_eq. by split_and!.
      * eexists _, _. split; [reflexivity|].
        cbn [ResourceManager.images]. rewrite lookup_insert_eq. by split_and!.
  - intros -> ->. done.
  - intros -> Hsize. cbv zeta.
    destruct size as [s|]; [|by vm_compute in Hsize].
    change (default (50, 50) (Some s)) with s in Hsize |- *.
    destruct (ResourceManager.image_size disk name) as [native|];
      cbn [mbind option_bind]; by rewrite Hsize.
Qed.

Lemma load_image_caches_first_size_witness :
  ∃ image rm',
    ResourceManager.load_image ResourceManager.example_disk "apple"
      (Some (60, 60)) ResourceManager.init
    = Some (image, rm')
    ∧ image = ResourceManager.ImageSurface "apple" (60, 60)
    ∧ ResourceManager.load_image ResourceManager.example_disk "apple"
        (Some (80, 80)) rm'
      = Some (image, rm').
Proof.
  destruct (load_image_caches_first_size ResourceManager.example_disk "apple"
              (Some (60, 60)) ResourceManager.init) as (Hload & _ & _).
  destruct (Hload (64, 64) eq_refl eq_refl) as (image & rm' & Hrun & _ & Himg & Hhit).
  exists image, rm'. split; [exact Hrun|]. split; [by apply Himg|apply Hhit].
Defined.

(** X18. A sound that could not be loaded is not cached: the call returns
    [None] and leaves the manager as it was, so that the cache only ever
    holds sounds; a sound that was loaded is returned by every later call
    without looking at the disk. *)
Theorem load_sound_caches_successes disk name rm :
  (ResourceManager.sounds rm !! name = None →
   ResourceManager.sound_ok disk name = false →
   ResourceManager.load_sound disk name rm = (None, rm))
  ∧ (∀ sound rm',
       ResourceManager.load_sound disk name rm = (Some sound, rm') →
       ResourceManager.sounds rm' !! name = Some sound
       ∧ ∀ disk', ResourceManager.load_sound disk' name rm' = (Some sound, rm'))
  ∧ (∀ rm', ResourceManager.load_sound disk name rm = (None, rm') →
       rm' = rm ∧ ResourceManager.sounds rm !! name = None).
Proof.
  unfold ResourceManager.load_sound. split; [|split].
  - by intros -> ->.
  - intros sound rm'.
    destruct (ResourceManager.sounds rm !! name) as [snd|] eqn:Hhit.
    + intros [= <- <-]. by rewrite Hhit.
    + destruct (ResourceManager.sound_ok disk name); [|done].
      intros [= <- <-]. cbn [ResourceManager.sounds].
      by rewrite lookup_insert_eq.
  - intros rm'. destruct (ResourceManager.sounds rm !! name) as [snd|]; [done|].
    destruct (ResourceManager.sound_ok disk name); [done|]. by intros [= <-].
Qed.

Lemma load_sound_caches_successes_witness :
  ResourceManager.load_sound ResourceManager.example_disk "catch"
    ResourceManager.init
  = (None, ResourceManager.init).
Proof.
  destruct (load_sound_caches_successes ResourceManager.example_disk "catch"
              ResourceManager.init) as (Hfail & _ & _).
  apply Hfail; reflexivity.
Defined.

(** ** The overlap pass of a spawn *)

Section Overlap.

Lemma nudge_fold_far w d x l : ∀ n,
  Forall (λ f, 60 ≤ Z.abs (centerx (food_rect (oval f)) - x)) l →
  foldl (nudge_step w d) (x, n) l = (x, n).
Proof.
  induction l as [|f l IH]; intros n Hfar; [done|].
  apply Forall_cons in Hfar as [Hf Hl]. cbn [foldl]. unfold nudge_step at 2.
  cbn [fst snd]. replace (Z.abs _ <? 60) with false by lia. by apply IH.
Qed.

Lemma clamp_x_near w x v :
  100 ≤ x ≤ w - 100 → Z.abs (clamp_x w (x + v) - x) ≤ Z.abs v.
Proof. unfold clamp_x. lia. Qed.

Lemma nudge_fold_near w d l : ∀ st x0 b,
  200 ≤ w → 100 ≤ st.1 ≤ w - 100 →
  (∀ k, nudge_pick d k = -50 ∨ nudge_pick d k = 50) →
  Z.abs (st.1 - x0) ≤ b →
  Z.abs ((foldl (nudge_step w d) st l).1 - x0) ≤ b + 50 * Z.of_nat (length l).
Proof.
  induction l as [|f l IH]; intros [x n] x0 b Hw Hx Hpick Hb.
  { cbn [foldl length]. lia. }
  cbn [foldl]. cbn [fst] in Hx, Hb.
  replace (b + 50 * Z.of_nat (length (f :: l)))
    with ((b + 50) + 50 * Z.of_nat (length l)) by (cbn [length]; lia).
  apply IH; [done| |done|].
  - unfold nudge_step. cbn [fst snd]. destruct (_ <? 60); cbn [fst]; [|done].
    apply clamp_x_range. lia.
  - unfold nudge_step. cbn [fst snd]. destruct (_ <? 60); cbn [fst]; [|lia].
    pose proof (clamp_x_near w x (nudge_pick d n) Hx).
    destruct (Hpick n) as [Hn|Hn]; rewrite Hn in *; lia.
Qed.

End Overlap.

(** X19. A spawn puts the new item at the end of the list, at the height
    drawn.  When no item of the list is within 60 pixels of the position
    chosen, the overlap pass leaves that position alone.  When the field
    is at least 200 wide, the position chosen lies in [100, width - 100]
    and every nudge is of 50 pixels, the pass moves the position by at
    most 50 pixels for each item in the list; this holds for all draws
    [random] can return in a field at least 700 wide. *)
Theorem spawn_overlap_pass self gd d gd' :
  spawn_food self gd d = Some gd' →
  ∃ food,
    food_objects gd' = food_objects gd ++ [food]
    ∧ rect_y (food_rect (oval food)) = y_draw d
    ∧ (Forall (λ f, 60 ≤ Z.abs (centerx (food_rect (oval f))
                                 - choose_spawn_x (width self)
                                     (centerx (character_rect self)) d))
         (food_objects gd) →
       rect_x (food_rect (oval food))
       = choose_spawn_x (width self) (centerx (character_rect self)) d)
    ∧ (200 ≤ width self →
       100 ≤ choose_spawn_x (width self) (centerx (character_rect self)) d
         ≤ width self - 100 →
       (∀ k, nudge_pick d k = -50 ∨ nudge_pick d k = 50) →
       Z.abs (rect_x (food_rect (oval food))
              - choose_spawn_x (width self) (centerx (character_rect self)) d)
       ≤ 50 * Z.of_nat (length (food_objects gd)))
    ∧ (700 ≤ width self → draws_valid self gd d →
       Z.abs (rect_x (food_rect (oval food))
              - choose_spawn_x (width self) (centerx (character_rect self)) d)
       ≤ 50 * Z.of_nat (length (food_objects gd))).
Proof.
  intros Hspawn.
  assert (∃ sp,
    gd' = set_allocated (S (allocated gd))
            (set_food_objects
               (food_objects gd
                ++ [Obj (allocated gd)
                      (mkFood (allocated gd)
                         (mkRect
                            (avoid_overlap (width self) d
                               (choose_spawn_x (width self)
                                  (centerx (character_rect self)) d)
                               (food_objects gd))
                            (y_draw d) (size (type_pick d)).1
                            (size (type_pick d)).2)
                         (type_pick d) sp)])
               gd)) as [sp ->].
  { revert Hspawn. unfold spawn_food.
    destruct (Py.mul _ _) as [sp|]; [|by destruct (image_load d)].
    cbn [mbind option_bind].
    destruct (image_load d); [| |done]; intros [= <-]; by exists sp. }
  eexists. gd_simpl. split; [done|].
  cbn [oval food_rect rect_x rect_y].
  split; [done|]. unfold avoid_overlap.
  assert (Hbound :
    200 ≤ width self →
    100 ≤ choose_spawn_x (width self) (centerx (character_rect self)) d
      ≤ width self - 100 →
    (∀ k, nudge_pick d k = -50 ∨ nudge_pick d k = 50) →
    Z.abs ((foldl (nudge_step (width self) d)
              (choose_spawn_x (width self) (centerx (character_rect self)) d,
               0%nat) (food_objects gd)).1
           - choose_spawn_x (width self) (centerx (character_rect self)) d)
    ≤ 50 * Z.of_nat (length (food_objects gd))).
  { intros Hw Hx Hpick.
    pose proof (nudge_fold_near (width self) d (food_objects gd)
                  (choose_spawn_x (width self) (centerx (character_rect self)) d,
                   0%nat)
                  (choose_spawn_x (width self) (centerx (character_rect self)) d)
                  0 Hw Hx Hpick ltac:(cbn [fst]; lia)) as Hnear.
    cbn [fst] in Hnear. lia. }
  split; [|split; [exact Hbound|]].
  - intros Hfar. by rewrite nudge_fold_far.
  - intros Hw (_ & Hx & _ & _ & Hpick).
    apply Hbound; [lia| |done]. by apply choose_spawn_x_range.
Qed.

Lemma spawn_overlap_pass_witness :
  ∃ gd' food,
    spawn_food started_game (GameData_init 0) example_draws = Some gd'
    ∧ food_objects gd' = [food]
    ∧ rect_x (food_rect (oval food)) = 500
    ∧ rect_y (food_rect (oval food)) = -50.
Proof.
  assert (Hrun : ∃ gd', spawn_food started_game (GameData_init 0) example_draws
                        = Some gd').
  { vm_compute. eexists. reflexivity. }
  destruct Hrun as [gd' Hgd'].
  destruct (spawn_overlap_pass started_game (GameData_init 0) example_draws gd' Hgd')
    as (food & Hobjs & Hy & Hfar & _).
  exists gd', food. split; [exact Hgd'|]. split; [exact Hobjs|].
  split; [|exact Hy]. rewrite Hfar; [vm_compute; reflexivity|]. apply Forall_nil_2.
Defined.

(** The bound needs the position chosen to lie in [100, width - 100]:
    in a field 600 wide a position of 600, which [randint(200, 600)]
    can return for a player on the left, is moved by 100 pixels past a
    single item. *)
Lemma avoid_overlap_narrow_field :
  avoid_overlap 600 example_draws 600 [example_item 0 570 100 APPLE] = 500.
Proof. by vm_compute. Qed.

(** ** The lobby *)

(** X20. The three buttons of the lobby do not overlap: a click inside
    "Play Game" starts a fresh round, a click inside "How to Play" or
    "Credits" opens that screen, and a click outside all three changes
    nothing. *)
Theorem lobby_click_dispatch g pos now :
  current_state g = LOBBY →
  (collidepoint (get_lobby_buttons g).1.1 pos = true →
   handle_mouse_click g pos now
   = set_game_data (Some (GameData_init now)) (set_current_state PLAYING g))
  ∧ (collidepoint (get_lobby_buttons g).1.2 pos = true →
     handle_mouse_click g pos now = set_current_state HOW_TO_PLAY g)
  ∧ (collidepoint (get_lobby_buttons g).2 pos = true →
     handle_mouse_click g pos now = set_current_state CREDITS g)
  ∧ (collidepoint (get_lobby_buttons g).1.1 pos = false →
     collidepoint (get_lobby_buttons g).1.2 pos = false →
     collidepoint (get_lobby_buttons g).2 pos = false →
     handle_mouse_click g pos now = g).
Proof.
  intros Hcs. unfold handle_mouse_click. rewrite Hcs.
  cbn [get_lobby_buttons fst snd].
  destruct pos as [x y].
  set (bx := width g / 2 - 300 / 2). set (by0 := height g / 2).
  assert (Hplay_how :
    collidepoint (mkRect bx (by0 + 100) 300 60) (x, y) = true →
    collidepoint (mkRect bx by0 300 60) (x, y) = false).
  { unfold collidepoint, right, bottom. cbn [rect_x rect_y rect_w rect_h fst snd].
    rewrite !andb_true_iff, !andb_false_iff, !Z.leb_le, !Z.ltb_lt, !Z.leb_gt, !Z.ltb_ge.
    lia. }
  assert (Hplay_credits :
    collidepoint (mkRect bx (by0 + 200) 300 60) (x, y) = true →
    collidepoint (mkRect bx by0 300 60) (x, y) = false
    ∧ collidepoint (mkRect bx (by0 + 100) 300 60) (x, y) = false).
  { unfold collidepoint, right, bottom. cbn [rect_x rect_y rect_w rect_h fst snd].
    rewrite !andb_true_iff, !andb_false_iff, !Z.leb_le, !Z.ltb_lt, !Z.leb_gt, !Z.ltb_ge.
    lia. }
  split; [by intros ->|]. split; [|split].
  - intros Hhow. by rewrite (Hplay_how Hhow), Hhow.
  - intros Hcredits. destruct (Hplay_credits Hcredits) as [-> ->]. by rewrite Hcredits.
  - by intros -> -> ->.
Qed.

Lemma lobby_click_dispatch_witness :
  handle_mouse_click lobby_game (600, 520) 0 = set_current_state HOW_TO_PLAY lobby_game
  ∧ handle_mouse_click lobby_game (10, 10) 0 = lobby_game.
Proof.
  destruct (lobby_click_dispatch lobby_game (600, 520) 0 eq_refl) as (_ & Hhow & _).
  destruct (lobby_click_dispatch lobby_game (10, 10) 0 eq_refl) as (_ & _ & _ & Hout).
  split; [apply Hhow; reflexivity|apply Hout; reflexivity].
Defined.

(** ** A spawn as a whole *)

(** X21. A spawn whose image load returns, or raises the [pygame.error]
    that is caught, succeeds under the guarantees of [random] and
    appends exactly one item; its speed is
    the variant's speed times the round's difficulty multiplier; the
    weights of Common and Uncommon are fixed and positive and the weight
    of Rare is its catalog weight when the roll against
    [special_spawn_chance] succeeds and 0 otherwise, so that a Rare item
    is picked only after a successful roll. *)
Theorem spawn_food_appends self gd d dm :
  image_load d ≠ OtherError →
  difficulty_multiplier gd = Py.Float dm → draws_valid self gd d →
  ∃ food,
    spawn_food self gd d
    = Some (set_allocated (S (allocated gd))
              (set_food_objects (food_objects gd ++ [food]) gd))
    ∧ food_type (oval food) = type_pick d
    ∧ Py.mul (Py.Float (speed (food_type (oval food)))) (difficulty_multiplier gd)
      = Some (food_speed (oval food))
    ∧ spawn_weights gd d !! 0%nat = Some (Py.Float (weight APPLE))
    ∧ spawn_weights gd d !! 1%nat = Some (Py.Float (weight BANANA))
    ∧ Py.lt (Py.Int 0) (Py.Float (weight APPLE)) = true
    ∧ Py.lt (Py.Int 0) (Py.Float (weight BANANA)) = true
    ∧ spawn_weights gd d !! 2%nat
      = Some (if Py.lt (Py.Float (special_roll d)) (special_spawn_chance gd)
              then Py.Float (weight SPECIAL) else Py.Int 0)
    ∧ (food_type (oval food) = SPECIAL →
       Py.lt (Py.Float (special_roll d)) (special_spawn_chance gd) = true).
Proof.
  intros Hl Hdm (Hpick & _). rewrite (spawn_food_Some self gd d dm Hl Hdm).
  destruct weights_positive as (Ha & Hb & _ & Hz).
  eexists. split; [reflexivity|]. cbn [oval food_type food_speed].
  split; [reflexivity|]. split; [by rewrite Hdm|].
  split_and!; try done.
  intros Hspecial. destruct Hpick as (i & w & Hi & Hw & Hpos).
  rewrite Hspecial in Hi.
  destruct i as [|[|[|i]]]; try discriminate Hi.
  cbn in Hw. destruct (Py.lt (Py.Float (special_roll d)) _); [done|].
  injection Hw as <-. congruence.
Qed.

Lemma spawn_food_appends_witness :
  ∃ food,
    spawn_food started_game (GameData_init 0) example_draws
    = Some (set_allocated 1 (set_food_objects [food] (GameData_init 0)))
    ∧ food_type (oval food) = APPLE
    ∧ food_speed (oval food) = Py.Float (Py.dec 12 10).
Proof.
  destruct (spawn_food_appends started_game (GameData_init 0) example_draws
              (Py.dec 10 10)) as (food & Hspawn & Htype & Hspeed & _).
  - discriminate.
  - reflexivity.
  - split; [|split; [|split; [|split]]].
    + exists 0%nat, (Py.Float (weight APPLE)).
      split; [reflexivity|]. split; [reflexivity|]. vm_compute. reflexivity.
    + vm_compute. split; discriminate.
    + right. reflexivity.
    + vm_compute. split; discriminate.
    + intros k. right. reflexivity.
  - exists food. split; [exact Hspawn|]. split; [exact Htype|].
    rewrite Htype in Hspeed.
    assert (Heq : Some (food_speed (oval food)) = Some (Py.Float (Py.dec 12 10))).
    { rewrite <- Hspeed. vm_compute. reflexivity. }
    injection Heq as ->. reflexivity.
Defined.

